(** * Spatially conditioned graphs: the interaction head

    A shallow embedding of [interaction_head.py] (the classes
    [InteractionHead], [AttentionHead], [MessageAttentionHead] and
    [GraphHead]) and the properties of its bookkeeping: detection
    preprocessing, pair enumeration, prior scores, score fusion and loss
    normalisation.  [custom_collate] and [DataFactory.filter_detections] of
    [utils.py] are embedded as well.

    Tensors are lists (a 2-D tensor carries its column count, so that a
    tensor with zero rows still has a shape).  Tensor elements are taken from
    an arbitrary carrier [R] with the operations of class [Scalar]; nothing
    is assumed about these operations unless a statement says so, hence every
    result holds for IEEE floating-point numbers in particular (instance
    [float_scalar] below is used to run the model on concrete inputs).
    Indices and class labels are natural numbers: Python's wrap-around of
    negative indices and tensor element types (dtype) are outside the model.
    Code that can raise returns a [result]. *)

From Stdlib Require Import Floats String.
From stdpp Require Import base option list sorting.

Local Open Scope nat_scope.

(** ** Exceptions *)

Inductive exn : Type :=
  | ValueError (msg : string)
  | IndexError
  | KeyError
  | TypeError
  | RuntimeError
  | AssertionError.

Inductive result (A : Type) : Type :=
  | Ok (a : A)
  | Raise (e : exn).
Arguments Ok {A} a.
Arguments Raise {A} e.

#[global] Instance result_ret : MRet result := λ A a, Ok a.
#[global] Instance result_bind : MBind result := λ A B f m,
  match m with Ok a => f a | Raise e => Raise e end.
#[global] Instance result_fmap : FMap result := λ A B f m,
  match m with Ok a => Ok (f a) | Raise e => Raise e end.

Definition is_ok {A} (m : result A) : bool :=
  match m with Ok _ => true | Raise _ => false end.

(** ** Tensor elements *)

Class Scalar (R : Type) : Type := {
  s_zero : R;
  s_one : R;
  s_add : R → R → R;
  s_mul : R → R → R;
  s_div : R → R → R;
  s_min : R → R → R;
  (** [s_geb a b] is the comparison [a >= b]. *)
  s_geb : R → R → bool;
  (** [s_nonzero a] is the test [a != 0] of [torch.nonzero]. *)
  s_nonzero : R → bool;
  (** Conversion of a Python [int] (a count) to a tensor element. *)
  s_of_nat : nat → R;
  s_relu : R → R;
  s_sigmoid : R → R;
  (** The literal [0.5]. *)
  s_half : R;
}.

(** ** Tensors *)

(** [l[i]] for a list or a 1-D tensor. *)
Definition index {A} (l : list A) (i : nat) : result A :=
  match l !! i with Some a => Ok a | None => Raise IndexError end.

(** [l[idx]] where [idx] is a 1-D tensor of indices. *)
Definition gather {A} (l : list A) (idx : list nat) : result (list A) :=
  mapM (index l) idx.

(** [l[a:b]]: slicing never raises, it truncates. *)
Definition slice {A} (l : list A) (a b : nat) : list A :=
  take (b - a) (drop a l).

(** A 2-D tensor of shape [(length t_rows, t_cols)]. *)
Record tensor2 (R : Type) : Type := T2 {
  t_cols : nat;
  t_rows : list (list R);
}.
Arguments T2 {R} t_cols t_rows.
Arguments t_cols {R} t.
Arguments t_rows {R} t.

Definition shape2 {R} (t : tensor2 R) : nat * nat := (length (t_rows t), t_cols t).

Definition wf_tensor2 {R} (t : tensor2 R) : Prop :=
  Forall (λ row, length row = t_cols t) (t_rows t).

(** [torch.zeros(m, k)]. *)
Definition zeros2 `{Scalar R} (m k : nat) : tensor2 R :=
  T2 k (replicate m (replicate k s_zero)).

(** [t[i, j]] for scalars [i], [j]. *)
Definition at2 {R} (t : tensor2 R) (i j : nat) : result R :=
  row ← index (t_rows t) i; index row j.

(** [t[x, y]] for index tensors [x], [y] of the same length. *)
Definition index2 {R} (t : tensor2 R) (xy : list (nat * nat)) : result (list R) :=
  mapM (λ p, at2 t p.1 p.2) xy.

(** [t[idx]]: rows selected by a 1-D index tensor. *)
Definition rows_at {R} (t : tensor2 R) (idx : list nat) : result (tensor2 R) :=
  T2 (t_cols t) <$> gather (t_rows t) idx.

(** [t[a:b]] on the first dimension. *)
Definition slice_rows {R} (t : tensor2 R) (a b : nat) : tensor2 R :=
  T2 (t_cols t) (slice (t_rows t) a b).

(** [torch.nonzero] of a 1-D tensor (after [squeeze(1)]): the positions
    whose element passes the test, in increasing order. *)
Fixpoint nonzero1_from {A} (P : A → bool) (i : nat) (l : list A) : list nat :=
  match l with
  | [] => []
  | a :: l' => (if P a then [i] else []) ++ nonzero1_from P (S i) l'
  end.
Definition nonzero1 {A} (P : A → bool) (l : list A) : list nat :=
  nonzero1_from P 0 l.

(** [torch.nonzero] of a 2-D tensor followed by [unbind(1)]: the (row,
    column) positions whose element passes the test, in row-major order. *)
Fixpoint nonzero2_from {A} (P : A → bool) (i : nat) (rows : list (list A))
  : list (nat * nat) :=
  match rows with
  | [] => []
  | row :: rows' => ((λ j, (i, j)) <$> nonzero1 P row) ++ nonzero2_from P (S i) rows'
  end.
Definition nonzero2 {A} (P : A → bool) (rows : list (list A)) : list (nat * nat) :=
  nonzero2_from P 0 rows.

(** [torch.meshgrid(torch.arange(a), torch.arange(b))] with the default
    row-major indexing: two [a] by [b] grids holding the row number and the
    column number of each cell. *)
Definition meshgrid (a b : nat) : list (list nat) * list (list nat) :=
  ((λ i, replicate b i) <$> seq 0 a, (λ _, seq 0 b) <$> seq 0 a).

(** Elementwise [x != y] of two integer grids. *)
Definition ne2 (x y : list (list nat)) : list (list bool) :=
  zip_with (zip_with (λ i j, negb (i =? j))) x y.

(** [g[i][j]] for a grid given as a list of rows. *)
Definition cell_at {A} (g : list (list A)) (i j : nat) : option A :=
  row ← g !! i; row !! j.

(** [t.flatten()]. *)
Definition flatten {A} (rows : list (list A)) : list A := concat rows.

(** ** Library primitives

    The operations that [interaction_head.py] imports: their code is not part
    of the repository, so they are parameters of the model.  Statements that
    depend on what they return say so in a hypothesis. *)

Definition box (R : Type) : Type := R * R * R * R.

Class Torch (R : Type) : Type := {
  (** [box_ops.batched_nms(boxes, scores, labels, iou_threshold)]: the
      indices of the boxes that are kept. *)
  batched_nms : list (box R) → list R → list nat → R → list nat;
  (** [torch.argsort(scores, descending=True)]. *)
  argsort : list R → list nat;
  (** [box_ops.box_iou] on one pair of boxes. *)
  iou : box R → box R → R;
  (** [ops.binary_focal_loss(x, y, reduction='sum', gamma=gamma)]. *)
  binary_focal_loss : list R → list R → R → R;
}.

(** What the statements assume of an answer [idx] of
    [torch.argsort(s, descending=True)]: its indices are in range, and they
    list the scores in non-increasing order. *)
Definition sorts_descending `{Scalar R} (s : list R) (idx : list nat) : Prop :=
  Forall (λ i, i < length s) idx ∧
  ∀ r, gather s idx = Ok r → StronglySorted (λ a b, s_geb a b = true) r.

(** ** Data exchanged with the detector and the dataset *)

(** One image's detections: the dict with keys [boxes], [labels], [scores]. *)
Record Detection (R : Type) : Type := mkDetection {
  boxes : list (box R);
  labels : list nat;
  scores : list R;
}.
Arguments mkDetection {R} boxes labels scores.
Arguments boxes {R} d.
Arguments labels {R} d.
Arguments scores {R} d.

(** One image's ground truth: the dict with keys [boxes_h], [boxes_o],
    [object] and [labels]. *)
Record Target (R : Type) : Type := mkTarget {
  tg_boxes_h : list (box R);
  tg_boxes_o : list (box R);
  tg_object : list nat;
  tg_labels : list nat;
}.
Arguments mkTarget {R} tg_boxes_h tg_boxes_o tg_object tg_labels.
Arguments tg_boxes_h {R} t.
Arguments tg_boxes_o {R} t.
Arguments tg_object {R} t.
Arguments tg_labels {R} t.

(** [targets[b_idx]] where [targets] may be [None]. *)
Definition subscript {A} (targets : option (list A)) (b_idx : nat) : result A :=
  match targets with
  | None => Raise TypeError
  | Some l => index l b_idx
  end.

(** ** [InteractionHead]: configuration and preprocessing *)

(** The attributes of [InteractionHead] that its own methods read
    ([__init__], lines 39-69), and the training flag of [nn.Module]. *)
Record InteractionHead (R : Type) : Type := mkInteractionHead {
  human_idx : nat;
  num_classes : nat;
  gamma : R;
  box_nms_thresh : R;
  box_score_thresh : R;
  max_human : nat;
  max_object : nat;
  distributed : bool;
  training : bool;
}.
Arguments mkInteractionHead {R}.
Arguments human_idx {R} _.
Arguments num_classes {R} _.
Arguments gamma {R} _.
Arguments box_nms_thresh {R} _.
Arguments box_score_thresh {R} _.
Arguments max_human {R} _.
Arguments max_object {R} _.
Arguments distributed {R} _.
Arguments training {R} _.

Section Preprocess.
Context {R : Type} `{Scalar R} `{Torch R}.

(** Lines 93-102: ground-truth pairs enter the detections with score one. *)
Definition append_ground_truth (self : InteractionHead R) (append_gt : bool)
    (targets : option (list (Target R))) (b_idx : nat) (detection : Detection R)
  : result (Detection R) :=
  if append_gt then
    target ← subscript targets b_idx;
    let n := length (tg_boxes_h target) in
    Ok (mkDetection
          (tg_boxes_h target ++ tg_boxes_o target ++ boxes detection)
          (replicate n (human_idx self) ++ tg_object target ++ labels detection)
          (replicate (2 * n) s_one ++ scores detection))
  else Ok detection.

(** Lines 104-115: low scoring examples are removed, then class-wise
    non-maximum suppression. *)
Definition remove_low_scoring (self : InteractionHead R) (d : Detection R) : list nat :=
  nonzero1 (λ s, s_geb s (box_score_thresh self)) (scores d).

Definition suppress (self : InteractionHead R) (d : Detection R) (active_idx : list nat)
  : result (list nat) :=
  b ← gather (boxes d) active_idx;
  s ← gather (scores d) active_idx;
  l ← gather (labels d) active_idx;
  let keep_idx := batched_nms b s l (box_nms_thresh self) in
  gather active_idx keep_idx.

(** Lines 116-118: detections sorted by score. *)
Definition sort_by_score (d : Detection R) (active_idx : list nat) : result (list nat) :=
  s ← gather (scores d) active_idx;
  let sorted_idx := argsort s in
  gather active_idx sorted_idx.

(** Lines 119-128: a fixed number of detections is kept, humans first. *)
Definition keep_fixed_number (self : InteractionHead R) (d : Detection R)
    (active_idx : list nat) : result (list nat) :=
  l ← gather (labels d) active_idx;
  let h_idx := nonzero1 (λ c, c =? human_idx self) l in
  let o_idx := nonzero1 (λ c, negb (c =? human_idx self)) l in
  let h_idx := if max_human self <? length h_idx then take (max_human self) h_idx else h_idx in
  let o_idx := if max_object self <? length o_idx then take (max_object self) o_idx else o_idx in
  let keep_idx := h_idx ++ o_idx in
  gather active_idx keep_idx.

(** The body of the loop of [preprocess] (lines 86-135) for one image. *)
Definition preprocess_image (self : InteractionHead R) (append_gt : bool)
    (targets : option (list (Target R))) (b_idx : nat) (detection : Detection R)
  : result (Detection R) :=
  d ← append_ground_truth self append_gt targets b_idx detection;
  let active_idx := remove_low_scoring self d in
  active_idx ← suppress self d active_idx;
  active_idx ← sort_by_score d active_idx;
  active_idx ← keep_fixed_number self d active_idx;
  b ← gather (boxes d) active_idx;
  l ← gather (labels d) active_idx;
  s ← gather (scores d) active_idx;
  Ok (mkDetection b l s).

(** [InteractionHead.preprocess] (lines 71-137).  [append_gt = None] stands
    for the training flag. *)
Definition preprocess (self : InteractionHead R) (detections : list (Detection R))
    (targets : option (list (Target R))) (append_gt : option bool)
  : result (list (Detection R)) :=
  let append_gt := default (training self) append_gt in
  mapM (λ p, preprocess_image self append_gt targets p.1 p.2)
       (zip (seq 0 (length detections)) detections).

End Preprocess.

(** ** Fusion units: [AttentionHead] and [MessageAttentionHead] *)

(** [nn.Linear]: [weight] has one row per output feature. *)
Record Linear (R : Type) : Type := mkLinear {
  weight : list (list R);
  bias : list R;
}.
Arguments mkLinear {R} weight bias.
Arguments weight {R} _.
Arguments bias {R} _.

(** The three [nn.ModuleList]s of [AttentionHead.__init__] (lines 314-325);
    each holds [cardinality] layers, and the layers of one list have the same
    sizes. *)
Record AttentionHead (R : Type) : Type := mkAttentionHead {
  fc_1 : list (Linear R);
  fc_2 : list (Linear R);
  fc_3 : list (Linear R);
}.
Arguments mkAttentionHead {R} fc_1 fc_2 fc_3.
Arguments fc_1 {R} _.
Arguments fc_2 {R} _.
Arguments fc_3 {R} _.

(** A 3-D tensor of shape [(length t3_cells, t3_dim1, _)]: a grid of
    feature vectors. *)
Record tensor3 (R : Type) : Type := T3 {
  t3_dim1 : nat;
  t3_cells : list (list (list R));
}.
Arguments T3 {R} t3_dim1 t3_cells.
Arguments t3_dim1 {R} _.
Arguments t3_cells {R} _.

Inductive forward_method : Type := forward_human_nodes | forward_object_nodes.

Record MessageAttentionHead (R : Type) : Type := mkMessageAttentionHead {
  mh_head : AttentionHead R;
  mh_forward_method : forward_method;
}.
Arguments mkMessageAttentionHead {R} mh_head mh_forward_method.
Arguments mh_head {R} _.
Arguments mh_forward_method {R} _.

Section Fusion.
Context {R : Type} `{Scalar R}.

(** One output feature of a linear layer; the products are accumulated from
    the left. *)
Definition dot (x w : list R) : R :=
  fold_left s_add (zip_with s_mul x w) s_zero.

(** [fc(x)] for one feature vector [x]. *)
Definition linear (fc : Linear R) (x : list R) : list R :=
  zip_with (λ w b, s_add (dot x w) b) (weight fc) (bias fc).

Definition vmul (a b : list R) : list R := zip_with s_mul a b.
Definition vadd (a b : list R) : list R := zip_with s_add a b.
Definition vrelu (a : list R) : list R := s_relu <$> a.

(** A layer applied to a batch of vectors, and to a grid of vectors. *)
Definition linear_rows (fc : Linear R) (rows : list (list R)) : list (list R) :=
  linear fc <$> rows.
Definition relu_rows (rows : list (list R)) : list (list R) := vrelu <$> rows.
Definition linear_grid (fc : Linear R) (g : list (list (list R))) : list (list (list R)) :=
  linear_rows fc <$> g.
Definition relu_grid (g : list (list (list R))) : list (list (list R)) :=
  relu_rows <$> g.

(** The elementwise product of two batches of vectors; a batch of one vector
    is broadcast along the first dimension. *)
Definition mul_rows (a b : list (list R)) : result (list (list R)) :=
  if length a =? length b then Ok (zip_with vmul a b)
  else match a, b with
       | [a0], _ => Ok (vmul a0 <$> b)
       | _, [b0] => Ok ((λ ai, vmul ai b0) <$> a)
       | _, _ => Raise RuntimeError
       end.

(** [torch.stack(ts).sum(dim=0)] for tensors of one shape; stacking an empty
    list raises. *)
Definition sum_stack {A} (add : A → A → A) (ts : list A) : result A :=
  match ts with
  | [] => Raise RuntimeError
  | t :: ts' => Ok (fold_left add ts' t)
  end.

(** [zip(self.fc_1, self.fc_2, self.fc_3)]. *)
Definition branches (self : AttentionHead R) : list (Linear R * Linear R * Linear R) :=
  zip (zip (fc_1 self) (fc_2 self)) (fc_3 self).

(** What one branch computes for one appearance vector [a] and one spatial
    vector [s]: [fc_3(relu(fc_1(a) * fc_2(s)))]. *)
Definition branch_cell (fc : Linear R * Linear R * Linear R) (a s : list R) : list R :=
  linear fc.2 (vrelu (vmul (linear fc.1.1 a) (linear fc.1.2 s))).

(** [AttentionHead.forward] (lines 326-331). *)
Definition AttentionHead_forward (self : AttentionHead R)
    (appearance spatial : list (list R)) : result (list (list R)) :=
  ts ← mapM (λ fc : Linear R * Linear R * Linear R,
               let '(fc_1, fc_2, fc_3) := fc in
               p ← mul_rows (linear_rows fc_1 appearance) (linear_rows fc_2 spatial);
               Ok (linear_rows fc_3 (relu_rows p)))
            (branches self);
  t ← sum_stack (zip_with vadd) ts;
  Ok (relu_rows t).

(** [t.permute([1, 0, 2])] of a grid with [n] columns. *)
Definition permute {A} (n : nat) (cells : list (list (list A))) : list (list (list A)) :=
  (λ j, (λ row, default [] (row !! j)) <$> cells) <$> seq 0 n.

(** The elementwise product of two grids of vectors of one shape. *)
Definition mul_grid (a b : list (list (list R))) : list (list (list R)) :=
  zip_with (zip_with vmul) a b.
Definition add_grid (a b : list (list (list R))) : list (list (list R)) :=
  zip_with (zip_with vadd) a b.

(** [MessageAttentionHead._forward_human_nodes] (lines 344-352): the result
    has shape [(n, n_h, _)]. *)
Definition MessageAttentionHead_forward_human_nodes (self : AttentionHead R)
    (appearance : list (list R)) (spatial : tensor3 R)
  : result (list (list (list R))) :=
  let n_h := length (t3_cells spatial) in
  let n := t3_dim1 spatial in
  if negb (length appearance =? n_h) then Raise AssertionError else
  sum_stack add_grid
    ((λ fc : Linear R * Linear R * Linear R,
        let '(fc_1, fc_2, fc_3) := fc in
        linear_grid fc_3 (relu_grid
          (mul_grid (replicate n (linear_rows fc_1 appearance))
                    (permute n (linear_grid fc_2 (t3_cells spatial))))))
       <$> branches self).

(** [MessageAttentionHead._forward_object_nodes] (lines 353-361): the result
    has shape [(n_h, n, _)]. *)
Definition MessageAttentionHead_forward_object_nodes (self : AttentionHead R)
    (appearance : list (list R)) (spatial : tensor3 R)
  : result (list (list (list R))) :=
  let n_h := length (t3_cells spatial) in
  let n := t3_dim1 spatial in
  if negb (length appearance =? n) then Raise AssertionError else
  sum_stack add_grid
    ((λ fc : Linear R * Linear R * Linear R,
        let '(fc_1, fc_2, fc_3) := fc in
        linear_grid fc_3 (relu_grid
          (mul_grid (replicate n_h (linear_rows fc_1 appearance))
                    (linear_grid fc_2 (t3_cells spatial)))))
       <$> branches self).

(** [MessageAttentionHead.__init__] (lines 334-342): the forward method is
    chosen by the node type. *)
Definition MessageAttentionHead_init (head : AttentionHead R) (node_type : string)
  : result (MessageAttentionHead R) :=
  if String.eqb node_type "human" then Ok (mkMessageAttentionHead head forward_human_nodes)
  else if String.eqb node_type "object" then Ok (mkMessageAttentionHead head forward_object_nodes)
  else Raise (ValueError "Unknown node type").

(** [MessageAttentionHead.forward] (lines 363-364). *)
Definition MessageAttentionHead_forward (self : MessageAttentionHead R)
    (appearance : list (list R)) (spatial : tensor3 R)
  : result (list (list (list R))) :=
  match mh_forward_method self with
  | forward_human_nodes => MessageAttentionHead_forward_human_nodes (mh_head self) appearance spatial
  | forward_object_nodes => MessageAttentionHead_forward_object_nodes (mh_head self) appearance spatial
  end.

End Fusion.

(** ** [GraphHead] *)

(** The attributes of [GraphHead] (lines 367-440).  The learned part is kept
    abstract, so that every statement holds whatever the sub-networks
    compute: [box_head] is the sequential module of lines 392-398,
    [message_passing] is the graph update of lines 551-552 and 564-608 and
    [pair_features] is the readout of lines 615-625 (which reads the global
    features of line 519).  The two functions that run inside the loop may
    raise; the box head and the pooling of the global features, which run
    before the loop on the whole batch, are taken to succeed.  [F] is the
    type of the image pyramid. *)
Record GraphHead (R F : Type) : Type := mkGraphHead {
  representation_size : nat;
  num_cls : nat;
  gh_human_idx : nat;
  object_class_to_target_class : list (list nat);
  fg_iou_thresh : R;
  gh_training : bool;
  box_head : tensor2 R → tensor2 R;
  (** Arguments: [image_shapes], [b_idx], [coords], [node_encodings], [n_h],
      [n]; result: [h_node_encodings], [node_encodings] and
      [box_pair_spatial_reshaped] after the last iteration. *)
  message_passing :
    list (nat * nat) → nat → list (box R) → tensor2 R → nat → nat →
    result (tensor2 R * tensor2 R * tensor3 R);
  (** Arguments: [features], [b_idx], [h_node_encodings], [node_encodings],
      [box_pair_spatial_reshaped], and the kept pairs [(x_keep, y_keep)]. *)
  pair_features :
    F → nat → tensor2 R → tensor2 R → tensor3 R → list (nat * nat) →
    result (tensor2 R);
}.
Arguments mkGraphHead {R F}.
Arguments representation_size {R F} _.
Arguments num_cls {R F} _.
Arguments gh_human_idx {R F} _.
Arguments object_class_to_target_class {R F} _.
Arguments fg_iou_thresh {R F} _.
Arguments gh_training {R F} _.
Arguments box_head {R F} _.
Arguments message_passing {R F} _.
Arguments pair_features {R F} _.

(** The six lists that [GraphHead.forward] returns. *)
Record GraphOut (R : Type) : Type := mkGraphOut {
  all_box_pair_features : list (tensor2 R);
  all_boxes_h : list (list (box R));
  all_boxes_o : list (list (box R));
  all_object_class : list (list nat);
  all_labels : list (tensor2 R);
  all_prior : list (tensor2 R * tensor2 R);
}.
Arguments mkGraphOut {R}.
Arguments all_box_pair_features {R} _.
Arguments all_boxes_h {R} _.
Arguments all_boxes_o {R} _.
Arguments all_object_class {R} _.
Arguments all_labels {R} _.
Arguments all_prior {R} _.

(** The variables that the loop of [GraphHead.forward] updates. *)
Record LoopState (R : Type) : Type := mkLoopState {
  counter : nat;
  outputs : GraphOut R;
}.
Arguments mkLoopState {R}.
Arguments counter {R} _.
Arguments outputs {R} _.

Section Graph.
Context {R F : Type} `{Scalar R} `{Torch R}.

(** [t[i, j] = v]. *)
Definition put2 (t : tensor2 R) (i j : nat) (v : R) : result (tensor2 R) :=
  if (i <? length (t_rows t)) && (j <? t_cols t)
  then Ok (T2 (t_cols t) (alter (λ row, <[j := v]> row) i (t_rows t)))
  else Raise IndexError.

(** [t[x, y] = vs] for index lists [x], [y] and values [vs] of one length. *)
Definition index_put2 (t : tensor2 R) (xy : list (nat * nat)) (vs : list R)
  : result (tensor2 R) :=
  fold_left (λ acc (p : nat * nat * R), t' ← acc; put2 t' p.1.1 p.1.2 p.2) (zip xy vs) (Ok t).

(** [box_ops.box_iou(a, b)]: one row per box of [a]. *)
Definition box_iou (a b : list (box R)) : list (list R) :=
  (λ x, iou x <$> b) <$> a.

(** The same as a tensor of shape [(len(a), len(b))]. *)
Definition box_iou2 (a b : list (box R)) : tensor2 R :=
  T2 (length b) (box_iou a b).

(** The size that two sizes of one dimension are broadcast to: they agree,
    or one of them is one. *)
Definition broadcast_size (a b : nat) : result nat :=
  if a =? b then Ok a
  else if a =? 1 then Ok b
  else if b =? 1 then Ok a
  else Raise RuntimeError.

(** A dimension of size one expanded to size [n]; another size is left as it
    is. *)
Definition expand {A} (n : nat) (l : list A) : list A :=
  match l with
  | [a] => replicate n a
  | _ => l
  end.

(** [torch.min(a, b)] of two 2-D tensors: the elementwise minimum of the two
    tensors broadcast to one shape. *)
Definition minimum (a b : tensor2 R) : result (tensor2 R) :=
  rows ← broadcast_size (length (t_rows a)) (length (t_rows b));
  cols ← broadcast_size (t_cols a) (t_cols b);
  let a := expand cols <$> expand rows (t_rows a) in
  let b := expand cols <$> expand rows (t_rows b) in
  Ok (T2 cols (zip_with (zip_with s_min) a b)).

(** [GraphHead.associate_with_ground_truth] (lines 442-462). *)
Definition associate_with_ground_truth (self : GraphHead R F)
    (boxes_h boxes_o : list (box R)) (target : Target R) : result (tensor2 R) :=
  let n := length boxes_h in
  let labels := zeros2 n (num_cls self) in
  m ← minimum (box_iou2 boxes_h (tg_boxes_h target))
              (box_iou2 boxes_o (tg_boxes_o target));
  let xy := nonzero2 (λ v, s_geb v (fg_iou_thresh self)) (t_rows m) in
  t ← gather (tg_labels target) xy.*2;
  index_put2 labels (zip xy.*1 t) (replicate (length xy) s_one).

(** Pair [k] matches ground-truth pair [g] of class [cls]: the smaller of
    the two overlaps (human box with human box, object box with object box)
    reaches the threshold. *)
Definition ground_truth_match (self : GraphHead R F) (boxes_h boxes_o : list (box R)) (target : Target R)
    (k cls : nat) : Prop :=
  ∃ g bh bo gh go,
    boxes_h !! k = Some bh ∧ boxes_o !! k = Some bo ∧
    tg_boxes_h target !! g = Some gh ∧ tg_boxes_o target !! g = Some go ∧
    tg_labels target !! g = Some cls ∧
    s_geb (s_min (iou bh gh) (iou bo go)) (fg_iou_thresh self) = true.

(** [scores.pow(2)]. *)
Definition pow2 (s : R) : R := s_mul s s.

(** [GraphHead.compute_prior_scores] (lines 464-490); the result stands for
    [torch.stack([prior_h, prior_o])]. *)
Definition compute_prior_scores (self : GraphHead R F) (x y : list nat)
    (scores : list R) (object_class : list nat) : result (tensor2 R * tensor2 R) :=
  let prior_h := zeros2 (length x) (num_cls self) in
  let prior_o := zeros2 (length x) (num_cls self) in
  sx ← gather scores x;
  let s_h := pow2 <$> sx in
  sy ← gather scores y;
  let s_o := pow2 <$> sy in
  oc ← gather object_class y;
  target_cls_idx ← mapM (index (object_class_to_target_class self)) oc;
  let pair_idx := concat (imap (λ i (tar : list nat), replicate (length tar) i) target_cls_idx) in
  let flat_target_idx := concat target_cls_idx in
  vh ← gather s_h pair_idx;
  prior_h ← index_put2 prior_h (zip pair_idx flat_target_idx) vh;
  vo ← gather s_o pair_idx;
  prior_o ← index_put2 prior_o (zip pair_idx flat_target_idx) vo;
  Ok (prior_h, prior_o).

(** Lines 536-544: the empty structures of a skipped image.  (The source
    creates the empty object classes with the default, floating-point
    element type; element types are outside the model.) *)
Definition append_empty (self : GraphHead R F) (o : GraphOut R) : GraphOut R :=
  mkGraphOut
    (all_box_pair_features o ++ [zeros2 0 (2 * representation_size self)])
    (all_boxes_h o ++ [[]])
    (all_boxes_o o ++ [[]])
    (all_object_class o ++ [[]])
    (all_labels o ++ [zeros2 0 (num_cls self)])
    (all_prior o ++ [(zeros2 0 (num_cls self), zeros2 0 (num_cls self))]).

(** Lines 553-558: the pairs of a human index and a detection index that are
    not the same detection. *)
Definition keep_pairs (n_h n : nat) : list (nat * nat) :=
  let '(x, y) := meshgrid n_h n in
  nonzero2 id (ne2 x y).

(** [torch.sum(labels == self.human_idx).item()]. *)
Definition count_humans (self : GraphHead R F) (labels : list nat) : nat :=
  sum_list_with (λ c, Nat.b2n (c =? gh_human_idx self)) labels.

(** The condition of line 535: no human, or at most one detection. *)
Definition skip_image (self : GraphHead R F) (coords : list (box R)) (labels : list nat)
  : bool :=
  (count_humans self labels =? 0) || (length coords <=? 1).

(** The body of the loop of [GraphHead.forward] (lines 529-634). *)
Definition forward_image (self : GraphHead R F) (features : F)
    (image_shapes : list (nat * nat)) (box_features : tensor2 R)
    (targets : option (list (Target R))) (b_idx : nat)
    (coords : list (box R)) (labels : list nat) (scores : list R)
    (st : LoopState R) : result (LoopState R) :=
  (* [num_boxes[b_idx]] is [len(box_coords[b_idx])], and [coords] is
     [box_coords[b_idx]] (lines 522 and 528-529) *)
  let n := length coords in
  let n_h := count_humans self labels in
  if skip_image self coords labels then
    Ok (mkLoopState (counter st) (append_empty self (outputs st)))
  else if negb (forallb (λ c, c =? gh_human_idx self) (take n_h labels)) then
    Raise (ValueError "Human detections are not permuted to the top")
  else
    let node_encodings := slice_rows box_features (counter st) (counter st + n) in
    let keep := keep_pairs n_h n in
    if length keep =? 0 then
      Raise (ValueError "There are no valid human-object pairs")
    else
      '(h_node_encodings, node_encodings, box_pair_spatial_reshaped) ←
        message_passing self image_shapes b_idx coords node_encodings n_h n;
      new_labels ←
        match targets with
        | None => Ok []
        | Some ts =>
            bh ← gather coords keep.*1;
            bo ← gather coords keep.*2;
            target ← index ts b_idx;
            l ← associate_with_ground_truth self bh bo target;
            Ok [l]
        end;
      feats ← pair_features self features b_idx h_node_encodings node_encodings
                box_pair_spatial_reshaped keep;
      bh ← gather coords keep.*1;
      bo ← gather coords keep.*2;
      oc ← gather labels keep.*2;
      prior ← compute_prior_scores self keep.*1 keep.*2 scores labels;
      let o := outputs st in
      Ok (mkLoopState (counter st + n)
            (mkGraphOut
               (all_box_pair_features o ++ [feats])
               (all_boxes_h o ++ [bh])
               (all_boxes_o o ++ [bo])
               (all_object_class o ++ [oc])
               (all_labels o ++ new_labels)
               (all_prior o ++ [prior]))).

(** The loop [for b_idx, (coords, labels, scores) in enumerate(zip(...))]. *)
Fixpoint forward_loop (self : GraphHead R F) (features : F)
    (image_shapes : list (nat * nat)) (box_features : tensor2 R)
    (targets : option (list (Target R))) (b_idx : nat)
    (images : list (list (box R) * list nat * list R))
    (st : LoopState R) : result (LoopState R) :=
  match images with
  | [] => Ok st
  | (coords, labels, scores) :: images' =>
      st' ← forward_image self features image_shapes box_features targets
              b_idx coords labels scores st;
      forward_loop self features image_shapes box_features targets (S b_idx) images' st'
  end.

(** The images of a batch that the condition of line 535 skips. *)
Definition skipped_images (self : GraphHead R F)
    (images : list (list (box R) * list nat * list R))
  : list (list (box R) * list nat * list R) :=
  filter (λ img, skip_image self img.1.1 img.1.2 = true) images.

Definition initial_state : LoopState R :=
  mkLoopState 0 (mkGraphOut [] [] [] [] [] []).

(** [GraphHead.forward] (lines 492-637). *)
Definition GraphHead_forward (self : GraphHead R F) (features : F)
    (image_shapes : list (nat * nat)) (box_features : tensor2 R)
    (box_coords : list (list (box R))) (box_labels : list (list nat))
    (box_scores : list (list R)) (targets : option (list (Target R)))
  : result (GraphOut R) :=
  if gh_training self && negb (bool_decide (is_Some targets)) then Raise AssertionError else
  let box_features := box_head self box_features in
  st ← forward_loop self features image_shapes box_features targets 0
         (zip (zip box_coords box_labels) box_scores) initial_state;
  Ok (outputs st).

(** The outputs of the images seen so far agree on the number of pairs of
    each image: as many object boxes and object classes as human boxes, and
    one row per pair in the priors and (when there are targets) in the
    labels. *)
Definition rows_per_pair (self : GraphHead R F) (with_labels : bool) (o : GraphOut R)
  : Prop :=
  Forall2 (λ bh bo, length bo = length bh) (all_boxes_h o) (all_boxes_o o) ∧
  Forall2 (λ bh oc, length oc = length bh) (all_boxes_h o) (all_object_class o) ∧
  Forall2 (λ bh (p : tensor2 R * tensor2 R),
             shape2 p.1 = (length bh, num_cls self) ∧
             shape2 p.2 = (length bh, num_cls self))
          (all_boxes_h o) (all_prior o) ∧
  (with_labels = true →
   Forall2 (λ bh l, shape2 l = (length bh, num_cls self)) (all_boxes_h o) (all_labels o)).

End Graph.

(** ** [InteractionHead]: postprocessing and losses *)

(** The dict that [postprocess] builds for one image; the keys [labels] and
    [binary_labels] exist only when binary labels are provided. *)
Record Result (R : Type) : Type := mkResult {
  r_boxes_h : list (box R);
  r_boxes_o : list (box R);
  r_index : list nat;
  r_prediction : list nat;
  r_scores : list R;
  r_object : list nat;
  r_prior : list R * list R;
  r_weights : list R;
  r_labels : option (list R);
  r_binary_labels : option (list R);
}.
Arguments mkResult {R}.
Arguments r_boxes_h {R} _.
Arguments r_boxes_o {R} _.
Arguments r_index {R} _.
Arguments r_prediction {R} _.
Arguments r_scores {R} _.
Arguments r_object {R} _.
Arguments r_prior {R} _.
Arguments r_weights {R} _.
Arguments r_labels {R} _.
Arguments r_binary_labels {R} _.

(** What a worker sees of [torch.distributed]: the number of workers, and
    the collective sum, which maps the worker's own contribution to the sum
    of the contributions of all workers. *)
Record DistEnv : Type := mkDistEnv {
  get_world_size : nat;
  all_reduce : nat → nat;
}.

Section Postprocess.
Context {R : Type} `{Scalar R} `{Torch R}.

Definition sigmoid2 (t : tensor2 R) : tensor2 R :=
  T2 (t_cols t) ((λ row : list R, s_sigmoid <$> row) <$> t_rows t).

Fixpoint chunks {A} (sizes : list nat) (rows : list A) : list (list A) :=
  match sizes with
  | [] => []
  | k :: sizes' => take k rows :: chunks sizes' (drop k rows)
  end.

(** [t.split(sizes)]: the sizes have to add up to the number of rows. *)
Definition split (t : tensor2 R) (sizes : list nat) : result (list (tensor2 R)) :=
  if sum_list sizes =? length (t_rows t)
  then Ok (T2 (t_cols t) <$> chunks sizes (t_rows t))
  else Raise RuntimeError.

(** Lines 208-209. *)
Definition default_labels (labels : list (tensor2 R)) (num_boxes : list nat)
  : list (option (tensor2 R)) :=
  if length labels =? 0 then replicate (length num_boxes) None else Some <$> labels.

(** Two 1-D index tensors used together are broadcast to one length. *)
Definition broadcast_indices (a b : list nat) : result (list (nat * nat)) :=
  if length a =? length b then Ok (zip a b)
  else match a, b with
       | [a0], _ => Ok ((λ j, (a0, j)) <$> b)
       | _, [b0] => Ok ((λ i, (i, b0)) <$> a)
       | _, _ => Raise IndexError
       end.

(** [t.detach()] returns the values of [t]; it only cuts the gradient. *)
Definition detach (t : list R) : list R := t.

(** [l.sum(dim=1).clamp(max=1)]. *)
Definition sum_clamp (l : tensor2 R) : list R :=
  (λ row, s_min (fold_left s_add row s_zero) s_one) <$> t_rows l.

(** The body of the loop of [postprocess] (lines 215-230). *)
Definition postprocess_image (w s : tensor2 R) (p : tensor2 R * tensor2 R)
    (b_h b_o : list (box R)) (o : list nat) (l : option (tensor2 R))
  : result (Result R) :=
  let xy := nonzero2 s_nonzero (t_rows p.1) in
  let x := xy.*1 in
  let y := xy.*2 in
  sxy ← index2 s xy;
  ph ← index2 p.1 xy;
  po ← index2 p.2 xy;
  ox ← gather o x;
  wxo ← index2 w (zip x ox);
  let scores := zip_with s_mul (zip_with s_mul sxy (zip_with s_mul ph po)) (detach wxo) in
  ar ← broadcast_indices (seq 0 (length (t_rows w))) o;
  weights ← index2 w ar;
  match l with
  | None => Ok (mkResult b_h b_o x y scores o (ph, po) weights None None)
  | Some l =>
      lxy ← index2 l xy;
      Ok (mkResult b_h b_o x y scores o (ph, po) weights (Some lxy) (Some (sum_clamp l)))
  end.

(** [InteractionHead.postprocess] (lines 182-232); [zip] stops with the
    shortest of its seven arguments. *)
Definition postprocess (logits_p logits_s : tensor2 R)
    (prior : list (tensor2 R * tensor2 R)) (boxes_h boxes_o : list (list (box R)))
    (object_class : list (list nat)) (labels : list (tensor2 R))
  : result (list (Result R)) :=
  let num_boxes := length <$> boxes_h in
  let weights := sigmoid2 logits_s in
  let scores := sigmoid2 logits_p in
  weights ← split weights num_boxes;
  scores ← split scores num_boxes;
  let labels := default_labels labels num_boxes in
  mapM (λ a : tensor2 R * tensor2 R * (tensor2 R * tensor2 R) * list (box R)
              * list (box R) * list nat * option (tensor2 R),
          let '(w, s, p, b_h, b_o, o, l) := a in
          postprocess_image w s p b_h b_o o l)
       (zip (zip (zip (zip (zip (zip weights scores) prior) boxes_h) boxes_o)
                 object_class) labels).

(** [torch.cat] of a list of 1-D tensors; an empty list raises. *)
Definition cat {A} (ts : list (list A)) : result (list A) :=
  match ts with
  | [] => Raise RuntimeError
  | _ => Ok (concat ts)
  end.

(** [result[key]] for a key that may be missing. *)
Definition getitem {A} (v : option A) : result A :=
  match v with Some a => Ok a | None => Raise KeyError end.

(** [len(torch.nonzero(labels))]. *)
Definition count_nonzero (labels : list R) : nat :=
  length (nonzero1 s_nonzero labels).

(** Lines 150-156 and 170-176: the number of positives that the loss is
    divided by. *)
Definition normaliser (self : InteractionHead R) (env : DistEnv) (labels : list R) : R :=
  let n_p := count_nonzero labels in
  if distributed self
  then s_div (s_of_nat (all_reduce env n_p)) (s_of_nat (get_world_size env))
  else s_of_nat n_p.

(** [InteractionHead.compute_interaction_classification_loss]
    (lines 139-160). *)
Definition compute_interaction_classification_loss (self : InteractionHead R)
    (env : DistEnv) (results : list (Result R)) : result R :=
  sl ← mapM (λ r, l ← getitem (r_labels r); Ok (r_scores r, l)) results;
  labels ← cat sl.*2;
  let n_p := normaliser self env labels in
  scores ← cat sl.*1;
  let loss := binary_focal_loss scores labels (gamma self) in
  Ok (s_div loss n_p).

(** [InteractionHead.compute_interactiveness_loss] (lines 162-180). *)
Definition compute_interactiveness_loss (self : InteractionHead R)
    (env : DistEnv) (results : list (Result R)) : result R :=
  wl ← mapM (λ r, l ← getitem (r_binary_labels r); Ok (r_weights r, l)) results;
  weights ← cat wl.*1;
  labels ← cat wl.*2;
  let n_p := normaliser self env labels in
  let loss := binary_focal_loss weights labels s_half in
  Ok (s_div loss n_p).

(** The positive labels of a batch of results, for each of the two losses:
    the non-zero entries of the [labels], and of the [binary_labels], of all
    its results. *)
Definition batch_positives (results : list (Result R)) : nat :=
  sum_list_with (λ r, count_nonzero (default [] (r_labels r))) results.
Definition batch_binary_positives (results : list (Result R)) : nat :=
  sum_list_with (λ r, count_nonzero (default [] (r_binary_labels r))) results.

End Postprocess.

(** The environment of worker [i] in a collective sum to which the workers
    contribute the numbers [ps]: the sum of the contributions of the other
    workers is added to its own. *)
Definition collective (ps : list nat) (i : nat) : DistEnv :=
  mkDistEnv (length ps) (λ own, own + sum_list (delete i ps)).

(** ** [InteractionHead.forward] *)

(** The sub-modules that [InteractionHead] is built from (lines 56-59). *)
Record Modules (R F : Type) : Type := mkModules {
  box_roi_pool : F → list (list (box R)) → list (nat * nat) → tensor2 R;
  box_pair_head : GraphHead R F;
  box_pair_suppressor : tensor2 R → tensor2 R;
  box_pair_predictor : tensor2 R → tensor2 R;
}.
Arguments mkModules {R F}.
Arguments box_roi_pool {R F} _.
Arguments box_pair_head {R F} _.
Arguments box_pair_suppressor {R F} _.
Arguments box_pair_predictor {R F} _.

Section Forward.
Context {R F : Type} `{Scalar R} `{Torch R}.

(** [torch.cat] of 2-D tensors along the first dimension. *)
Definition cat_rows (ts : list (tensor2 R)) : result (tensor2 R) :=
  match ts with
  | [] => Raise RuntimeError
  | t :: ts' =>
      if forallb (λ t', t_cols t' =? t_cols t) ts'
      then Ok (T2 (t_cols t) (concat (t_rows <$> ts)))
      else Raise RuntimeError
  end.

(** [InteractionHead.forward] (lines 234-303): the results, and the loss
    dict that is appended to them during training. *)
Definition InteractionHead_forward (self : InteractionHead R) (m : Modules R F)
    (env : DistEnv) (features : F) (detections : list (Detection R))
    (image_shapes : list (nat * nat)) (targets : option (list (Target R)))
  : result (list (Result R) * option (R * R)) :=
  if training self && negb (bool_decide (is_Some targets)) then Raise AssertionError else
  detections ← preprocess self detections targets None;
  let box_coords := boxes <$> detections in
  let box_labels := labels <$> detections in
  let box_scores := scores <$> detections in
  let box_features := box_roi_pool m features box_coords image_shapes in
  out ← GraphHead_forward (box_pair_head m) features image_shapes box_features
          box_coords box_labels box_scores targets;
  box_pair_features ← cat_rows (all_box_pair_features out);
  let logits_p := box_pair_predictor m box_pair_features in
  let logits_s := box_pair_suppressor m box_pair_features in
  results ← postprocess logits_p logits_s (all_prior out) (all_boxes_h out)
              (all_boxes_o out) (all_object_class out) (all_labels out);
  if training self then
    hoi_loss ← compute_interaction_classification_loss self env results;
    interactiveness_loss ← compute_interactiveness_loss self env results;
    Ok (results, Some (hoi_loss, interactiveness_loss))
  else Ok (results, None).

End Forward.

(** ** [utils.py]: batching and detection filtering *)

(** [custom_collate] (lines 30-38): a batch of (image, detections, target)
    triples is split into three lists. *)
Definition custom_collate {I D T} (batch : list (I * D * T)) : list I * list D * list T :=
  fold_left (λ (acc : list I * list D * list T) (x : I * D * T),
               let '(images, detections, targets) := acc in
               let '(im, det, tar) := x in
               (images ++ [im], detections ++ [det], targets ++ [tar]))
            batch ([], [], []).

(** The attributes of [DataFactory] that [filter_detections] reads. *)
Record DataFactory (R : Type) : Type := mkDataFactory {
  df_human_idx : nat;
  box_score_thresh_h : R;
  box_score_thresh_o : R;
}.
Arguments mkDataFactory {R}.
Arguments df_human_idx {R} _.
Arguments box_score_thresh_h {R} _.
Arguments box_score_thresh_o {R} _.

Section DataFactory.
Context {R : Type} `{Scalar R}.

(** [DataFactory.filter_detections] (lines 87-109). *)
Definition filter_detections (self : DataFactory R) (detection : Detection R)
  : result (Detection R) :=
  let boxes := boxes detection in
  let labels := labels detection in
  let scores := scores detection in
  (* low scoring human boxes are filtered out *)
  let idx := nonzero1 (λ c, c =? df_human_idx self) labels in
  s ← gather scores idx;
  keep_idx ← gather idx (nonzero1 (λ v, s_geb v (box_score_thresh_h self)) s);
  (* low scoring object boxes are filtered out *)
  let idx := nonzero1 (λ c, negb (c =? df_human_idx self)) labels in
  s ← gather scores idx;
  keep_o ← gather idx (nonzero1 (λ v, s_geb v (box_score_thresh_o self)) s);
  let keep_idx := keep_idx ++ keep_o in
  b ← gather boxes keep_idx;
  s ← gather scores keep_idx;
  l ← gather labels keep_idx;
  Ok (mkDetection b l s).

End DataFactory.

(** ** [AttentionHead.__init__] *)

(** The exceptions of the constructor: the assertion on the sizes, and the
    division by a cardinality of zero. *)
Inductive init_exn : Type :=
  | SizeAssertionError
  | ZeroDivisionError.

Section AttentionHeadInit.
Context {R : Type}.

(** A layer of [in_features] inputs and [out_features] outputs has a weight of
    [out_features] rows of [in_features] columns and a bias of [out_features]
    entries. *)
Definition linear_shape (fc : Linear R) (in_features out_features : nat) : Prop :=
  length (weight fc) = out_features ∧
  Forall (λ row, length row = in_features) (weight fc) ∧
  length (bias fc) = out_features.

(** A batch of [n] vectors of [k] features, and an [n1] by [n2] grid of
    vectors of [k] features. *)
Definition rows_shape {A} (n k : nat) (rows : list (list A)) : Prop :=
  length rows = n ∧ Forall (λ row, length row = k) rows.
Definition grid_shape {A} (n1 n2 k : nat) (g : list (list (list A))) : Prop :=
  length g = n1 ∧ Forall (rows_shape n2 k) g.

(** [AttentionHead.__init__] (lines 306-325).  [new_linear k i o] stands for
    the [k]-th [nn.Linear(i, o)] that the constructor creates; its initial
    weights are drawn at random.  [int_quotient a b] stands for [int(a / b)]
    for a non-zero [b]: the two integers are converted to floating-point
    numbers, divided, and the quotient is truncated.  It is the quotient of
    the integer division as long as the floating-point numbers are exact
    (operands below 2^52), and it need not be for larger operands; nothing is
    assumed of it here, and a statement that needs it to be exact says so
    (instance [int_true_div] below computes it with binary64 numbers). *)
Definition AttentionHead_init (int_quotient : nat → nat → nat)
    (new_linear : nat → nat → nat → Linear R)
    (appearance_size spatial_size representation_size cardinality : nat)
  : init_exn + AttentionHead R :=
  if cardinality =? 0 then inl ZeroDivisionError else
  let sub_repr_size := int_quotient representation_size cardinality in
  if negb (sub_repr_size * cardinality =? representation_size) then inl SizeAssertionError else
  inr (mkAttentionHead
         ((λ k, new_linear k appearance_size sub_repr_size) <$> seq 0 cardinality)
         ((λ k, new_linear (cardinality + k) spatial_size sub_repr_size)
            <$> seq 0 cardinality)
         ((λ k, new_linear (2 * cardinality + k) sub_repr_size representation_size)
            <$> seq 0 cardinality)).

End AttentionHeadInit.

(** ** Running the model: binary64 floating-point numbers

    The instances below let the model run on concrete inputs.  Primitive
    floats have neither exponential nor logarithm, so the sigmoid and the
    focal loss are replaced by functions of the same type (an algebraic
    sigmoid and a summed absolute error); no statement depends on this
    choice, since every theorem is proved for arbitrary instances. *)

Module Float64.

Local Open Scope float_scope.

Fixpoint of_nat (n : nat) : float :=
  match n with
  | O => 0
  | S n' => of_nat n' + 1
  end.

(** [torch.minimum]: a NaN operand gives NaN. *)
Definition fmin (a b : float) : float :=
  if PrimFloat.is_nan a then a else if a <? b then a else b.

(** [F.relu]. *)
Definition relu (a : float) : float :=
  if a <? 0 then 0 else a.

Definition algebraic_sigmoid (a : float) : float :=
  0.5 + 0.5 * (a / (1 + PrimFloat.abs a)).

#[export] Instance float_scalar : Scalar float := {|
  s_zero := 0;
  s_one := 1;
  s_add := PrimFloat.add;
  s_mul := PrimFloat.mul;
  s_div := PrimFloat.div;
  s_min := fmin;
  s_geb := λ a b, b <=? a;
  s_nonzero := λ a, negb (a =? 0);
  s_of_nat := of_nat;
  s_relu := relu;
  s_sigmoid := algebraic_sigmoid;
  s_half := 0.5;
|}.

Definition area (b : box float) : float :=
  let '(x1, y1, x2, y2) := b in (x2 - x1) * (y2 - y1).

(** Intersection over union of two boxes [(x1, y1, x2, y2)]. *)
Definition box_iou1 (a b : box float) : float :=
  let '(ax1, ay1, ax2, ay2) := a in
  let '(bx1, by1, bx2, by2) := b in
  let w := relu (fmin ax2 bx2 - (if ax1 <? bx1 then bx1 else ax1)) in
  let h := relu (fmin ay2 by2 - (if ay1 <? by1 then by1 else ay1)) in
  let inter := w * h in
  inter / (area a + area b - inter).

(** Insertion of index [i] into a list of indices ordered by decreasing
    score; equal scores keep their order. *)
Fixpoint insert_desc (s : list float) (i : nat) (idx : list nat) : list nat :=
  match idx with
  | [] => [i]
  | j :: idx' =>
      if (default 0 (s !! j)) <? (default 0 (s !! i))
      then i :: idx
      else j :: insert_desc s i idx'
  end.

Definition argsort_desc (s : list float) : list nat :=
  fold_left (λ idx i, insert_desc s i idx) (seq 0 (length s)) [].

(** Greedy class-wise non-maximum suppression: boxes are visited by
    decreasing score, and a box is dropped when it overlaps a kept box of its
    class by more than the threshold. *)
Definition nms (bs : list (box float)) (s : list float) (l : list nat) (thresh : float)
  : list nat :=
  fold_left
    (λ kept i,
       if forallb (λ k,
            negb ((default O (l !! k) =? default O (l !! i))%nat
                  && (thresh <? box_iou1 (default (0, 0, 0, 0) (bs !! k))
                                         (default (0, 0, 0, 0) (bs !! i))))) kept
       then kept ++ [i] else kept)
    (argsort_desc s) [].

(** [int(x)] for a float that is not negative: the integer part. *)
Definition trunc (x : float) : nat :=
  match Prim2SF x with
  | S754_finite false m e => Z.to_nat (Z.shiftl (Z.pos m) e)
  | _ => 0%nat
  end.

(** [int(a / b)] for two integers that are not negative. *)
Definition int_true_div (a b : nat) : nat :=
  trunc (of_nat a / of_nat b).

Definition abs_error_sum (x y : list float) (gamma : float) : float :=
  fold_left PrimFloat.add (zip_with (λ a b, PrimFloat.abs (a - b)) x y) 0.

#[export] Instance float_torch : Torch float := {|
  batched_nms := nms;
  argsort := argsort_desc;
  iou := box_iou1;
  binary_focal_loss := abs_error_sum;
|}.

End Float64.

(** ** Example inputs *)

Module Examples.
Import Float64.
Local Open Scope float_scope.

(** A graph head over floats with two object classes (class 0 is the human
    class) and three interaction classes.  Its learned part is replaced by
    projections: the box head and the message passing leave the encodings as
    they are, and the readout returns the node encodings it is given, which
    makes the rows read for an image visible in the output. *)
Definition graph_head : GraphHead float unit :=
  mkGraphHead 4%nat 3%nat 0%nat [[0%nat; 2%nat]; [1%nat]] 0.5 false
    (λ t, t)
    (λ _ _ _ node_encodings n_h n,
       Ok (slice_rows node_encodings 0 n_h, node_encodings, T3 n []))
    (λ _ _ _ node_encodings _ _, Ok node_encodings).

(** An image with a single detection, which is not a human. *)
Definition one_object : list (box float) * list nat * list float :=
  ([(0, 0, 1, 1)], [1%nat], [0.75]).

(** An image with a human and an object. *)
Definition human_and_object : list (box float) * list nat * list float :=
  ([(0, 0, 1, 1); (0, 0, 2, 2)], [0%nat; 1%nat], [0.5; 0.25]).

(** An image without detections. *)
Definition no_detection : list (box float) * list nat * list float :=
  ([], [], []).

(** An interaction head in training mode, not distributed and distributed. *)
Definition interaction_head : InteractionHead float :=
  mkInteractionHead 0%nat 3%nat 0.5 0.5 0.5 15%nat 15%nat false true.
Definition distributed_head : InteractionHead float :=
  mkInteractionHead 0%nat 3%nat 0.5 0.5 0.5 15%nat 15%nat true true.

Definition inference_head : InteractionHead float :=
  mkInteractionHead 0%nat 3%nat 0.5 0.5 0.5 15%nat 15%nat false false.

(** Three detections: an object, a human, and an object whose score is below
    the threshold of the heads above. *)
Definition three_detections : Detection float :=
  mkDetection [(0, 0, 1, 1); (0, 0, 2, 2); (1, 1, 3, 3)] [1%nat; 0%nat; 1%nat]
    [0.75; 0.875; 0.25].

(** Results with binary labels: a positive entry, and no positive entry. *)
Definition result_with_positive : Result float :=
  mkResult [(0, 0, 1, 1)] [(0, 0, 2, 2)] [0%nat; 0%nat] [0%nat; 1%nat]
    [0.5; 0.25] [1%nat] ([0.5; 0.5], [0.5; 0.5]) [0.75] (Some [1; 0]) (Some [1]).
Definition result_without_positive : Result float :=
  mkResult [(0, 0, 1, 1)] [(0, 0, 2, 2)] [0%nat; 0%nat] [0%nat; 1%nat]
    [0.5; 0.25] [1%nat] ([0.5; 0.5], [0.5; 0.5]) [0.75] (Some [0; 0]) (Some [0]).

(** A fusion unit with one branch and scalar features: the first two layers
    are the identity, the third one changes the sign. *)
Definition negating_head : AttentionHead float :=
  mkAttentionHead [mkLinear [[1]] [0]] [mkLinear [[1]] [0]] [mkLinear [[-1]] [0]].

(** Pooled features of three boxes, one row per box. *)
Definition three_rows : tensor2 float := T2 1%nat [[1]; [2]; [3]].

(** A graph head like [graph_head] whose readout returns one row of ones
    per pair. *)
Definition pairs_head : GraphHead float unit :=
  mkGraphHead 4%nat 3%nat 0%nat [[0%nat; 2%nat]; [1%nat]] 0.5 false
    (λ t, t)
    (λ _ _ _ node_encodings n_h n,
       Ok (slice_rows node_encodings 0 n_h, node_encodings, T3 n []))
    (λ _ _ _ _ _ keep, Ok (T2 8%nat ((λ _, replicate 8 1) <$> keep))).

(** The sub-modules of an interaction head: the pooled features hold one row
    per box, and the two classifiers return the same logits for every
    pair. *)
Definition modules : Modules float unit :=
  mkModules
    (λ _ box_coords _, T2 1%nat ((λ _, [1]) <$> concat box_coords))
    pairs_head
    (λ t, T2 2%nat ((λ _, [0; 3]) <$> t_rows t))
    (λ t, T2 3%nat ((λ _, [0; 1; -1]) <$> t_rows t)).

(** The [k]-th layer that a constructor creates: all its weights are one. *)
Definition constant_linear (k i o : nat) : Linear float :=
  mkLinear (replicate o (replicate i 1)) (replicate o 0).

(** A data factory whose human class is class 0. *)
Definition data_factory : DataFactory float := mkDataFactory 0%nat 0.5 0.5.

(** The ground truth of an image with one interaction of class 1. *)
Definition one_interaction : Target float :=
  mkTarget [(0, 0, 1, 1)] [(0, 0, 2, 2)] [1%nat] [1%nat].

End Examples.

(** * Properties *)

(** ** The result monad and indexing *)

Lemma bind_Ok {A B} (m : result A) (f : A → result B) b :
  m ≫= f = Ok b ↔ ∃ a, m = Ok a ∧ f a = Ok b.
Proof. destruct m; simpl; split; [eauto | by intros (? & [= ->] & ?) | done | by intros (? & ? & ?)]. Qed.

Lemma fmap_Ok {A B} (m : result A) (f : A → B) b :
  f <$> m = Ok b ↔ ∃ a, m = Ok a ∧ b = f a.
Proof. destruct m; simpl; split; [intros [= <-]; eauto | by intros (? & [= ->] & ->) | done | by intros (? & ? & ?)]. Qed.

Lemma mapM_Ok {A B} (f : A → result B) l k :
  mapM f l = Ok k ↔ Forall2 (λ x y, f x = Ok y) l k.
Proof.
  revert k. induction l as [|x l IH]; intros k; simpl.
  - split; [intros [= <-]; constructor | by inversion 1].
  - rewrite bind_Ok. split.
    + intros (y & Hy & Hk). apply bind_Ok in Hk as (k' & Hk' & [= <-]).
      constructor; [done | by apply IH].
    + inversion 1 as [|? y ? k' Hy Hk']; subst. exists y. split; [done |].
      apply bind_Ok. exists k'. split; [by apply IH | done].
Qed.

Lemma index_Ok {A} (l : list A) i a : index l i = Ok a ↔ l !! i = Some a.
Proof. unfold index. destruct (l !! i); split; congruence. Qed.

Lemma gather_Ok {A} (l : list A) idx r :
  gather l idx = Ok r ↔ Forall2 (λ i a, l !! i = Some a) idx r.
Proof.
  unfold gather. rewrite mapM_Ok.
  split; intros Hr; (eapply Forall2_impl; [exact Hr |]); intros ??; by rewrite index_Ok.
Qed.

Lemma gather_length {A} (l : list A) idx r : gather l idx = Ok r → length r = length idx.
Proof. rewrite gather_Ok. intros Hr. symmetry. by eapply Forall2_length. Qed.

Lemma gather_lookup {A} (l : list A) idx r k i :
  gather l idx = Ok r → idx !! k = Some i → ∃ a, r !! k = Some a ∧ l !! i = Some a.
Proof.
  rewrite gather_Ok. intros Hr Hk.
  destruct (Forall2_lookup_l _ _ _ _ _ Hr Hk) as (a & ? & ?). eauto.
Qed.

Lemma gather_total {A} (l : list A) idx :
  Forall (λ i, i < length l) idx → ∃ r, gather l idx = Ok r.
Proof.
  induction 1 as [|i idx Hi _ [r Hr]].
  - by exists [].
  - destruct (lookup_lt_is_Some_2 l i Hi) as [a Ha].
    exists (a :: r). apply gather_Ok. constructor; [done | by apply gather_Ok].
Qed.

Lemma gather_in_range {A} (l : list A) idx r :
  gather l idx = Ok r → Forall (λ i, i < length l) idx.
Proof.
  rewrite gather_Ok. induction 1; constructor; [by eapply lookup_lt_Some | done].
Qed.

Lemma gather_app {A} (l : list A) idx1 idx2 r :
  gather l (idx1 ++ idx2) = Ok r ↔
  ∃ r1 r2, r = r1 ++ r2 ∧ gather l idx1 = Ok r1 ∧ gather l idx2 = Ok r2.
Proof.
  rewrite gather_Ok. split.
  - intros (r1 & r2 & ? & ? & ->)%Forall2_app_inv_l.
    exists r1, r2. by rewrite !gather_Ok.
  - intros (r1 & r2 & -> & H1 & H2). apply Forall2_app; by apply gather_Ok.
Qed.

(** Indexing twice: [l[a][idx]] is [l[a[idx]]]. *)
Lemma gather_gather {A} (l : list A) a la idx ai :
  gather l a = Ok la → gather a idx = Ok ai → gather la idx = gather l ai.
Proof.
  intros Hla Hai.
  assert (∃ r, gather la idx = Ok r) as [r Hr].
  { apply gather_total. apply gather_in_range in Hai.
    by rewrite (gather_length _ _ _ Hla). }
  rewrite Hr. symmetry. apply gather_Ok.
  apply Forall2_same_length_lookup. split.
  - rewrite (gather_length _ _ _ Hr). apply gather_length in Hai. done.
  - intros k j x Hj Hx.
    assert (∃ i, idx !! k = Some i) as [i Hi].
    { apply lookup_lt_is_Some. rewrite <-(gather_length _ _ _ Hai).
      by eapply lookup_lt_Some. }
    destruct (gather_lookup _ _ _ _ _ Hai Hi) as (j' & Hj' & Haj).
    destruct (gather_lookup _ _ _ _ _ Hr Hi) as (x' & Hx' & Hlax).
    destruct (gather_lookup _ _ _ _ _ Hla Haj) as (x'' & Hx'' & Hlx).
    congruence.
Qed.

(** ** [torch.nonzero] *)

Lemma elem_of_nonzero1_from {A} (P : A → bool) i l k :
  k ∈ nonzero1_from P i l ↔ ∃ a, i ≤ k ∧ l !! (k - i) = Some a ∧ P a = true.
Proof.
  revert i. induction l as [|a l IH]; intros i; simpl.
  - split; [by intros ?%elem_of_nil | by intros (? & ? & ? & ?)].
  - rewrite elem_of_app, IH. split.
    + intros [Hk | (b & Hle & Hb & HP)].
      * destruct (P a) eqn:HPa; [|by apply elem_of_nil in Hk].
        apply list_elem_of_singleton in Hk as ->. exists a.
        by rewrite Nat.sub_diag.
      * exists b. split_and!; [lia | | done].
        by replace (k - i) with (S (k - S i)) by lia.
    + intros (b & Hle & Hb & HP). destruct (decide (k = i)) as [->|Hne].
      * rewrite Nat.sub_diag in Hb. injection Hb as ->. left. rewrite HP. by left.
      * right. exists b. split_and!; [lia | | done].
        by replace (k - i) with (S (k - S i)) in Hb by lia.
Qed.

Lemma elem_of_nonzero1 {A} (P : A → bool) l k :
  k ∈ nonzero1 P l ↔ ∃ a, l !! k = Some a ∧ P a = true.
Proof.
  unfold nonzero1. rewrite elem_of_nonzero1_from. rewrite Nat.sub_0_r.
  split; [intros (a & _ & ? & ?) | intros (a & ? & ?)]; exists a; split_and?; auto with lia.
Qed.

Lemma nonzero1_from_sorted {A} (P : A → bool) i l :
  StronglySorted lt (nonzero1_from P i l).
Proof.
  revert i. induction l as [|a l IH]; intros i; simpl; [constructor |].
  destruct (P a); simpl; [|apply IH].
  constructor; [apply IH |].
  apply Forall_forall. intros k (b & ? & _)%elem_of_nonzero1_from. lia.
Qed.

Lemma nonzero1_in_range {A} (P : A → bool) l :
  Forall (λ i, i < length l) (nonzero1 P l).
Proof.
  apply Forall_forall. intros k (a & Ha & _)%elem_of_nonzero1.
  by eapply lookup_lt_Some.
Qed.

Lemma elem_of_nonzero2_from {A} (P : A → bool) i rows x y :
  (x, y) ∈ nonzero2_from P i rows ↔
  ∃ row a, i ≤ x ∧ rows !! (x - i) = Some row ∧ row !! y = Some a ∧ P a = true.
Proof.
  revert i. induction rows as [|row rows IH]; intros i; simpl.
  - split; [by intros ?%elem_of_nil | by intros (? & ? & ? & ? & ?)].
  - rewrite elem_of_app, IH, list_elem_of_fmap. split.
    + intros [(j & [= -> ->] & (a & Ha & HP)%elem_of_nonzero1)
             | (row' & a & Hle & Hrow & Ha & HP)].
      * exists row, a. by rewrite Nat.sub_diag.
      * exists row', a. split_and!; [lia | | done | done].
        by replace (x - i) with (S (x - S i)) by lia.
    + intros (row' & a & Hle & Hrow & Ha & HP). destruct (decide (x = i)) as [->|Hne].
      * rewrite Nat.sub_diag in Hrow. injection Hrow as ->. left.
        exists y. split; [done |]. apply elem_of_nonzero1. eauto.
      * right. exists row', a. split_and!; [lia | | done | done].
        by replace (x - i) with (S (x - S i)) in Hrow by lia.
Qed.

(** The positions that [torch.nonzero] returns for a 2-D tensor are those of
    the elements that pass the test. *)
Lemma elem_of_nonzero2 {A} (P : A → bool) rows x y :
  (x, y) ∈ nonzero2 P rows ↔ ∃ row a, rows !! x = Some row ∧ row !! y = Some a ∧ P a = true.
Proof.
  unfold nonzero2. rewrite elem_of_nonzero2_from, Nat.sub_0_r.
  split; [intros (row & a & _ & ? & ? & ?) | intros (row & a & ? & ? & ?)];
    exists row, a; split_and?; auto with lia.
Qed.

(** ** Pair enumeration (lines 553-558) *)

Lemma nonzero1_ne_row i k m :
  nonzero1_from id k (zip_with (λ a b, negb (a =? b)) (replicate m i) (seq k m))
  = filter (λ j, j ≠ i) (seq k m).
Proof.
  revert k. induction m as [|m IH]; intros k; simpl; [done |].
  rewrite IH, filter_cons. unfold id.
  destruct (Nat.eqb_spec i k) as [->|Hne]; simpl.
  - by rewrite decide_False by naive_solver.
  - by rewrite decide_True by naive_solver.
Qed.

Lemma keep_pairs_from k a n :
  nonzero2_from id k
    (ne2 ((λ i, replicate n i) <$> seq k a) ((λ _, seq 0 n) <$> seq k a))
  = seq k a ≫= λ i, (λ j, (i, j)) <$> filter (λ j, j ≠ i) (seq 0 n).
Proof.
  revert k. induction a as [|a IH]; intros k; [done |].
  cbn [seq fmap list_fmap ne2 zip_with nonzero2_from]. rewrite bind_cons.
  f_equal; [| apply IH].
  unfold nonzero1. by rewrite nonzero1_ne_row.
Qed.

Lemma keep_pairs_eq n_h n :
  keep_pairs n_h n = seq 0 n_h ≫= λ i, (λ j, (i, j)) <$> filter (λ j, j ≠ i) (seq 0 n).
Proof. unfold keep_pairs, meshgrid. apply keep_pairs_from. Qed.

Lemma elem_of_keep_pairs n_h n i j :
  (i, j) ∈ keep_pairs n_h n ↔ i < n_h ∧ j < n ∧ i ≠ j.
Proof.
  rewrite keep_pairs_eq, list_elem_of_bind. split.
  - intros (i' & Hj & Hi). apply list_elem_of_fmap in Hj as (j' & [= -> ->] & Hj).
    apply list_elem_of_filter in Hj as [? Hj].
    apply elem_of_seq in Hi, Hj. lia.
  - intros (? & ? & ?). exists i. rewrite list_elem_of_fmap, elem_of_seq. split; [|lia].
    exists j. rewrite list_elem_of_filter, elem_of_seq. split_and!; auto with lia.
Qed.

Lemma NoDup_keep_pairs n_h n : NoDup (keep_pairs n_h n).
Proof.
  rewrite keep_pairs_eq. apply NoDup_bind; [| | apply NoDup_seq].
  - intros i i' p _ _ (? & -> & _)%list_elem_of_fmap (? & [= -> _] & _)%list_elem_of_fmap.
    done.
  - intros i _. apply NoDup_fmap_2; [by intros ?? [= ->] |].
    apply NoDup_filter, NoDup_seq.
Qed.

Lemma length_filter_ne i n :
  i < n → length (filter (λ j, j ≠ i) (seq 0 n)) = n - 1.
Proof.
  intros Hi. replace n with (i + (1 + (n - i - 1))) at 1 by lia.
  rewrite !seq_app, !filter_app, !length_app. simpl.
  rewrite filter_cons, decide_False, filter_nil by naive_solver. simpl.
  assert (∀ k m, (∀ j, j ∈ seq k m → j ≠ i) →
                 length (filter (λ j, j ≠ i) (seq k m)) = m) as Hall.
  { intros k m. revert k. induction m as [|m IH]; intros k Hk; simpl; [done |].
    rewrite filter_cons, decide_True by (apply Hk; left). simpl. f_equal.
    apply IH. intros j Hj. apply Hk. by right. }
  rewrite !Hall; [lia | |]; intros j Hj%elem_of_seq; lia.
Qed.

Lemma length_keep_pairs n_h n : n_h ≤ n → length (keep_pairs n_h n) = n_h * n - n_h.
Proof.
  intros Hle. rewrite keep_pairs_eq.
  assert (∀ k a, k + a ≤ n →
    length (seq k a ≫= λ i, (λ j, (i, j)) <$> filter (λ j, j ≠ i) (seq 0 n))
    = a * (n - 1)) as Hrows.
  { intros k a. revert k. induction a as [|a IH]; intros k Hk; [done |].
    cbn [seq]. rewrite bind_cons, length_app, length_fmap, IH by lia.
    rewrite length_filter_ne by lia. simpl. lia. }
  rewrite Hrows by lia. nia.
Qed.

Lemma length_filter_lt_iff {A} (P : A → Prop) `{∀ x, Decision (P x)} (l : list A) :
  length (filter P l) < length l ↔ ∃ x, x ∈ l ∧ ¬ P x.
Proof.
  split.
  - induction l as [|a l IH]; simpl; [lia |].
    rewrite filter_cons. destruct (decide (P a)); simpl.
    + intros Hlt. destruct IH as (x & ? & ?); [lia |]. exists x. split; [by right | done].
    + intros _. exists a. split; [by left | done].
  - intros (x & ? & ?). by eapply length_filter_lt.
Qed.

(** ** The loop of [GraphHead.forward] *)

Section GraphProperties.
Context {R F : Type} `{Scalar R} `{Torch R}.
Implicit Types (self : GraphHead R F) (st : LoopState R).

Lemma count_humans_le self labels : count_humans self labels ≤ length labels.
Proof.
  unfold count_humans. induction labels as [|c labels IH]; simpl; [done |].
  destruct (c =? gh_human_idx self); simpl; lia.
Qed.

Lemma forward_image_skipped self features image_shapes box_features targets b_idx
    coords labels scores st :
  skip_image self coords labels = true →
  forward_image self features image_shapes box_features targets b_idx coords labels scores st
  = Ok (mkLoopState (counter st) (append_empty self (outputs st))).
Proof. intros Hskip. unfold forward_image. by rewrite Hskip. Qed.

(** What a processed (not skipped) image adds to the state. *)
Lemma forward_image_processed self features image_shapes box_features targets b_idx
    coords labels scores st st' :
  skip_image self coords labels = false →
  forward_image self features image_shapes box_features targets b_idx coords labels scores st
  = Ok st' →
  let keep := keep_pairs (count_humans self labels) (length coords) in
  ∃ feats bh bo oc prior new_labels,
    gather coords keep.*1 = Ok bh ∧
    gather coords keep.*2 = Ok bo ∧
    gather labels keep.*2 = Ok oc ∧
    compute_prior_scores self keep.*1 keep.*2 scores labels = Ok prior ∧
    (targets = None → new_labels = []) ∧
    st' = mkLoopState (counter st + length coords)
            (mkGraphOut
               (all_box_pair_features (outputs st) ++ [feats])
               (all_boxes_h (outputs st) ++ [bh])
               (all_boxes_o (outputs st) ++ [bo])
               (all_object_class (outputs st) ++ [oc])
               (all_labels (outputs st) ++ new_labels)
               (all_prior (outputs st) ++ [prior])).
Proof.
  intros Hskip. unfold forward_image. rewrite Hskip.
  destruct (negb _); [done |].
  destruct (length _ =? 0); [done |].
  intros ([[h_enc enc] grid] & _ & Hrest)%bind_Ok.
  apply bind_Ok in Hrest as (new_labels & Hnew & Hrest).
  apply bind_Ok in Hrest as (feats & _ & Hrest).
  apply bind_Ok in Hrest as (bh & Hbh & Hrest).
  apply bind_Ok in Hrest as (bo & Hbo & Hrest).
  apply bind_Ok in Hrest as (oc & Hoc & Hrest).
  apply bind_Ok in Hrest as (prior & Hprior & [= <-]).
  exists feats, bh, bo, oc, prior, new_labels. split_and!; try done.
  intros ->. by injection Hnew as <-.
Qed.

Lemma forward_loop_cons self features image_shapes box_features targets b_idx
    coords labels scores images st :
  forward_loop self features image_shapes box_features targets b_idx
    ((coords, labels, scores) :: images) st
  = forward_image self features image_shapes box_features targets b_idx coords labels scores st
    ≫= forward_loop self features image_shapes box_features targets (S b_idx) images.
Proof. done. Qed.

(** The value of [counter] after the loop: skipped images do not advance it. *)
Lemma forward_loop_counter self features image_shapes box_features targets b_idx images st st' :
  forward_loop self features image_shapes box_features targets b_idx images st = Ok st' →
  counter st' = counter st
    + sum_list_with (λ img, if skip_image self img.1.1 img.1.2 then 0 else length img.1.1) images.
Proof.
  revert b_idx st. induction images as [|[[coords labels] scores] images IH]; intros b_idx st.
  - intros [= <-]. simpl. lia.
  - rewrite forward_loop_cons. intros (st1 & H1 & Hrest)%bind_Ok.
    apply IH in Hrest as ->. cbn [sum_list_with fst snd].
    destruct (skip_image self coords labels) eqn:Hskip.
    + rewrite forward_image_skipped in H1 by done. injection H1 as <-. simpl. lia.
    + eapply forward_image_processed in H1 as (? & ? & ? & ? & ? & ? & _ & _ & _ & _ & _ & ->);
        [|done]. simpl. lia.
Qed.

(** Without targets, the labels list grows by one empty tensor per skipped
    image, and by nothing for the other images. *)
Lemma forward_loop_labels self features image_shapes box_features b_idx images st st' :
  forward_loop self features image_shapes box_features None b_idx images st = Ok st' →
  all_labels (outputs st')
  = all_labels (outputs st)
    ++ replicate (length (skipped_images self images)) (zeros2 0 (num_cls self)).
Proof.
  revert b_idx st. induction images as [|[[coords labels] scores] images IH]; intros b_idx st.
  - intros [= <-]. simpl. by rewrite app_nil_r.
  - rewrite forward_loop_cons. intros (st1 & H1 & Hrest)%bind_Ok.
    apply IH in Hrest as ->. unfold skipped_images. rewrite filter_cons. cbn [fst snd].
    destruct (skip_image self coords labels) eqn:Hskip.
    + rewrite forward_image_skipped in H1 by done. injection H1 as <-.
      rewrite decide_True by done. simpl. by rewrite <-app_assoc.
    + eapply forward_image_processed in H1 as (? & ? & ? & ? & ? & nl & _ & _ & _ & _ & Hnl & ->);
        [|done]. rewrite Hnl by done.
      rewrite decide_False by done. simpl. by rewrite app_nil_r.
Qed.

(** Every image, skipped or not, adds one entry to five of the six lists. *)
Lemma forward_image_appends self features image_shapes box_features targets b_idx
    coords labels scores st st' :
  forward_image self features image_shapes box_features targets b_idx coords labels scores st
  = Ok st' →
  ∃ f bh bo oc l p,
    outputs st' = mkGraphOut
                    (all_box_pair_features (outputs st) ++ [f])
                    (all_boxes_h (outputs st) ++ [bh])
                    (all_boxes_o (outputs st) ++ [bo])
                    (all_object_class (outputs st) ++ [oc])
                    (all_labels (outputs st) ++ l)
                    (all_prior (outputs st) ++ [p]).
Proof.
  intros Hfwd. destruct (skip_image self coords labels) eqn:Hskip.
  - rewrite forward_image_skipped in Hfwd by done. injection Hfwd as <-.
    by eexists _, _, _, _, [_], _.
  - eapply forward_image_processed in Hfwd
      as (f & bh & bo & oc & p & l & _ & _ & _ & _ & _ & ->); [|done].
    by eexists _, _, _, _, _, _.
Qed.

(** The lists only grow at their end. *)
Lemma forward_loop_prefix self features image_shapes box_features targets b_idx images st st' :
  forward_loop self features image_shapes box_features targets b_idx images st = Ok st' →
  ∃ fs bhs bos ocs ps,
    all_box_pair_features (outputs st') = all_box_pair_features (outputs st) ++ fs ∧
    all_boxes_h (outputs st') = all_boxes_h (outputs st) ++ bhs ∧
    all_boxes_o (outputs st') = all_boxes_o (outputs st) ++ bos ∧
    all_object_class (outputs st') = all_object_class (outputs st) ++ ocs ∧
    all_prior (outputs st') = all_prior (outputs st) ++ ps.
Proof.
  revert b_idx st. induction images as [|[[coords labels] scores] images IH]; intros b_idx st.
  - intros [= <-]. exists [], [], [], [], []. by rewrite !app_nil_r.
  - rewrite forward_loop_cons. intros (st1 & H1 & Hrest)%bind_Ok.
    apply forward_image_appends in H1 as (f & bh & bo & oc & l & p & Ho).
    apply IH in Hrest as (fs & bhs & bos & ocs & ps & -> & -> & -> & -> & ->).
    rewrite Ho. simpl. rewrite <-!app_assoc. by eexists _, _, _, _, _.
Qed.

(** The entries that image [i] of the batch appends are the entries at
    offset [i] in the lists that the loop returns. *)
Lemma forward_loop_nth self features image_shapes box_features targets b_idx images st st'
    i coords labels scores :
  forward_loop self features image_shapes box_features targets b_idx images st = Ok st' →
  images !! i = Some (coords, labels, scores) →
  ∃ sti sti' f bh bo oc p,
    forward_image self features image_shapes box_features targets (b_idx + i)
      coords labels scores sti = Ok sti' ∧
    all_box_pair_features (outputs sti') = all_box_pair_features (outputs sti) ++ [f] ∧
    all_boxes_h (outputs sti') = all_boxes_h (outputs sti) ++ [bh] ∧
    all_boxes_o (outputs sti') = all_boxes_o (outputs sti) ++ [bo] ∧
    all_object_class (outputs sti') = all_object_class (outputs sti) ++ [oc] ∧
    all_prior (outputs sti') = all_prior (outputs sti) ++ [p] ∧
    all_box_pair_features (outputs st')
      !! (length (all_box_pair_features (outputs st)) + i) = Some f ∧
    all_boxes_h (outputs st') !! (length (all_boxes_h (outputs st)) + i) = Some bh ∧
    all_boxes_o (outputs st') !! (length (all_boxes_o (outputs st)) + i) = Some bo ∧
    all_object_class (outputs st') !! (length (all_object_class (outputs st)) + i) = Some oc ∧
    all_prior (outputs st') !! (length (all_prior (outputs st)) + i) = Some p.
Proof.
  revert b_idx st i. induction images as [|[[c0 l0] s0] images IH]; intros b_idx st i; [done |].
  rewrite forward_loop_cons. intros (st1 & H1 & Hrest)%bind_Ok Hi.
  pose proof H1 as (f & bh & bo & oc & l & p & Ho)%forward_image_appends.
  destruct i as [|i]; simpl in Hi.
  - injection Hi as -> -> ->.
    apply forward_loop_prefix in Hrest as (fs & bhs & bos & ocs & ps & Hf & Hbh & Hbo & Hoc & Hp).
    exists st, st1, f, bh, bo, oc, p. rewrite !Nat.add_0_r.
    rewrite Hf, Hbh, Hbo, Hoc, Hp, Ho. simpl.
    split_and!; try done; rewrite <-app_assoc; apply list_lookup_middle; done.
  - destruct (IH _ _ _ Hrest Hi)
      as (sti & sti' & f' & bh' & bo' & oc' & p' & Hfwd & ? & ? & ? & ? & ?
          & Hf & Hbh & Hbo & Hoc & Hp).
    exists sti, sti', f', bh', bo', oc', p'.
    rewrite Ho in Hf, Hbh, Hbo, Hoc, Hp. simpl in Hf, Hbh, Hbo, Hoc, Hp.
    rewrite !length_app in Hf, Hbh, Hbo, Hoc, Hp. simpl in Hf, Hbh, Hbo, Hoc, Hp.
    replace (b_idx + S i) with (S b_idx + i) by lia.
    split_and!; try done.
    + by replace (length (all_box_pair_features (outputs st)) + S i)
        with (length (all_box_pair_features (outputs st)) + 1 + i) by lia.
    + by replace (length (all_boxes_h (outputs st)) + S i)
        with (length (all_boxes_h (outputs st)) + 1 + i) by lia.
    + by replace (length (all_boxes_o (outputs st)) + S i)
        with (length (all_boxes_o (outputs st)) + 1 + i) by lia.
    + by replace (length (all_object_class (outputs st)) + S i)
        with (length (all_object_class (outputs st)) + 1 + i) by lia.
    + by replace (length (all_prior (outputs st)) + S i)
        with (length (all_prior (outputs st)) + 1 + i) by lia.
Qed.

(** The same for [GraphHead.forward], whose lists start empty. *)
Lemma GraphHead_forward_nth self features image_shapes box_features
    box_coords box_labels box_scores targets out i coords labels scores :
  GraphHead_forward self features image_shapes box_features
    box_coords box_labels box_scores targets = Ok out →
  box_coords !! i = Some coords →
  box_labels !! i = Some labels →
  box_scores !! i = Some scores →
  ∃ sti sti' f bh bo oc p,
    forward_image self features image_shapes (box_head self box_features) targets i
      coords labels scores sti = Ok sti' ∧
    all_box_pair_features (outputs sti') = all_box_pair_features (outputs sti) ++ [f] ∧
    all_boxes_h (outputs sti') = all_boxes_h (outputs sti) ++ [bh] ∧
    all_boxes_o (outputs sti') = all_boxes_o (outputs sti) ++ [bo] ∧
    all_object_class (outputs sti') = all_object_class (outputs sti) ++ [oc] ∧
    all_prior (outputs sti') = all_prior (outputs sti) ++ [p] ∧
    all_box_pair_features out !! i = Some f ∧
    all_boxes_h out !! i = Some bh ∧
    all_boxes_o out !! i = Some bo ∧
    all_object_class out !! i = Some oc ∧
    all_prior out !! i = Some p.
Proof.
  unfold GraphHead_forward. destruct (_ && _); [done |]. cbv zeta.
  intros (st & Hloop & [= <-])%bind_Ok Hc Hl Hs.
  eapply (forward_loop_nth _ _ _ _ _ _ _ _ _ i coords labels scores) in Hloop.
  - exact Hloop.
  - apply lookup_zip_with_Some. eexists (_, _), _. split; [done |]. split; [|done].
    apply lookup_zip_with_Some. eauto.
Qed.

End GraphProperties.

Section GraphClaims.
Context {R F : Type} `{Scalar R} `{Torch R}.
Implicit Types (self : GraphHead R F) (st : LoopState R).

(** C3. For an image with no human detection or with at most one detection,
    the loop body of [GraphHead.forward] does not raise: it returns a state
    whose counter is unchanged and whose six lists have each grown by one
    zero-length entry (pair features of shape 0 x (2 * representation_size),
    empty human and object box arrays, an empty object-class array, two
    priors of shape 0 x num_cls, labels of shape 0 x num_cls), and the loop
    goes on with the next image from that state.  In every output of
    [GraphHead.forward] on a batch that has the image at position [i], these
    zero-length entries are the entries at position [i]. *)
Theorem skipped_image_emits_empty_outputs self features image_shapes box_features
    targets b_idx coords labels scores st :
  count_humans self labels = 0 ∨ length coords ≤ 1 →
  (∃ st',
     forward_image self features image_shapes box_features targets b_idx
       coords labels scores st = Ok st' ∧
     counter st' = counter st ∧
     (∃ feat lab prior_h prior_o,
        all_box_pair_features (outputs st') = all_box_pair_features (outputs st) ++ [feat] ∧
        shape2 feat = (0, 2 * representation_size self) ∧
        all_boxes_h (outputs st') = all_boxes_h (outputs st) ++ [[]] ∧
        all_boxes_o (outputs st') = all_boxes_o (outputs st) ++ [[]] ∧
        all_object_class (outputs st') = all_object_class (outputs st) ++ [[]] ∧
        all_prior (outputs st') = all_prior (outputs st) ++ [(prior_h, prior_o)] ∧
        shape2 prior_h = (0, num_cls self) ∧ shape2 prior_o = (0, num_cls self) ∧
        all_labels (outputs st') = all_labels (outputs st) ++ [lab] ∧
        shape2 lab = (0, num_cls self)) ∧
     (∀ images,
        forward_loop self features image_shapes box_features targets b_idx
          ((coords, labels, scores) :: images) st
        = forward_loop self features image_shapes box_features targets (S b_idx) images st')) ∧
  (∀ box_coords box_labels box_scores out i,
     GraphHead_forward self features image_shapes box_features
       box_coords box_labels box_scores targets = Ok out →
     box_coords !! i = Some coords →
     box_labels !! i = Some labels →
     box_scores !! i = Some scores →
     all_box_pair_features out !! i = Some (zeros2 0 (2 * representation_size self)) ∧
     all_boxes_h out !! i = Some [] ∧
     all_boxes_o out !! i = Some [] ∧
     all_object_class out !! i = Some [] ∧
     all_prior out !! i = Some (zeros2 0 (num_cls self), zeros2 0 (num_cls self))).
Proof.
  intros Hskip.
  assert (skip_image self coords labels = true) as Hs.
  { unfold skip_image. apply orb_true_iff.
    destruct Hskip; [left; by apply Nat.eqb_eq | right; by apply Nat.leb_le]. }
  split.
  - eexists. split; [by apply forward_image_skipped |].
    split; [done |]. split.
    + by eexists _, _, _, _.
    + intros images. rewrite forward_loop_cons, forward_image_skipped by done. done.
  - intros box_coords box_labels box_scores out i Hout Hc Hl Hsc.
    destruct (GraphHead_forward_nth _ _ _ _ _ _ _ _ _ _ _ _ _ Hout Hc Hl Hsc)
      as (sti & sti' & f & bh & bo & oc & p & Hfwd & Ef & Ebh & Ebo & Eoc & Ep
          & Hf & Hbh & Hbo & Hoc & Hp).
    rewrite forward_image_skipped in Hfwd by done. injection Hfwd as <-.
    simpl in Ef, Ebh, Ebo, Eoc, Ep.
    apply app_inj_tail in Ef as [_ <-]. apply app_inj_tail in Ebh as [_ <-].
    apply app_inj_tail in Ebo as [_ <-]. apply app_inj_tail in Eoc as [_ <-].
    apply app_inj_tail in Ep as [_ <-]. done.
Qed.

(** The pairs of an image that is not skipped, as the loop body emits
    them. *)
Lemma forward_image_pairs self features image_shapes box_features targets b_idx
    coords labels scores st st' :
  1 ≤ count_humans self labels →
  2 ≤ length coords →
  length labels = length coords →
  forward_image self features image_shapes box_features targets b_idx
    coords labels scores st = Ok st' →
  let n_h := count_humans self labels in
  let n := length coords in
  ∃ keep bh bo oc,
    (∀ i j, (i, j) ∈ keep ↔ i < n_h ∧ j < n ∧ i ≠ j) ∧
    NoDup keep ∧
    length keep = n_h * n - n_h ∧
    gather coords keep.*1 = Ok bh ∧
    gather coords keep.*2 = Ok bo ∧
    gather labels keep.*2 = Ok oc ∧
    all_boxes_h (outputs st') = all_boxes_h (outputs st) ++ [bh] ∧
    all_boxes_o (outputs st') = all_boxes_o (outputs st) ++ [bo] ∧
    all_object_class (outputs st') = all_object_class (outputs st) ++ [oc] ∧
    length bh = n_h * n - n_h ∧ length bo = n_h * n - n_h ∧ length oc = n_h * n - n_h.
Proof.
  intros Hh Hn Hlen Hfwd n_h n.
  assert (skip_image self coords labels = false) as Hs.
  { unfold skip_image. apply orb_false_iff.
    split; [apply Nat.eqb_neq | apply Nat.leb_gt]; lia. }
  destruct (forward_image_processed _ _ _ _ _ _ _ _ _ _ _ Hs Hfwd)
    as (feats & bh & bo & oc & prior & nl & Hbh & Hbo & Hoc & _ & _ & ->).
  assert (length (keep_pairs n_h n) = n_h * n - n_h) as Hk.
  { apply length_keep_pairs. subst n_h n. rewrite <-Hlen. apply count_humans_le. }
  exists (keep_pairs n_h n), bh, bo, oc. split_and!; try done.
  - apply elem_of_keep_pairs.
  - apply NoDup_keep_pairs.
  - by rewrite (gather_length _ _ _ Hbh), length_fmap.
  - by rewrite (gather_length _ _ _ Hbo), length_fmap.
  - by rewrite (gather_length _ _ _ Hoc), length_fmap.
Qed.

(** C5. Let image [i] of a batch pass the skip condition (at least one human,
    at least two detections, as many labels as boxes).  In every output of
    [GraphHead.forward], the human boxes, object boxes and object classes
    listed for image [i] are those of the pairs (x, y) of a human index
    x < n_h and a detection index y < n with x different from y, each pair
    once: n_h * n - n_h pairs, none with twice the same index. *)
Theorem forward_emits_all_pairs self features image_shapes box_features
    box_coords box_labels box_scores targets out i coords labels scores :
  GraphHead_forward self features image_shapes box_features
    box_coords box_labels box_scores targets = Ok out →
  box_coords !! i = Some coords →
  box_labels !! i = Some labels →
  box_scores !! i = Some scores →
  1 ≤ count_humans self labels →
  2 ≤ length coords →
  length labels = length coords →
  let n_h := count_humans self labels in
  let n := length coords in
  ∃ keep bh bo oc,
    (∀ x y, (x, y) ∈ keep ↔ x < n_h ∧ y < n ∧ x ≠ y) ∧
    NoDup keep ∧
    length keep = n_h * n - n_h ∧
    gather coords keep.*1 = Ok bh ∧
    gather coords keep.*2 = Ok bo ∧
    gather labels keep.*2 = Ok oc ∧
    all_boxes_h out !! i = Some bh ∧
    all_boxes_o out !! i = Some bo ∧
    all_object_class out !! i = Some oc ∧
    length bh = n_h * n - n_h ∧ length bo = n_h * n - n_h ∧ length oc = n_h * n - n_h.
Proof.
  intros Hout Hc Hl Hs Hh Hn Hlen n_h n.
  destruct (GraphHead_forward_nth _ _ _ _ _ _ _ _ _ _ _ _ _ Hout Hc Hl Hs)
    as (sti & sti' & f & bh & bo & oc & p & Hfwd & _ & Ebh & Ebo & Eoc & _
        & _ & Hbh & Hbo & Hoc & _).
  destruct (forward_image_pairs _ _ _ _ _ _ _ _ _ _ _ Hh Hn Hlen Hfwd)
    as (keep & bh' & bo' & oc' & Hin & Hnd & Hk & Gbh & Gbo & Goc & Ebh' & Ebo' & Eoc'
        & Lbh & Lbo & Loc).
  rewrite Ebh in Ebh'. apply app_inj_tail in Ebh' as [_ <-].
  rewrite Ebo in Ebo'. apply app_inj_tail in Ebo' as [_ <-].
  rewrite Eoc in Eoc'. apply app_inj_tail in Eoc' as [_ <-].
  exists keep, bh, bo, oc. split_and!; done.
Qed.

(** C10 (amended). Without targets, the labels list that [GraphHead.forward]
    returns holds one tensor of shape 0 x num_cls for each skipped image and
    nothing for the other images.  It is never longer than the batch, and it
    is shorter exactly when some image of the batch is not skipped.  When at
    least one image is skipped the list is not empty, so the check of
    [postprocess] keeps the list and puts no [None] in its place. *)
Theorem inference_labels_list self features image_shapes box_features
    box_coords box_labels box_scores out :
  GraphHead_forward self features image_shapes box_features
    box_coords box_labels box_scores None = Ok out →
  let images := zip (zip box_coords box_labels) box_scores in
  let k := length (skipped_images self images) in
  all_labels out = replicate k (zeros2 0 (num_cls self)) ∧
  length (all_labels out) ≤ length images ∧
  (length (all_labels out) < length images ↔
     ∃ img, img ∈ images ∧ skip_image self img.1.1 img.1.2 = false) ∧
  (0 < k →
     0 < length (all_labels out) ∧
     ∀ num_boxes, default_labels (all_labels out) num_boxes = Some <$> all_labels out).
Proof.
  unfold GraphHead_forward. destruct (_ && _); [done |]. cbv zeta.
  intros (st & Hloop & [= <-])%bind_Ok. set (images := zip _ _). set (k := length _).
  apply forward_loop_labels in Hloop. simpl in Hloop. fold images k in Hloop.
  rewrite Hloop, length_replicate. split_and!; [done | apply length_filter | |].
  - unfold k, skipped_images. rewrite length_filter_lt_iff.
    split; intros (img & Himg & Hns); exists img; (split; [done |]);
      by destruct (skip_image self img.1.1 img.1.2).
  - intros Hk. split; [done |]. intros num_boxes. unfold default_labels.
    rewrite length_replicate. by destruct k; [lia |].
Qed.

End GraphClaims.

(** ** The loop on example images *)

Section GraphExamples.
Import Float64 Examples.
Local Open Scope float_scope.

Lemma skipped_image_emits_empty_outputs_witness :
  count_humans graph_head one_object.1.2 = 0%nat ∧
  ∃ st', forward_image graph_head () [] three_rows None 0
           one_object.1.1 one_object.1.2 one_object.2 initial_state = Ok st' ∧
         counter st' = 0%nat ∧
         all_boxes_h (outputs st') = [[]].
Proof.
  split; [reflexivity |].
  destruct (skipped_image_emits_empty_outputs graph_head () [] three_rows None 0
              one_object.1.1 one_object.1.2 one_object.2 initial_state
              (or_introl eq_refl))
    as [(st' & Hfwd & Hcounter & (feat & lab & ph & po & _ & _ & Hbh & _) & _) _].
  exists st'. split; [exact Hfwd |]. split; [exact Hcounter | exact Hbh].
Defined.

Lemma forward_emits_all_pairs_witness :
  (1 ≤ count_humans graph_head human_and_object.1.2)%nat ∧
  ∃ out bh bo,
    GraphHead_forward graph_head () [] three_rows
      [one_object.1.1; human_and_object.1.1]
      [one_object.1.2; human_and_object.1.2]
      [one_object.2; human_and_object.2] None = Ok out ∧
    all_boxes_h out !! 1%nat = Some bh ∧ length bh = 1%nat ∧
    all_boxes_o out !! 1%nat = Some bo ∧ length bo = 1%nat.
Proof.
  split; [vm_compute; lia |].
  eassert (GraphHead_forward graph_head () [] three_rows
             [one_object.1.1; human_and_object.1.1]
             [one_object.1.2; human_and_object.1.2]
             [one_object.2; human_and_object.2] None = Ok _) as Hout
    by (vm_compute; reflexivity).
  destruct (forward_emits_all_pairs _ _ _ _ _ _ _ _ _ 1%nat _ _ _ Hout
              eq_refl eq_refl eq_refl
              ltac:(vm_compute; lia) ltac:(vm_compute; lia) eq_refl)
    as (keep & bh & bo & oc & _ & _ & _ & _ & _ & _ & Hbh & Hbo & _ & Lbh & Lbo & _).
  eexists _, bh, bo. split; [exact Hout |].
  split; [exact Hbh |]. split; [exact Lbh |]. split; [exact Hbo | exact Lbo].
Defined.

Lemma inference_labels_list_witness :
  ∃ out, GraphHead_forward graph_head () [] three_rows
           [one_object.1.1; human_and_object.1.1]
           [one_object.1.2; human_and_object.1.2]
           [one_object.2; human_and_object.2] None = Ok out ∧
         all_labels out = [zeros2 0 3] ∧
         default_labels (all_labels out) [0; 1]%nat = [Some (zeros2 0 3)].
Proof.
  eexists. split; [vm_compute; reflexivity |].
  edestruct (inference_labels_list graph_head () [] three_rows
               [one_object.1.1; human_and_object.1.1]
               [one_object.1.2; human_and_object.1.2]
               [one_object.2; human_and_object.2]) as (Hl & _ & _ & Hk).
  - vm_compute. reflexivity.
  - split; [exact Hl |]. destruct Hk as [_ Hd]; [vm_compute; lia |].
    rewrite Hd. reflexivity.
Defined.

(** C10 (counterexample). A batch of one image without detections: the image
    is skipped, and the labels list has one entry, as many as the batch has
    images. *)
Lemma all_skipped_batch_labels_not_shorter :
  ∃ out, GraphHead_forward graph_head () [] (T2 1 [])
           [no_detection.1.1] [no_detection.1.2] [no_detection.2] None = Ok out ∧
         skipped_images graph_head [no_detection] = [no_detection] ∧
         length (all_labels out) = length [no_detection] ∧
         ¬ (length (all_labels out) < length [no_detection])%nat.
Proof.
  eexists. split; [vm_compute; reflexivity |].
  split; [reflexivity |]. split; [reflexivity |]. simpl. lia.
Qed.

(** C9 (failing input). A batch of two images: one detection that is not a
    human, then a human and an object.  The pooled features have one row per
    box, rows 1 and 2 belong to the second image; the loop reads rows 0 and 1
    for it, since the skipped first image has not advanced the counter.  (The
    readout of [graph_head] returns the node encodings it receives.) *)
Theorem skipped_image_shifts_node_encodings :
  all_box_pair_features <$>
    GraphHead_forward graph_head () [] three_rows
      [one_object.1.1; human_and_object.1.1]
      [one_object.1.2; human_and_object.1.2]
      [one_object.2; human_and_object.2] None
  = Ok [zeros2 0 8; slice_rows three_rows 0 2] ∧
  slice_rows three_rows 0 2 = T2 1 [[1]; [2]] ∧
  slice_rows three_rows (length one_object.1.1)
    (length one_object.1.1 + length human_and_object.1.1) = T2 1 [[2]; [3]].
Proof. split; [vm_compute; reflexivity |]. split; reflexivity. Qed.

End GraphExamples.

(** ** Prior scores *)

Section PriorProperties.
Context {R F : Type} `{Scalar R} `{Torch R}.
Implicit Types (self : GraphHead R F) (t : tensor2 R).

Lemma at2_Ok t i j v :
  at2 t i j = Ok v ↔ ∃ row, t_rows t !! i = Some row ∧ row !! j = Some v.
Proof. unfold at2. rewrite bind_Ok. by setoid_rewrite index_Ok. Qed.

Lemma wf_zeros2 m k : wf_tensor2 (zeros2 m k).
Proof.
  unfold wf_tensor2, zeros2. simpl. apply Forall_forall.
  intros row [-> _]%elem_of_replicate. apply length_replicate.
Qed.

Lemma at2_zeros2 m k i j : i < m → j < k → at2 (zeros2 m k) i j = Ok s_zero.
Proof.
  intros Hi Hj. apply at2_Ok. exists (replicate k s_zero).
  split; by apply lookup_replicate_2.
Qed.

Lemma put2_Ok t i j v t' :
  wf_tensor2 t →
  put2 t i j v = Ok t' →
  wf_tensor2 t' ∧
  ∀ i' j', at2 t' i' j' = if decide (i' = i ∧ j' = j) then Ok v else at2 t i' j'.
Proof.
  intros Hwf. unfold put2.
  destruct (_ && _) eqn:Hin; [|done]. intros [= <-].
  apply andb_true_iff in Hin as [Hi%Nat.ltb_lt Hj%Nat.ltb_lt]. split.
  - unfold wf_tensor2 in *. simpl. apply Forall_alter; [done |].
    intros row _ Hrow. by rewrite length_insert.
  - intros i' j'. unfold at2, index. simpl. rewrite list_lookup_alter.
    destruct (decide (i = i')) as [<-|Hne].
    + destruct (lookup_lt_is_Some_2 _ _ Hi) as [row Hrow]. rewrite Hrow. simpl.
      assert (length row = t_cols t) as Hlen.
      { eapply Forall_lookup_1 in Hwf; [|done]. done. }
      destruct (decide (j' = j)) as [->|Hnej].
      * rewrite decide_True by done. by rewrite list_lookup_insert_eq by lia.
      * rewrite decide_False by (by intros [_ ?]). by rewrite list_lookup_insert_ne.
    + by rewrite decide_False by (by intros [? _]).
Qed.

Lemma index_put2_cons t p xy v vs :
  index_put2 t (p :: xy) (v :: vs) = put2 t p.1 p.2 v ≫= λ t', index_put2 t' xy vs.
Proof.
  unfold index_put2. simpl. destruct (put2 t p.1 p.2 v) as [t'|e]; simpl; [done |].
  generalize (zip xy vs). intros l. by induction l.
Qed.

(** An indexed assignment whose value depends on the row only: the cells that
    are listed hold the value of their row, the others are unchanged. *)
Lemma index_put2_at t xy vs g t' :
  wf_tensor2 t →
  length vs = length xy →
  (∀ m p v, xy !! m = Some p → vs !! m = Some v → v = g p.1) →
  index_put2 t xy vs = Ok t' →
  ∀ i j, at2 t' i j = if decide ((i, j) ∈ xy) then Ok (g i) else at2 t i j.
Proof.
  revert t vs. induction xy as [|[i0 j0] xy IH]; intros t vs Hwf Hlen Hg.
  - intros [= <-] i j. by rewrite decide_False by apply not_elem_of_nil.
  - destruct vs as [|v vs]; [done |]. rewrite index_put2_cons.
    intros (t1 & Hput & Hrest)%bind_Ok i j.
    destruct (put2_Ok _ _ _ _ _ Hwf Hput) as [Hwf1 Hat1].
    rewrite (IH t1 vs Hwf1); [| simpl in Hlen; lia | | done].
    2: { intros m p v' Hp Hv. by apply (Hg (S m)). }
    rewrite Hat1. simpl.
    assert (v = g i0) as -> by (by apply (Hg 0 (i0, j0))).
    destruct (decide ((i, j) ∈ xy)) as [Hin|Hnin].
    + rewrite decide_True; [done | by right].
    + destruct (decide (i = i0 ∧ j = j0)) as [[-> ->]|Hne].
      * rewrite decide_True; [done | by left].
      * rewrite decide_False; [done |].
        intros [[= -> ->]|?]%elem_of_cons; naive_solver.
Qed.

(** The cells that [compute_prior_scores] writes: row [i] with every class
    that the object of pair [i] maps to. *)
Lemma zip_pair_idx (h : nat → nat) (tcs : list (list nat)) :
  zip (concat (imap (λ i (tar : list nat), replicate (length tar) (h i)) tcs)) (concat tcs)
  = concat (imap (λ i (tar : list nat), (λ c, (h i, c)) <$> tar) tcs).
Proof.
  revert h. induction tcs as [|tar tcs IH]; intros h; [done |].
  rewrite !imap_cons. simpl.
  rewrite zip_with_app by apply length_replicate.
  rewrite zip_with_replicate_l by done. f_equal. apply (IH (h ∘ S)).
Qed.

Lemma length_pair_idx (h : nat → nat) (tcs : list (list nat)) :
  length (concat (imap (λ i (tar : list nat), replicate (length tar) (h i)) tcs))
  = length (concat tcs).
Proof.
  revert h. induction tcs as [|tar tcs IH]; intros h; [done |].
  rewrite imap_cons. simpl. rewrite !length_app, length_replicate.
  f_equal. apply (IH (h ∘ S)).
Qed.

Lemma elem_of_concat_imap {A B} (f : nat → A → list B) (l : list A) b :
  b ∈ concat (imap f l) ↔ ∃ i a, l !! i = Some a ∧ b ∈ f i a.
Proof.
  revert f. induction l as [|a l IH]; intros f.
  - simpl. split; [by intros ?%elem_of_nil | by intros (? & ? & ? & ?)].
  - rewrite imap_cons. simpl. rewrite elem_of_app, IH. split.
    + intros [?|(i & a' & ? & ?)]; [by exists 0, a | by exists (S i), a'].
    + intros ([|i] & a' & Ha & ?); [left; by injection Ha as -> | right; eauto].
Qed.

Lemma compute_prior_scores_at self x y scores object_class prior_h prior_o :
  compute_prior_scores self x y scores object_class = Ok (prior_h, prior_o) →
  ∀ k i j, x !! k = Some i → y !! k = Some j →
  ∃ s_i s_j c tar,
    scores !! i = Some s_i ∧ scores !! j = Some s_j ∧
    object_class !! j = Some c ∧
    object_class_to_target_class self !! c = Some tar ∧
    ∀ cls, cls < num_cls self →
      at2 prior_h k cls = Ok (if decide (cls ∈ tar) then pow2 s_i else s_zero) ∧
      at2 prior_o k cls = Ok (if decide (cls ∈ tar) then pow2 s_j else s_zero).
Proof.
  unfold compute_prior_scores.
  intros (sx & Hsx & Hrest)%bind_Ok.
  apply bind_Ok in Hrest as (sy & Hsy & Hrest).
  apply bind_Ok in Hrest as (oc & Hoc & Hrest).
  apply bind_Ok in Hrest as (tcs & Htcs & Hrest).
  apply bind_Ok in Hrest as (vh & Hvh & Hrest).
  apply bind_Ok in Hrest as (ph & Hph & Hrest).
  apply bind_Ok in Hrest as (vo & Hvo & Hrest).
  apply bind_Ok in Hrest as (po & Hpo & [= <- <-]).
  rewrite zip_pair_idx in Hph, Hpo.
  set (pair_idx := concat (imap (λ i (tar : list nat), replicate (length tar) i) tcs)) in *.
  set (writes := concat (imap (λ i (tar : list nat), (λ c, (i, c)) <$> tar) tcs)) in *.
  assert (writes.*1 = pair_idx) as Hfst.
  { unfold writes. rewrite <-(zip_pair_idx id). apply fst_zip.
    pose proof (length_pair_idx id tcs) as Hl. unfold id in Hl.
    unfold pair_idx. by rewrite Hl. }
  intros k i j Hi Hj.
  destruct (gather_lookup _ _ _ _ _ Hsx Hi) as (s_i & Hsxk & Hsi).
  destruct (gather_lookup _ _ _ _ _ Hsy Hj) as (s_j & Hsyk & Hsj).
  destruct (gather_lookup _ _ _ _ _ Hoc Hj) as (c & Hock & Hc).
  apply mapM_Ok in Htcs.
  destruct (Forall2_lookup_l _ _ _ _ _ Htcs Hock) as (tar & Htar & Hmap%index_Ok).
  exists s_i, s_j, c, tar. split_and!; try done.
  assert ((∀ cls, (k, cls) ∈ writes ↔ cls ∈ tar)) as Hw.
  { intros cls. unfold writes. rewrite elem_of_concat_imap. split.
    - intros (k' & tar' & Htar' & (c' & [= -> ->] & ?)%list_elem_of_fmap). congruence.
    - intros Hcls. exists k, tar. split; [done |]. apply list_elem_of_fmap. eauto. }
  assert (∀ (s : list R) vs, gather (pow2 <$> s) pair_idx = Ok vs →
            ∀ m p v, writes !! m = Some p → vs !! m = Some v →
                     v = default s_zero ((pow2 <$> s) !! p.1)) as Hvals.
  { intros s vs Hvs m p v Hp Hv.
    assert (pair_idx !! m = Some p.1) as Hpm.
    { rewrite <-Hfst, list_lookup_fmap, Hp. done. }
    destruct (gather_lookup _ _ _ _ _ Hvs Hpm) as (v' & Hv' & Hs). rewrite Hs. simpl.
    congruence. }
  intros cls Hcls.
  assert (k < length x) as Hk by (by eapply lookup_lt_Some).
  split.
  - rewrite (index_put2_at _ _ _ (λ i, default s_zero ((pow2 <$> sx) !! i)) _
               (wf_zeros2 _ _) ltac:(rewrite (gather_length _ _ _ Hvh), <-Hfst; apply length_fmap)
               (Hvals _ _ Hvh) Hph).
    destruct (decide ((k, cls) ∈ writes)) as [Hin|Hnin].
    + rewrite decide_True by (by apply Hw). by rewrite list_lookup_fmap, Hsxk.
    + rewrite decide_False by (by rewrite <-Hw). by apply at2_zeros2.
  - rewrite (index_put2_at _ _ _ (λ i, default s_zero ((pow2 <$> sy) !! i)) _
               (wf_zeros2 _ _) ltac:(rewrite (gather_length _ _ _ Hvo), <-Hfst; apply length_fmap)
               (Hvals _ _ Hvo) Hpo).
    destruct (decide ((k, cls) ∈ writes)) as [Hin|Hnin].
    + rewrite decide_True by (by apply Hw). by rewrite list_lookup_fmap, Hsyk.
    + rewrite decide_False by (by rewrite <-Hw). by apply at2_zeros2.
Qed.

End PriorProperties.

Section PriorClaims.
Context {R F : Type} `{Scalar R} `{Torch R}.
Implicit Types (self : GraphHead R F) (st : LoopState R).

(** The priors of an image that is not skipped, as the loop body appends
    them. *)
Lemma forward_image_prior_scores self features image_shapes box_features targets b_idx
    coords labels scores st st' :
  skip_image self coords labels = false →
  forward_image self features image_shapes box_features targets b_idx
    coords labels scores st = Ok st' →
  ∃ prior_h prior_o,
    all_prior (outputs st') = all_prior (outputs st) ++ [(prior_h, prior_o)] ∧
    ∀ k i j,
      keep_pairs (count_humans self labels) (length coords) !! k = Some (i, j) →
      ∃ s_i s_j c tar,
        scores !! i = Some s_i ∧ scores !! j = Some s_j ∧
        labels !! j = Some c ∧
        object_class_to_target_class self !! c = Some tar ∧
        ∀ cls, cls < num_cls self →
          (cls ∈ tar →
             at2 prior_h k cls = Ok (pow2 s_i) ∧ at2 prior_o k cls = Ok (pow2 s_j)) ∧
          (cls ∉ tar →
             at2 prior_h k cls = Ok s_zero ∧ at2 prior_o k cls = Ok s_zero).
Proof.
  intros Hs Hfwd.
  destruct (forward_image_processed _ _ _ _ _ _ _ _ _ _ _ Hs Hfwd)
    as (feats & bh & bo & oc & [prior_h prior_o] & nl & _ & _ & _ & Hprior & _ & ->).
  exists prior_h, prior_o. split; [done |].
  intros k i j Hk.
  destruct (compute_prior_scores_at _ _ _ _ _ _ _ Hprior k i j)
    as (s_i & s_j & c & tar & Hsi & Hsj & Hc & Htar & Hcls).
  { by rewrite list_lookup_fmap, Hk. }
  { by rewrite list_lookup_fmap, Hk. }
  exists s_i, s_j, c, tar. split_and!; try done.
  intros cls Hlt. destruct (Hcls cls Hlt) as [Hh Ho].
  split; intros Hin; [rewrite decide_True in Hh, Ho by done
                     | rewrite decide_False in Hh, Ho by done]; done.
Qed.

(** C4. Let image [i] of a batch not be skipped.  In every output of
    [GraphHead.forward], the human prior and the object prior of image [i]
    are such that, for the k-th pair (x, y) of the image (human x, object y,
    whose class c maps to the interaction classes tar) and every interaction
    class: when the class is in tar, the human prior is the square of the
    score of detection x and the object prior is the square of the score of
    detection y; when it is not, both priors are zero. *)
Theorem forward_prior_scores self features image_shapes box_features
    box_coords box_labels box_scores targets out i coords labels scores :
  GraphHead_forward self features image_shapes box_features
    box_coords box_labels box_scores targets = Ok out →
  box_coords !! i = Some coords →
  box_labels !! i = Some labels →
  box_scores !! i = Some scores →
  skip_image self coords labels = false →
  ∃ prior_h prior_o,
    all_prior out !! i = Some (prior_h, prior_o) ∧
    ∀ k x y,
      keep_pairs (count_humans self labels) (length coords) !! k = Some (x, y) →
      ∃ s_x s_y c tar,
        scores !! x = Some s_x ∧ scores !! y = Some s_y ∧
        labels !! y = Some c ∧
        object_class_to_target_class self !! c = Some tar ∧
        ∀ cls, cls < num_cls self →
          (cls ∈ tar →
             at2 prior_h k cls = Ok (pow2 s_x) ∧ at2 prior_o k cls = Ok (pow2 s_y)) ∧
          (cls ∉ tar →
             at2 prior_h k cls = Ok s_zero ∧ at2 prior_o k cls = Ok s_zero).
Proof.
  intros Hout Hc Hl Hs Hskip.
  destruct (GraphHead_forward_nth _ _ _ _ _ _ _ _ _ _ _ _ _ Hout Hc Hl Hs)
    as (sti & sti' & f & bh & bo & oc & p & Hfwd & _ & _ & _ & _ & Ep
        & _ & _ & _ & _ & Hp).
  destruct (forward_image_prior_scores _ _ _ _ _ _ _ _ _ _ _ Hskip Hfwd)
    as (prior_h & prior_o & Ep' & Hat).
  rewrite Ep in Ep'. apply app_inj_tail in Ep' as [_ ->].
  by exists prior_h, prior_o.
Qed.

End PriorClaims.

Section PriorExamples.
Import Float64 Examples.
Local Open Scope float_scope.

Lemma forward_prior_scores_witness :
  skip_image graph_head human_and_object.1.1 human_and_object.1.2 = false ∧
  ∃ out prior_h prior_o,
    GraphHead_forward graph_head () [] three_rows
      [one_object.1.1; human_and_object.1.1]
      [one_object.1.2; human_and_object.1.2]
      [one_object.2; human_and_object.2] None = Ok out ∧
    all_prior out !! 1%nat = Some (prior_h, prior_o) ∧
    at2 prior_h 0 1 = Ok 0.25 ∧ at2 prior_o 0 1 = Ok 0.0625 ∧
    at2 prior_h 0 0 = Ok 0 ∧ at2 prior_o 0 2 = Ok 0.
Proof.
  split; [reflexivity |].
  eassert (GraphHead_forward graph_head () [] three_rows
             [one_object.1.1; human_and_object.1.1]
             [one_object.1.2; human_and_object.1.2]
             [one_object.2; human_and_object.2] None = Ok _) as Hout
    by (vm_compute; reflexivity).
  destruct (forward_prior_scores _ _ _ _ _ _ _ _ _ 1%nat _ _ _ Hout
              eq_refl eq_refl eq_refl eq_refl)
    as (prior_h & prior_o & Hp & Hat).
  eexists _, prior_h, prior_o. split; [exact Hout |]. split; [exact Hp |].
  destruct (Hat 0%nat 0%nat 1%nat eq_refl)
    as (s_x & s_y & c & tar & Hsx & Hsy & Hc & Htar & Hcls).
  injection Hsx as <-. injection Hsy as <-. injection Hc as <-. injection Htar as <-.
  destruct (Hcls 0%nat ltac:(vm_compute; lia)) as [_ H0].
  destruct (Hcls 1%nat ltac:(vm_compute; lia)) as [H1 _].
  destruct (Hcls 2%nat ltac:(vm_compute; lia)) as [_ H2].
  destruct H1 as [H1h H1o]; [by left |].
  destruct H0 as [H0h _]; [by intros [= ]%list_elem_of_singleton |].
  destruct H2 as [_ H2o]; [by intros [= ]%list_elem_of_singleton |].
  split_and!; [exact H1h | exact H1o | exact H0h | exact H2o].
Defined.

End PriorExamples.

(** ** Postprocessing *)

Section PostprocessProperties.
Context {R : Type} `{Scalar R} `{Torch R}.
Implicit Types (t w s l : tensor2 R) (r : Result R).

Lemma index2_lookup t xy vs k x y :
  index2 t xy = Ok vs → xy !! k = Some (x, y) → ∃ v, vs !! k = Some v ∧ at2 t x y = Ok v.
Proof.
  unfold index2. rewrite mapM_Ok. intros Hvs Hk.
  destruct (Forall2_lookup_l _ _ _ _ _ Hvs Hk) as (v & ? & ?). eauto.
Qed.

Lemma index2_length t xy vs : index2 t xy = Ok vs → length vs = length xy.
Proof. unfold index2. rewrite mapM_Ok. intros Hvs. symmetry. by eapply Forall2_length. Qed.

(** A row of the [b]-th chunk is the row of the whole tensor at the offset
    of the chunk. *)
Lemma chunks_lookup {A} (sizes : list nat) (rows : list A) b chunk x a :
  chunks sizes rows !! b = Some chunk →
  chunk !! x = Some a →
  rows !! (sum_list (take b sizes) + x) = Some a.
Proof.
  revert rows b. induction sizes as [|n sizes IH]; intros rows b; [done |].
  destruct b as [|b]; simpl.
  - intros [= <-]. by intros [? _]%lookup_take_Some.
  - intros Hb Hx. specialize (IH _ _ Hb Hx). rewrite lookup_drop in IH.
    by rewrite <-Nat.add_assoc.
Qed.

Lemma length_chunks {A} (sizes : list nat) (rows : list A) :
  length (chunks sizes rows) = length sizes.
Proof.
  revert rows. induction sizes as [|n sizes IH]; intros rows; simpl; [done |].
  by rewrite IH.
Qed.

Lemma length_split t sizes ts : split t sizes = Ok ts → length ts = length sizes.
Proof.
  unfold split. destruct (_ =? _); [|done]. intros [= <-].
  by rewrite length_fmap, length_chunks.
Qed.

Lemma split_lookup t sizes ts b chunk x y v :
  split t sizes = Ok ts →
  ts !! b = Some chunk →
  at2 chunk x y = Ok v →
  at2 t (sum_list (take b sizes) + x) y = Ok v.
Proof.
  unfold split. destruct (_ =? _); [|done]. intros [= <-].
  rewrite list_lookup_fmap. destruct (chunks _ _ !! b) as [rows|] eqn:Hb; [|done].
  intros [= <-]. rewrite !at2_Ok. simpl. intros (row & Hrow & Hv).
  exists row. split; [|done]. by eapply chunks_lookup.
Qed.

Lemma at2_sigmoid2 t i j v :
  at2 (sigmoid2 t) i j = Ok v → ∃ a, at2 t i j = Ok a ∧ v = s_sigmoid a.
Proof.
  rewrite at2_Ok. unfold sigmoid2. simpl. intros (row & Hrow & Hv).
  rewrite list_lookup_fmap in Hrow. destruct (t_rows t !! i) as [row0|] eqn:Hi; [|done].
  injection Hrow as <-. rewrite list_lookup_fmap in Hv.
  destruct (row0 !! j) as [a|] eqn:Hj; [|done]. injection Hv as <-.
  exists a. split; [|done]. apply at2_Ok. eauto.
Qed.

(** What the loop body of [postprocess] returns for one image. *)
Lemma postprocess_image_Ok w s (p : tensor2 R * tensor2 R) b_h b_o o lab r :
  postprocess_image w s p b_h b_o o lab = Ok r →
  let xy := nonzero2 s_nonzero (t_rows p.1) in
  r_index r = xy.*1 ∧ r_prediction r = xy.*2 ∧
  length (r_scores r) = length xy ∧
  ∀ k x y, xy !! k = Some (x, y) →
    ∃ sv ph po c wv,
      at2 s x y = Ok sv ∧ at2 p.1 x y = Ok ph ∧ at2 p.2 x y = Ok po ∧
      o !! x = Some c ∧ at2 w x c = Ok wv ∧
      r_scores r !! k = Some (s_mul (s_mul sv (s_mul ph po)) wv).
Proof.
  unfold postprocess_image. cbv zeta. set (xy := nonzero2 _ _).
  intros (sxy & Hs & Hrest)%bind_Ok.
  apply bind_Ok in Hrest as (ph & Hph & Hrest).
  apply bind_Ok in Hrest as (po & Hpo & Hrest).
  apply bind_Ok in Hrest as (ox & Hox & Hrest).
  apply bind_Ok in Hrest as (wxo & Hw & Hrest).
  apply bind_Ok in Hrest as (ar & _ & Hrest).
  apply bind_Ok in Hrest as (weights & _ & Hrest).
  set (sc := zip_with s_mul (zip_with s_mul sxy (zip_with s_mul ph po)) (detach wxo)) in Hrest.
  assert (r_index r = xy.*1 ∧ r_prediction r = xy.*2 ∧ r_scores r = sc) as (Hi & Hp & Hsc).
  { destruct lab as [l|].
    - apply bind_Ok in Hrest as (lxy & _ & [= <-]). done.
    - by injection Hrest as <-. }
  pose proof (index2_length _ _ _ Hs) as Ls.
  pose proof (index2_length _ _ _ Hph) as Lph.
  pose proof (index2_length _ _ _ Hpo) as Lpo.
  pose proof (gather_length _ _ _ Hox) as Lox.
  pose proof (index2_length _ _ _ Hw) as Lw.
  rewrite length_zip_with, length_fmap in Lw. rewrite length_fmap in Lox.
  split_and!; [done | done | |].
  - rewrite Hsc. unfold sc, detach. rewrite !length_zip_with. lia.
  - intros k x y Hk.
    destruct (index2_lookup _ _ _ _ _ _ Hs Hk) as (sv & Hsv & Hsat).
    destruct (index2_lookup _ _ _ _ _ _ Hph Hk) as (phv & Hphv & Hphat).
    destruct (index2_lookup _ _ _ _ _ _ Hpo Hk) as (pov & Hpov & Hpoat).
    assert (xy.*1 !! k = Some x) as Hxk by (by rewrite list_lookup_fmap, Hk).
    destruct (gather_lookup _ _ _ _ _ Hox Hxk) as (c & Hc & Hoc).
    assert (zip xy.*1 ox !! k = Some (x, c)) as Hzk.
    { apply lookup_zip_with_Some. eauto. }
    destruct (index2_lookup _ _ _ _ _ _ Hw Hzk) as (wv & Hwv & Hwat).
    exists sv, phv, pov, c, wv. split_and!; try done.
    rewrite Hsc. unfold sc, detach. apply lookup_zip_with_Some.
    exists (s_mul sv (s_mul phv pov)), wv. split_and!; [done | | done].
    apply lookup_zip_with_Some. exists sv, (s_mul phv pov). split_and!; [done | done |].
    apply lookup_zip_with_Some. eauto.
Qed.

End PostprocessProperties.

Section PostprocessClaims.
Context {R : Type} `{Scalar R} `{Torch R}.

(** C1. In every result that [postprocess] returns for an image, the
    retained entries (index, prediction) are exactly the (pair, class)
    positions where the human prior of the image is non-zero, and the score
    of a retained entry is sigmoid(predictor logit) times the product of the
    human and object priors of that pair and class, times the sigmoid of the
    suppressor logit of the pair at the pair's object class.  The logits of
    the image start at the row offset given by the boxes of the images before
    it.  Hence a score exists only where the human prior is non-zero.  There
    is one result per image, up to the shortest of the lists that are given
    per image. *)
Theorem postprocess_scores (logits_p logits_s : tensor2 R)
    (prior : list (tensor2 R * tensor2 R)) (boxes_h boxes_o : list (list (box R)))
    (object_class : list (list nat)) (labels : list (tensor2 R))
    (results : list (Result R)) :
  postprocess logits_p logits_s prior boxes_h boxes_o object_class labels = Ok results →
  length results
  = Nat.min (Nat.min (Nat.min (Nat.min (length boxes_h) (length prior)) (length boxes_o))
               (length object_class))
      (length (default_labels labels (length <$> boxes_h))) ∧
  ∀ b r, results !! b = Some r →
    ∃ p o,
      prior !! b = Some p ∧ object_class !! b = Some o ∧
      (∀ x y, (x, y) ∈ zip (r_index r) (r_prediction r) ↔
                ∃ v, at2 p.1 x y = Ok v ∧ s_nonzero v = true) ∧
      length (r_prediction r) = length (r_index r) ∧
      length (r_scores r) = length (r_index r) ∧
      ∀ k x y, r_index r !! k = Some x → r_prediction r !! k = Some y →
        let off := sum_list (take b (length <$> boxes_h)) in
        ∃ lp ph po c ls,
          at2 logits_p (off + x) y = Ok lp ∧
          at2 p.1 x y = Ok ph ∧ s_nonzero ph = true ∧
          at2 p.2 x y = Ok po ∧
          o !! x = Some c ∧
          at2 logits_s (off + x) c = Ok ls ∧
          r_scores r !! k
          = Some (s_mul (s_mul (s_sigmoid lp) (s_mul ph po)) (s_sigmoid ls)).
Proof.
  unfold postprocess. cbv zeta.
  intros (ws & Hws & Hrest)%bind_Ok.
  apply bind_Ok in Hrest as (ss & Hss & Hres). apply mapM_Ok in Hres.
  split.
  { rewrite <-(Forall2_length _ _ _ Hres), !length_zip_with.
    rewrite (length_split _ _ _ Hws), (length_split _ _ _ Hss), length_fmap. lia. }
  intros b r Hr.
  destruct (Forall2_lookup_r _ _ _ _ _ Hres Hr) as ([[[[[[w s] p] bh] bo] o] l] & Hz & Himg).
  apply lookup_zip_with_Some in Hz as (z5 & ? & [= <- <-] & Hz & _).
  apply lookup_zip_with_Some in Hz as (z4 & ? & [= <- <-] & Hz & Ho).
  apply lookup_zip_with_Some in Hz as (z3 & ? & [= <- <-] & Hz & _).
  apply lookup_zip_with_Some in Hz as (z2 & ? & [= <- <-] & Hz & _).
  apply lookup_zip_with_Some in Hz as (z1 & ? & [= <- <-] & Hz & Hp).
  apply lookup_zip_with_Some in Hz as (? & ? & [= <- <-] & Hw & Hs).
  destruct (postprocess_image_Ok _ _ _ _ _ _ _ _ Himg) as (Hi & Hpr & Hlen & Hsc).
  set (xy := nonzero2 s_nonzero (t_rows p.1)) in *.
  exists p, o. split_and!; [done | done | | | |].
  - intros x y. rewrite Hi, Hpr, zip_fst_snd. unfold xy. rewrite elem_of_nonzero2.
    split.
    + intros (row & a & ? & ? & ?). exists a. split; [|done]. apply at2_Ok. eauto.
    + intros (a & (row & ? & ?)%at2_Ok & ?). eauto.
  - by rewrite Hi, Hpr, !length_fmap.
  - by rewrite Hlen, Hi, length_fmap.
  - intros k x y Hx Hy.
    assert (xy !! k = Some (x, y)) as Hk.
    { rewrite Hi, list_lookup_fmap in Hx. rewrite Hpr, list_lookup_fmap in Hy.
      destruct (xy !! k) as [[x' y']|]; [|done]. simpl in *. congruence. }
    destruct (Hsc k x y Hk) as (sv & ph & po & c & wv & Hsv & Hph & Hpo & Hc & Hwv & Hscore).
    destruct (at2_sigmoid2 _ _ _ _ (split_lookup _ _ _ _ _ _ _ _ Hss Hs Hsv))
      as (lp & Hlp & ->).
    destruct (at2_sigmoid2 _ _ _ _ (split_lookup _ _ _ _ _ _ _ _ Hws Hw Hwv))
      as (ls & Hls & ->).
    exists lp, ph, po, c, ls. split_and!; try done.
    assert ((x, y) ∈ xy) as Hin by (apply list_elem_of_lookup; eauto).
    apply elem_of_nonzero2 in Hin as (row & a & Hrow & Ha & Hnz).
    apply at2_Ok in Hph as (row' & Hrow' & Ha'). congruence.
Qed.

End PostprocessClaims.

Section PostprocessExamples.
Import Float64 Examples.
Local Open Scope float_scope.

Lemma postprocess_scores_witness :
  ∃ results r,
    postprocess (T2 3 [[0; 1; -1]]) (T2 2 [[0; 3]])
      [(T2 3 [[0; 0.25; 0]], T2 3 [[0; 0.0625; 0]])]
      [[(0, 0, 1, 1)]] [[(0, 0, 2, 2)]] [[1%nat]] [] = Ok results ∧
    results = [r] ∧
    r_index r = [0%nat] ∧ r_prediction r = [1%nat] ∧
    r_scores r = [algebraic_sigmoid 1 * (0.25 * 0.0625) * algebraic_sigmoid 3] ∧
    ∀ x y, (x, y) ∈ zip (r_index r) (r_prediction r) ↔
           ∃ v, at2 (T2 3 [[0; 0.25; 0]]) x y = Ok v ∧ s_nonzero v = true.
Proof.
  eexists _, _. split; [vm_compute; reflexivity |]. split; [reflexivity |].
  split; [reflexivity |]. split; [reflexivity |]. split; [vm_compute; reflexivity |].
  eassert (postprocess (T2 3 [[0; 1; -1]]) (T2 2 [[0; 3]])
             [(T2 3 [[0; 0.25; 0]], T2 3 [[0; 0.0625; 0]])]
             [[(0, 0, 1, 1)]] [[(0, 0, 2, 2)]] [[1%nat]] [] = Ok _) as Hpost
    by (vm_compute; reflexivity).
  destruct (postprocess_scores _ _ _ _ _ _ _ _ Hpost) as [_ Hres].
  destruct (Hres 0%nat _ eq_refl) as (p & o & Hp & _ & Hiff & _).
  injection Hp as <-. exact Hiff.
Defined.

End PostprocessExamples.

(** ** Loss normalisation *)

Section LossProperties.
Context {R : Type} `{Scalar R} `{Torch R}.

Lemma length_nonzero1_from {A} (P : A → bool) i j (l : list A) :
  length (nonzero1_from P i l) = length (nonzero1_from P j l).
Proof.
  revert i j. induction l as [|a l IH]; intros i j; simpl; [done |].
  rewrite !length_app. rewrite (IH (S i) (S j)). by destruct (P a).
Qed.

Lemma count_nonzero_app (l1 l2 : list R) :
  count_nonzero (l1 ++ l2) = count_nonzero l1 + count_nonzero l2.
Proof.
  unfold count_nonzero, nonzero1. generalize 0.
  induction l1 as [|a l1 IH]; intros i; simpl.
  - done.
  - rewrite !length_app, IH, (length_nonzero1_from _ i (S i) l2). lia.
Qed.

Lemma count_nonzero_concat (ls : list (list R)) :
  count_nonzero (concat ls) = sum_list_with count_nonzero ls.
Proof.
  induction ls as [|l ls IH]; simpl; [done |]. by rewrite count_nonzero_app, IH.
Qed.

Lemma sum_list_delete (ps : list nat) i p :
  ps !! i = Some p → p + sum_list (delete i ps) = sum_list ps.
Proof.
  revert i. induction ps as [|q ps IH]; intros [|i]; simpl; try done.
  - by intros [= ->].
  - intros Hp. specialize (IH _ Hp). lia.
Qed.

(** Collecting a key of every result succeeds when every result has it. *)
Lemma mapM_getitem {A B} (key : Result R → option (list B)) (val : Result R → A) results :
  Forall (λ r, is_Some (key r)) results →
  mapM (λ r, l ← getitem (key r); Ok (val r, l)) results
  = Ok ((λ r, (val r, default [] (key r))) <$> results).
Proof.
  induction 1 as [|r results [l Hl] _ IH]; [done |].
  simpl. rewrite Hl. simpl. by rewrite IH.
Qed.

Lemma cat_nonempty {A} (ts : list (list A)) : ts ≠ [] → cat ts = Ok (concat ts).
Proof. by destruct ts. Qed.

Lemma normaliser_collective self (batches : list (list (Result R)))
    (count : list (Result R) → nat) i results labels :
  batches !! i = Some results →
  count_nonzero labels = count results →
  normaliser self (collective (count <$> batches) i) labels
  = if distributed self
    then s_div (s_of_nat (sum_list (count <$> batches))) (s_of_nat (length batches))
    else s_of_nat (count results).
Proof.
  intros Hi Hcount. unfold normaliser. rewrite Hcount.
  destruct (distributed self); [|done]. simpl.
  rewrite length_fmap, sum_list_delete; [done |]. by rewrite list_lookup_fmap, Hi.
Qed.

Lemma count_nonzero_labels (key : Result R → option (list R)) results :
  count_nonzero (concat ((λ r, default [] (key r)) <$> results))
  = sum_list_with (λ r, count_nonzero (default [] (key r))) results.
Proof.
  rewrite count_nonzero_concat.
  induction results as [|r results IH]; simpl; [done |]. f_equal. exact IH.
Qed.

(** The two losses, for results that have labels: no exception, and the
    quotient of the focal loss by the normaliser. *)
Lemma classification_loss_value self env results :
  results ≠ [] →
  Forall (λ r, is_Some (r_labels r)) results →
  compute_interaction_classification_loss self env results
  = Ok (s_div
          (binary_focal_loss (concat (r_scores <$> results))
             (concat ((λ r, default [] (r_labels r)) <$> results)) (gamma self))
          (normaliser self env (concat ((λ r, default [] (r_labels r)) <$> results)))).
Proof.
  intros Hne Hl. unfold compute_interaction_classification_loss.
  rewrite (mapM_getitem r_labels r_scores) by done. simpl.
  rewrite <-!list_fmap_compose. unfold compose. simpl.
  by rewrite !cat_nonempty by (by destruct results).
Qed.

Lemma interactiveness_loss_value self env results :
  results ≠ [] →
  Forall (λ r, is_Some (r_binary_labels r)) results →
  compute_interactiveness_loss self env results
  = Ok (s_div
          (binary_focal_loss (concat (r_weights <$> results))
             (concat ((λ r, default [] (r_binary_labels r)) <$> results)) s_half)
          (normaliser self env (concat ((λ r, default [] (r_binary_labels r)) <$> results)))).
Proof.
  intros Hne Hl. unfold compute_interactiveness_loss.
  rewrite (mapM_getitem r_binary_labels r_weights) by done. simpl.
  rewrite <-!list_fmap_compose. unfold compose. simpl.
  by rewrite !cat_nonempty by (by destruct results).
Qed.

End LossProperties.

Section LossClaims.
Context {R : Type} `{Scalar R} `{Torch R}.

(** C6. Worker [i] of a group of workers holds the results [results], with
    labels and at least one result.  Not distributed, each of its two losses
    is the sum-reduced focal loss divided by the number of positive labels of
    [results].  Distributed, with the positive counts of all workers summed
    by the collective, each loss is the sum-reduced focal loss of the worker
    divided by (the sum of the positive counts of all workers) / (the number
    of workers). *)
Theorem loss_normalisation (self : InteractionHead R)
    (batches : list (list (Result R))) (i : nat) (results : list (Result R)) :
  batches !! i = Some results →
  results ≠ [] →
  Forall (λ r, is_Some (r_labels r)) results →
  Forall (λ r, is_Some (r_binary_labels r)) results →
  compute_interaction_classification_loss self
    (collective (batch_positives <$> batches) i) results
  = Ok (s_div
          (binary_focal_loss (concat (r_scores <$> results))
             (concat ((λ r, default [] (r_labels r)) <$> results)) (gamma self))
          (if distributed self
           then s_div (s_of_nat (sum_list (batch_positives <$> batches)))
                      (s_of_nat (length batches))
           else s_of_nat (batch_positives results))) ∧
  compute_interactiveness_loss self
    (collective (batch_binary_positives <$> batches) i) results
  = Ok (s_div
          (binary_focal_loss (concat (r_weights <$> results))
             (concat ((λ r, default [] (r_binary_labels r)) <$> results)) s_half)
          (if distributed self
           then s_div (s_of_nat (sum_list (batch_binary_positives <$> batches)))
                      (s_of_nat (length batches))
           else s_of_nat (batch_binary_positives results))).
Proof.
  intros Hi Hne Hl Hb. split.
  - rewrite classification_loss_value by done.
    by rewrite (normaliser_collective self batches batch_positives i results)
      by (done || apply count_nonzero_labels).
  - rewrite interactiveness_loss_value by done.
    by rewrite (normaliser_collective self batches batch_binary_positives i results)
      by (done || apply count_nonzero_labels).
Qed.

(** C7 (amended). For results with labels whose number of positive labels is
    zero, the interaction-classification loss does not raise, in either
    mode, and nothing tests the count.  Not distributed, it returns the
    sum-reduced focal loss divided by zero.  Distributed, it returns the
    focal loss divided by the quotient of the collective sum (to which the
    worker contributes zero) by the number of workers, which is again a
    division by zero when no worker holds a positive label.  The same holds
    for the interactiveness loss when no binary label is positive. *)
Theorem zero_positives_divide_by_zero (self : InteractionHead R) (env : DistEnv)
    (results : list (Result R)) :
  results ≠ [] →
  Forall (λ r, is_Some (r_labels r)) results →
  Forall (λ r, is_Some (r_binary_labels r)) results →
  (batch_positives results = 0 →
   compute_interaction_classification_loss self env results
   = Ok (s_div
           (binary_focal_loss (concat (r_scores <$> results))
              (concat ((λ r, default [] (r_labels r)) <$> results)) (gamma self))
           (if distributed self
            then s_div (s_of_nat (all_reduce env 0)) (s_of_nat (get_world_size env))
            else s_of_nat 0))) ∧
  (batch_binary_positives results = 0 →
   compute_interactiveness_loss self env results
   = Ok (s_div
           (binary_focal_loss (concat (r_weights <$> results))
              (concat ((λ r, default [] (r_binary_labels r)) <$> results)) s_half)
           (if distributed self
            then s_div (s_of_nat (all_reduce env 0)) (s_of_nat (get_world_size env))
            else s_of_nat 0))) ∧
  (∀ (counts : list nat) (i : nat),
     env = collective counts i → counts !! i = Some 0 → sum_list counts = 0 →
     all_reduce env 0 = 0).
Proof.
  intros Hne Hl Hb.
  split_and!.
  - intros Hz. rewrite classification_loss_value by done. unfold normaliser.
    by rewrite count_nonzero_labels, <-Hz.
  - intros Hz. rewrite interactiveness_loss_value by done. unfold normaliser.
    by rewrite count_nonzero_labels, <-Hz.
  - intros counts i -> Hi Hsum. simpl.
    pose proof (sum_list_delete counts i 0 Hi) as Hd. lia.
Qed.

End LossClaims.

Section LossExamples.
Import Float64 Examples.
Local Open Scope float_scope.

(** Two workers with one and three positive labels: both divide by 4 / 2. *)
Lemma loss_normalisation_witness :
  compute_interaction_classification_loss distributed_head (collective [1; 3]%nat 0)
    [result_with_positive] = Ok (0.75 / (4 / 2)) ∧
  compute_interaction_classification_loss distributed_head (collective [1; 3]%nat 1)
    [result_with_positive; result_with_positive; result_with_positive]
  = Ok (2.25 / (4 / 2)).
Proof.
  split.
  - destruct (loss_normalisation distributed_head
                [[result_with_positive];
                 [result_with_positive; result_with_positive; result_with_positive]]
                0 [result_with_positive] eq_refl
                ltac:(discriminate)
                ltac:(repeat constructor; by eexists)
                ltac:(repeat constructor; by eexists)) as [Hhoi _].
    exact Hhoi.
  - destruct (loss_normalisation distributed_head
                [[result_with_positive];
                 [result_with_positive; result_with_positive; result_with_positive]]
                1 [result_with_positive; result_with_positive; result_with_positive] eq_refl
                ltac:(discriminate)
                ltac:(repeat constructor; by eexists)
                ltac:(repeat constructor; by eexists)) as [Hhoi _].
    exact Hhoi.
Defined.

Lemma zero_positives_divide_by_zero_witness :
  batch_positives [result_without_positive] = 0%nat ∧
  compute_interaction_classification_loss interaction_head (mkDistEnv 1 id)
    [result_without_positive] = Ok (0.75 / 0) ∧
  compute_interaction_classification_loss distributed_head (collective [0; 0]%nat 0)
    [result_without_positive] = Ok (0.75 / (0 / 2)).
Proof.
  split; [reflexivity |]. split.
  - destruct (zero_positives_divide_by_zero interaction_head (mkDistEnv 1 id)
                [result_without_positive]
                ltac:(discriminate)
                ltac:(repeat constructor; by eexists)
                ltac:(repeat constructor; by eexists)) as (Hhoi & _ & _).
    exact (Hhoi eq_refl).
  - destruct (zero_positives_divide_by_zero distributed_head (collective [0; 0]%nat 0)
                [result_without_positive]
                ltac:(discriminate)
                ltac:(repeat constructor; by eexists)
                ltac:(repeat constructor; by eexists)) as (Hhoi & _ & _).
    exact (Hhoi eq_refl).
Defined.

(** C7 (counterexample). Results whose labels are all zero: both losses
    return infinity, and no exception is raised. *)
Lemma zero_positives_returns_infinity :
  batch_positives [result_without_positive] = 0%nat ∧
  compute_interaction_classification_loss interaction_head (mkDistEnv 1 id)
    [result_without_positive] = Ok infinity ∧
  compute_interactiveness_loss interaction_head (mkDistEnv 1 id)
    [result_without_positive] = Ok infinity ∧
  is_ok (compute_interaction_classification_loss interaction_head (mkDistEnv 1 id)
           [result_without_positive]) = true.
Proof. split_and!; vm_compute; reflexivity. Qed.

End LossExamples.

(** ** Fusion units *)

Section FusionProperties.
Context {R : Type} `{Scalar R}.
Implicit Types (self : AttentionHead R) (fc : Linear R * Linear R * Linear R).

Lemma cell_at_zip_with {A B C} (f : A → B → C) g1 g2 i j a b :
  cell_at g1 i j = Some a → cell_at g2 i j = Some b →
  cell_at (zip_with (zip_with f) g1 g2) i j = Some (f a b).
Proof.
  unfold cell_at. intros H1 H2.
  destruct (g1 !! i) as [r1|] eqn:E1; [|done].
  destruct (g2 !! i) as [r2|] eqn:E2; [|done]. simpl in *.
  rewrite lookup_zip_with, E1, E2. simpl. by rewrite lookup_zip_with, H1, H2.
Qed.

Lemma cell_at_fmap {A B} (f : A → B) (g : list (list A)) i j a :
  cell_at g i j = Some a →
  cell_at ((λ row : list A, f <$> row) <$> g) i j = Some (f a).
Proof.
  unfold cell_at. intros Ha. destruct (g !! i) as [r|] eqn:E; [|done]. simpl in *.
  rewrite list_lookup_fmap, E. simpl. by rewrite list_lookup_fmap, Ha.
Qed.

Lemma cell_at_replicate {A} n (rows : list A) i j a :
  i < n → rows !! j = Some a → cell_at (replicate n rows) i j = Some a.
Proof. intros Hi Ha. unfold cell_at. by rewrite lookup_replicate_2. Qed.

Lemma cell_at_permute {A} n (cells : list (list (list A))) i j a :
  j < n → cell_at cells i j = Some a → cell_at (permute n cells) j i = Some a.
Proof.
  unfold cell_at, permute. intros Hj Ha.
  destruct (cells !! i) as [row|] eqn:E; [|done]. simpl in *.
  rewrite list_lookup_fmap, lookup_seq_lt by done. simpl.
  rewrite list_lookup_fmap, E. simpl. by rewrite Ha.
Qed.

(** A cell of the sum of a stack of grids is the sum of the cells. *)
Lemma cell_at_sum {A} (cell : A → list R) (grid : A → list (list (list R))) i j
    (cs : list A) g0 v0 :
  (∀ c, c ∈ cs → cell_at (grid c) i j = Some (cell c)) →
  cell_at g0 i j = Some v0 →
  cell_at (fold_left add_grid (grid <$> cs) g0) i j
  = Some (fold_left vadd (cell <$> cs) v0).
Proof.
  revert g0 v0. induction cs as [|c cs IH]; intros g0 v0 Hcs H0; [done |].
  simpl. apply IH.
  - intros c' Hc'. apply Hcs. by right.
  - apply cell_at_zip_with; [done |]. apply Hcs. by left.
Qed.

(** The pairwise unit on one appearance vector and one spatial vector. *)
Lemma AttentionHead_forward_single self (a s : list R) c cs :
  branches self = c :: cs →
  AttentionHead_forward self [a] [s]
  = Ok [vrelu (fold_left vadd ((λ fc, branch_cell fc a s) <$> cs) (branch_cell c a s))].
Proof.
  intros Hb. unfold AttentionHead_forward. rewrite Hb.
  assert (∀ l : list (Linear R * Linear R * Linear R),
    mapM (λ fc : Linear R * Linear R * Linear R,
            let '(fc_1, fc_2, fc_3) := fc in
            p ← mul_rows (linear_rows fc_1 [a]) (linear_rows fc_2 [s]);
            Ok (linear_rows fc_3 (relu_rows p))) l
    = Ok ((λ fc, [branch_cell fc a s]) <$> l)) as Hmap.
  { induction l as [|[[f1 f2] f3] l IH]; [done |].
    cbn [mapM]. rewrite IH. done. }
  rewrite Hmap. simpl.
  assert (∀ (l : list (Linear R * Linear R * Linear R)) v,
    fold_left (zip_with vadd) ((λ fc, [branch_cell fc a s]) <$> l) [v]
    = [fold_left vadd ((λ fc, branch_cell fc a s) <$> l) v]) as Hsum.
  { induction l as [|fc l IH]; intros v; [done |]. simpl. apply IH. }
  by rewrite Hsum.
Qed.

Lemma sum_stack_fmap {A B} (add : B → B → B) (f : A → B) (l : list A) out :
  sum_stack add (f <$> l) = Ok out →
  ∃ c cs, l = c :: cs ∧ out = fold_left add (f <$> cs) (f c).
Proof. destruct l as [|c cs]; [done |]. intros [= <-]. eauto. Qed.

End FusionProperties.

Section FusionClaims.
Context {R : Type} `{Scalar R}.

(** C8 (amended). With the same weights, the value that the broadcast unit
    computes at a grid position, rectified, is the value of the pairwise unit
    on the appearance vector and the spatial vector of that position: the
    broadcast unit is the pairwise unit without its final rectification.
    The variant for human nodes pairs appearance i with the spatial vector
    (i, j) and puts the result at (j, i); the variant for object nodes pairs
    appearance j with it and puts the result at (i, j). *)
Theorem broadcast_unit_is_unrectified_pairwise_unit (self : AttentionHead R)
    (appearance : list (list R)) (spatial : tensor3 R) (out : list (list (list R)))
    (i j : nat) (a s : list R) :
  cell_at (t3_cells spatial) i j = Some s →
  j < t3_dim1 spatial →
  (MessageAttentionHead_forward_human_nodes self appearance spatial = Ok out →
   appearance !! i = Some a →
   ∃ v, cell_at out j i = Some v ∧
        AttentionHead_forward self [a] [s] = Ok [vrelu v]) ∧
  (MessageAttentionHead_forward_object_nodes self appearance spatial = Ok out →
   appearance !! j = Some a →
   ∃ v, cell_at out i j = Some v ∧
        AttentionHead_forward self [a] [s] = Ok [vrelu v]).
Proof.
  intros Hs Hj.
  assert (i < length (t3_cells spatial)) as Hi.
  { unfold cell_at in Hs. destruct (t3_cells spatial !! i) eqn:E; [|done].
    by eapply lookup_lt_Some. }
  split.
  - unfold MessageAttentionHead_forward_human_nodes. destruct (negb _); [done |].
    intros (c & cs & Hb & ->)%sum_stack_fmap Ha.
    assert (∀ fc : Linear R * Linear R * Linear R,
      cell_at (let '(fc_1, fc_2, fc_3) := fc in
               linear_grid fc_3 (relu_grid
                 (mul_grid (replicate (t3_dim1 spatial) (linear_rows fc_1 appearance))
                    (permute (t3_dim1 spatial) (linear_grid fc_2 (t3_cells spatial))))))
        j i = Some (branch_cell fc a s)) as Hcell.
    { intros [[f1 f2] f3]. unfold branch_cell. simpl.
      apply (cell_at_fmap (linear f3)), (cell_at_fmap vrelu), cell_at_zip_with.
      - apply cell_at_replicate; [done |].
        unfold linear_rows. by rewrite list_lookup_fmap, Ha.
      - apply cell_at_permute; [done |]. by apply (cell_at_fmap (linear f2)). }
    eexists. split.
    + apply (cell_at_sum (λ fc, branch_cell fc a s)); [|apply Hcell].
      intros fc _. apply Hcell.
    + by apply AttentionHead_forward_single.
  - unfold MessageAttentionHead_forward_object_nodes. destruct (negb _); [done |].
    intros (c & cs & Hb & ->)%sum_stack_fmap Ha.
    assert (∀ fc : Linear R * Linear R * Linear R,
      cell_at (let '(fc_1, fc_2, fc_3) := fc in
               linear_grid fc_3 (relu_grid
                 (mul_grid (replicate (length (t3_cells spatial))
                              (linear_rows fc_1 appearance))
                    (linear_grid fc_2 (t3_cells spatial)))))
        i j = Some (branch_cell fc a s)) as Hcell.
    { intros [[f1 f2] f3]. unfold branch_cell. simpl.
      apply (cell_at_fmap (linear f3)), (cell_at_fmap vrelu), cell_at_zip_with.
      - apply cell_at_replicate; [done |].
        unfold linear_rows. by rewrite list_lookup_fmap, Ha.
      - by apply (cell_at_fmap (linear f2)). }
    eexists. split.
    + apply (cell_at_sum (λ fc, branch_cell fc a s)); [|apply Hcell].
      intros fc _. apply Hcell.
    + by apply AttentionHead_forward_single.
Qed.

End FusionClaims.

Section FusionExamples.
Import Float64 Examples.
Local Open Scope float_scope.

Lemma broadcast_unit_is_unrectified_pairwise_unit_witness :
  cell_at (t3_cells (T3 1 [[[1]]])) 0 0 = Some [1] ∧
  ∃ v, cell_at [[[-1]]] 0 0 = Some v ∧
       AttentionHead_forward negating_head [[1]] [[1]] = Ok [vrelu v].
Proof.
  split; [reflexivity |].
  destruct (broadcast_unit_is_unrectified_pairwise_unit negating_head [[1]]
              (T3 1 [[[1]]]) [[[-1]]] 0 0 [1] [1] eq_refl ltac:(simpl; lia))
    as [Hhuman _].
  exact (Hhuman eq_refl eq_refl).
Defined.

(** C8 (counterexample). One branch, scalar features, the last layer
    changes the sign: at the only grid position both variants of the
    broadcast unit return -1, and the pairwise unit returns 0. *)
Lemma broadcast_unit_differs_from_pairwise_unit :
  (MessageAttentionHead_init negating_head "human"
     ≫= λ m, MessageAttentionHead_forward m [[1]] (T3 1 [[[1]]])) = Ok [[[-1]]] ∧
  (MessageAttentionHead_init negating_head "object"
     ≫= λ m, MessageAttentionHead_forward m [[1]] (T3 1 [[[1]]])) = Ok [[[-1]]] ∧
  AttentionHead_forward negating_head [[1]] [[1]] = Ok [[0]] ∧
  (-1 =? 0) = false.
Proof. split_and!; vm_compute; reflexivity. Qed.

End FusionExamples.

(** ** Preprocessing *)

Lemma gather_Forall {A} (P : A → Prop) (l : list A) idx r :
  Forall P l → gather l idx = Ok r → Forall P r.
Proof.
  intros Hl Hr. apply Forall_forall. intros a (k & Hk)%list_elem_of_lookup.
  apply gather_Ok in Hr.
  destruct (Forall2_lookup_r _ _ _ _ _ Hr Hk) as (i & _ & Hi).
  by eapply Forall_lookup_1.
Qed.

Lemma gather_elem_of {A} (l : list A) idx r a :
  gather l idx = Ok r → a ∈ r → ∃ i, i ∈ idx ∧ l !! i = Some a.
Proof.
  intros Hr (k & Hk)%list_elem_of_lookup. apply gather_Ok in Hr.
  destruct (Forall2_lookup_r _ _ _ _ _ Hr Hk) as (i & Hi & Ha).
  exists i. split; [|done]. apply list_elem_of_lookup. eauto.
Qed.

Lemma StronglySorted_lookup {A} (Rel : relation A) (l : list A) i j a b :
  StronglySorted Rel l → i < j → l !! i = Some a → l !! j = Some b → Rel a b.
Proof.
  intros Hl. revert i j. induction Hl as [|x l Hl IH Hx]; intros i j Hij Hi Hj; [done |].
  destruct j as [|j]; [lia |]. destruct i as [|i]; simpl in *.
  - injection Hi as ->. eapply Forall_lookup_1; done.
  - eapply IH; [| done | done]. lia.
Qed.

(** Indexing a sorted list with increasing indices gives a sorted list. *)
Lemma gather_sorted {A} (Rel : relation A) (l : list A) idx r :
  StronglySorted Rel l → StronglySorted lt idx → gather l idx = Ok r →
  StronglySorted Rel r.
Proof.
  intros Hl Hidx. revert r. induction Hidx as [|i idx Hidx IH Hi]; intros r Hr.
  - apply gather_Ok in Hr. inversion Hr. constructor.
  - apply gather_Ok in Hr. inversion Hr as [|? a ? r' Ha Hr']; subst.
    apply gather_Ok in Hr'. constructor; [by apply IH |].
    apply Forall_forall. intros b Hb.
    destruct (gather_elem_of _ _ _ _ Hr' Hb) as (j & Hj & Hlb).
    eapply (StronglySorted_lookup Rel l i j); [done | | done | done].
    eapply Forall_forall in Hi; done.
Qed.

Lemma StronglySorted_take {A} (Rel : relation A) n (l : list A) :
  StronglySorted Rel l → StronglySorted Rel (take n l).
Proof. rewrite <-(take_drop n l) at 1. apply StronglySorted_app_1_l. Qed.

(** The elements that [l[nonzero(P(l))]] selects pass the test [P]. *)
Lemma gather_nonzero1 {A} (P : A → bool) (l : list A) idx r :
  idx ⊆ nonzero1 P l → gather l idx = Ok r → Forall (λ a, P a = true) r.
Proof.
  intros Hsub Hr. apply Forall_forall. intros a Ha.
  destruct (gather_elem_of _ _ _ _ Hr Ha) as (i & Hi & Hla).
  apply Hsub, elem_of_nonzero1 in Hi as (a' & Ha' & HP). congruence.
Qed.

Section PreprocessProperties.
Context {R : Type} `{Scalar R} `{Torch R}.

(** Line 122-125: at most [m] of the selected indices are kept, from the
    front. *)
Lemma cap_properties {A} (P : A → bool) (l : list A) m :
  let idx := nonzero1 P l in
  let capped := if m <? length idx then take m idx else idx in
  length capped ≤ m ∧ capped ⊆ idx ∧ StronglySorted lt capped ∧
  Forall (λ i, i < length l) capped.
Proof.
  intros idx capped.
  assert (capped ⊆ idx) as Hsub.
  { unfold capped. destruct (m <? length idx); [|done].
    intros i (k & Hk & _)%elem_of_take. apply list_elem_of_lookup. eauto. }
  split_and!; [| done | |].
  - unfold capped. destruct (Nat.ltb_spec m (length idx)); [|done].
    rewrite length_take. lia.
  - unfold capped. destruct (m <? length idx);
      [apply StronglySorted_take |]; apply nonzero1_from_sorted.
  - apply Forall_forall. intros i Hi%Hsub.
    eapply Forall_forall in Hi; [|apply nonzero1_in_range]. done.
Qed.

End PreprocessProperties.

Section PreprocessClaims.
Context {R : Type} `{Scalar R} `{Torch R}.

(** C2. Let [d] be the detections of an image once ground truth is appended,
    with as many boxes and labels as scores; assume that, on the calls that
    [preprocess] makes for the image, non-maximum suppression answers with
    indices of the boxes it is given and [argsort] answers with indices that
    list the scores in non-increasing order.  Then the loop body of
    [preprocess] raises nothing, and its output has at most max_human +
    max_object entries: first the human-labelled ones (at most max_human),
    then the others (at most max_object), with non-increasing scores in each
    of the two groups.  A group of which no detection survives suppression is
    empty.  This output is the entry of the image in every list that
    [preprocess] returns for a batch. *)
Theorem preprocess_image_bounded_and_ordered (self : InteractionHead R)
    (append_gt : bool) (targets : option (list (Target R))) (b_idx : nat)
    (detection d : Detection R) :
  append_ground_truth self append_gt targets b_idx detection = Ok d →
  length (boxes d) = length (scores d) →
  length (labels d) = length (scores d) →
  let a1 := remove_low_scoring self d in
  (∀ b s l,
     gather (boxes d) a1 = Ok b → gather (scores d) a1 = Ok s →
     gather (labels d) a1 = Ok l →
     Forall (λ i, i < length a1) (batched_nms b s l (box_nms_thresh self))) →
  (∀ a2 s2,
     suppress self d a1 = Ok a2 → gather (scores d) a2 = Ok s2 →
     sorts_descending s2 (argsort s2)) →
  ∃ out humans objects scores_h scores_o,
    preprocess_image self append_gt targets b_idx detection = Ok out ∧
    labels out = humans ++ objects ∧
    scores out = scores_h ++ scores_o ∧
    length (boxes out) = length (labels out) ∧
    length scores_h = length humans ∧ length scores_o = length objects ∧
    length humans ≤ max_human self ∧ length objects ≤ max_object self ∧
    length (labels out) ≤ max_human self + max_object self ∧
    Forall (λ c, c = human_idx self) humans ∧
    Forall (λ c, c ≠ human_idx self) objects ∧
    StronglySorted (λ a b, s_geb a b = true) scores_h ∧
    StronglySorted (λ a b, s_geb a b = true) scores_o ∧
    (∀ a2 l2,
       suppress self d a1 = Ok a2 → gather (labels d) a2 = Ok l2 →
       (human_idx self ∉ l2 → humans = []) ∧
       (Forall (λ c, c = human_idx self) l2 → objects = [])) ∧
    (∀ detections flag results,
       detections !! b_idx = Some detection →
       default (training self) flag = append_gt →
       preprocess self detections targets flag = Ok results →
       results !! b_idx = Some out).
Proof.
  intros Hd Lb Ll a1 Hnms Hsort.
  (* threshold and suppression *)
  assert (Forall (λ i, i < length (scores d)) a1) as Ha1 by apply nonzero1_in_range.
  destruct (gather_total (boxes d) a1) as [b1 Hb1]; [by rewrite Lb |].
  destruct (gather_total (scores d) a1) as [s1 Hs1]; [done |].
  destruct (gather_total (labels d) a1) as [l1 Hl1]; [by rewrite Ll |].
  specialize (Hnms _ _ _ Hb1 Hs1 Hl1).
  destruct (gather_total a1 _ Hnms) as [a2 Ha2].
  assert (suppress self d a1 = Ok a2) as Hsup.
  { unfold suppress. rewrite Hb1, Hs1, Hl1. exact Ha2. }
  assert (Forall (λ i, i < length (scores d)) a2) as Ha2r by (by eapply gather_Forall).
  (* sorting *)
  destruct (gather_total (scores d) a2 Ha2r) as [s2 Hs2].
  destruct (Hsort _ _ Hsup Hs2) as [Hsr Hss].
  rewrite (gather_length _ _ _ Hs2) in Hsr.
  destruct (gather_total a2 _ Hsr) as [a3 Ha3].
  assert (sort_by_score d a2 = Ok a3) as Hsorted.
  { unfold sort_by_score. rewrite Hs2. exact Ha3. }
  assert (Forall (λ i, i < length (scores d)) a3) as Ha3r by (by eapply gather_Forall).
  destruct (gather_total (scores d) a3 Ha3r) as [s3 Hs3].
  assert (StronglySorted (λ a b, s_geb a b = true) s3) as Hs3s.
  { apply Hss. by rewrite (gather_gather _ _ _ _ _ Hs2 Ha3). }
  (* the two groups *)
  destruct (gather_total (labels d) a3) as [l3 Hl3]; [by rewrite Ll |].
  pose proof (gather_length _ _ _ Hl3) as Ll3.
  pose proof (gather_length _ _ _ Hs3) as Ls3.
  destruct (cap_properties (λ c, c =? human_idx self) l3 (max_human self))
    as (Hhn & Hhsub & Hhs & Hhr).
  destruct (cap_properties (λ c, negb (c =? human_idx self)) l3 (max_object self))
    as (Hon & Hosub & Hos & Hor).
  set (h_idx := if max_human self <? _ then _ else _) in *.
  set (o_idx := if max_object self <? _ then _ else _) in *.
  destruct (gather_total a3 h_idx) as [a4h Ha4h]; [by rewrite <-Ll3 |].
  destruct (gather_total a3 o_idx) as [a4o Ha4o]; [by rewrite <-Ll3 |].
  assert (keep_fixed_number self d a3 = Ok (a4h ++ a4o)) as Hkeep.
  { unfold keep_fixed_number. rewrite Hl3. simpl. fold h_idx o_idx.
    apply gather_app. eauto. }
  destruct (gather_total l3 h_idx Hhr) as [lh Hlh].
  destruct (gather_total l3 o_idx Hor) as [lo Hlo].
  destruct (gather_total s3 h_idx) as [sh Hsh]; [by rewrite Ls3, <-Ll3 |].
  destruct (gather_total s3 o_idx) as [so Hso]; [by rewrite Ls3, <-Ll3 |].
  assert (gather (labels d) (a4h ++ a4o) = Ok (lh ++ lo)) as Hlab.
  { apply gather_app. exists lh, lo.
    by rewrite <-(gather_gather _ _ _ _ _ Hl3 Ha4h), <-(gather_gather _ _ _ _ _ Hl3 Ha4o). }
  assert (gather (scores d) (a4h ++ a4o) = Ok (sh ++ so)) as Hsco.
  { apply gather_app. exists sh, so.
    by rewrite <-(gather_gather _ _ _ _ _ Hs3 Ha4h), <-(gather_gather _ _ _ _ _ Hs3 Ha4o). }
  destruct (gather_total (boxes d) (a4h ++ a4o)) as [bx Hbx].
  { rewrite Lb. by eapply gather_in_range. }
  exists (mkDetection bx (lh ++ lo) (sh ++ so)), lh, lo, sh, so.
  pose proof (gather_length _ _ _ Hlh) as Llh.
  pose proof (gather_length _ _ _ Hlo) as Llo.
  assert (Forall (λ c, c = human_idx self) lh) as Hhum.
  { eapply Forall_impl;
      [exact (gather_nonzero1 (λ c, c =? human_idx self) l3 h_idx lh Hhsub Hlh) |].
    intros c Hc. by apply Nat.eqb_eq. }
  assert (Forall (λ c, c ≠ human_idx self) lo) as Hobj.
  { eapply Forall_impl;
      [exact (gather_nonzero1 (λ c, negb (c =? human_idx self)) l3 o_idx lo Hosub Hlo) |].
    intros c Hc. apply Nat.eqb_neq. by apply negb_true_iff. }
  assert (preprocess_image self append_gt targets b_idx detection
          = Ok (mkDetection bx (lh ++ lo) (sh ++ so))) as Hpre.
  { unfold preprocess_image. rewrite Hd. simpl. fold a1.
    rewrite Hsup. simpl. rewrite Hsorted. simpl. rewrite Hkeep. simpl.
    by rewrite Hbx, Hlab, Hsco. }
  split_and!; simpl; try done.
  - rewrite (gather_length _ _ _ Hbx), length_app, length_app.
    rewrite (gather_length _ _ _ Ha4h), (gather_length _ _ _ Ha4o). lia.
  - by rewrite (gather_length _ _ _ Hsh).
  - by rewrite (gather_length _ _ _ Hso).
  - lia.
  - lia.
  - rewrite length_app. lia.
  - exact (gather_sorted _ s3 h_idx sh Hs3s Hhs Hsh).
  - exact (gather_sorted _ s3 o_idx so Hs3s Hos Hso).
  - intros a2' l2 Hsup' Hl2. rewrite Hsup in Hsup'. injection Hsup' as <-.
    assert (∀ c, c ∈ l3 → c ∈ l2) as Hl32.
    { intros c Hc.
      assert (gather l2 (argsort s2) = Ok l3) as Hg
        by (by rewrite (gather_gather _ _ _ _ _ Hl2 Ha3)).
      destruct (gather_elem_of _ _ _ _ Hg Hc) as (i & _ & Hi).
      apply list_elem_of_lookup. eauto. }
    split.
    + intros Hno. destruct lh as [|c lh]; [done |]. exfalso. apply Hno.
      inversion Hhum as [|?? Hc _]; subst. apply Hl32.
      destruct (gather_elem_of _ _ _ _ Hlh (list_elem_of_here _ _)) as (i & _ & Hi).
      apply list_elem_of_lookup. eauto.
    + intros Hall. destruct lo as [|c lo]; [done |]. exfalso.
      inversion Hobj as [|?? Hc _]; subst. apply Hc.
      eapply Forall_forall in Hall; [done |]. apply Hl32.
      destruct (gather_elem_of _ _ _ _ Hlo (list_elem_of_here _ _)) as (i & _ & Hi).
      apply list_elem_of_lookup. eauto.
  - intros detections flag results Hdet Hflag Hres.
    unfold preprocess in Hres. rewrite Hflag in Hres. apply mapM_Ok in Hres.
    assert (zip (seq 0 (length detections)) detections !! b_idx = Some (b_idx, detection))
      as Hz.
    { apply lookup_zip_with_Some. exists b_idx, detection. split_and!; [done | | done].
      apply lookup_seq. split; [done |]. by eapply lookup_lt_Some. }
    destruct (Forall2_lookup_l _ _ _ _ _ Hres Hz) as (y & Hy & Himg).
    simpl in Himg. rewrite Hpre in Himg. by injection Himg as <-.
Qed.

End PreprocessClaims.

Section PreprocessExamples.
Import Float64 Examples.
Local Open Scope float_scope.

Lemma preprocess_image_bounded_and_ordered_witness :
  ∃ out, preprocess_image inference_head false None 0 three_detections = Ok out ∧
         labels out = [0; 1]%nat ∧ scores out = [0.875; 0.75].
Proof.
  edestruct (preprocess_image_bounded_and_ordered inference_head false None 0
               three_detections three_detections)
    as (out & humans & objects & scores_h & scores_o & Hout & _).
  - reflexivity.
  - reflexivity.
  - reflexivity.
  - intros b s l Hb Hs Hl. vm_compute in Hb, Hs, Hl.
    injection Hb as <-. injection Hs as <-. injection Hl as <-.
    vm_compute. repeat constructor.
  - intros a2 s2 Ha2 Hs2. vm_compute in Ha2. injection Ha2 as <-.
    vm_compute in Hs2. injection Hs2 as <-. split.
    + vm_compute. repeat constructor.
    + intros r Hr. vm_compute in Hr. injection Hr as <-. repeat constructor.
  - exists out. split; [exact Hout |]. revert Hout. vm_compute.
    intros [= <-]. split; reflexivity.
Defined.

End PreprocessExamples.

(** * Further properties of the code *)

(** ** Preprocessing: where the output comes from *)

Section PreprocessFurther.
Context {R : Type} `{Scalar R} `{Torch R}.

Lemma gather_subset {A} (l : list A) idx r : gather l idx = Ok r → r ⊆ l.
Proof.
  intros Hr a Ha. destruct (gather_elem_of _ _ _ _ Hr Ha) as (i & _ & Hi).
  apply list_elem_of_lookup. eauto.
Qed.

(** What an output of the loop body of [preprocess] is made of: the indices
    [ah ++ ao] of detections that pass the score threshold, at which the
    boxes, labels and scores are read. *)
Lemma preprocess_image_inv (self : InteractionHead R) append_gt targets b_idx detection out :
  preprocess_image self append_gt targets b_idx detection = Ok out →
  ∃ d ah ao lh lo,
    append_ground_truth self append_gt targets b_idx detection = Ok d ∧
    ah ++ ao ⊆ remove_low_scoring self d ∧
    gather (boxes d) (ah ++ ao) = Ok (boxes out) ∧
    gather (labels d) (ah ++ ao) = Ok (labels out) ∧
    gather (scores d) (ah ++ ao) = Ok (scores out) ∧
    labels out = lh ++ lo ∧
    length lh = length ah ∧ length lo = length ao ∧
    Forall (λ c, c = human_idx self) lh ∧
    Forall (λ c, c ≠ human_idx self) lo.
Proof.
  unfold preprocess_image. intros (d & Hd & Hrest)%bind_Ok.
  apply bind_Ok in Hrest as (a2 & Ha2 & Hrest).
  apply bind_Ok in Hrest as (a3 & Ha3 & Hrest).
  apply bind_Ok in Hrest as (a4 & Ha4 & Hrest).
  apply bind_Ok in Hrest as (b & Hb & Hrest).
  apply bind_Ok in Hrest as (l & Hl & Hrest).
  apply bind_Ok in Hrest as (s & Hs & [= <-]). simpl.
  unfold suppress in Ha2.
  apply bind_Ok in Ha2 as (? & _ & Ha2). apply bind_Ok in Ha2 as (? & _ & Ha2).
  apply bind_Ok in Ha2 as (? & _ & Ha2).
  unfold sort_by_score in Ha3. apply bind_Ok in Ha3 as (? & _ & Ha3).
  unfold keep_fixed_number in Ha4. apply bind_Ok in Ha4 as (l3 & Hl3 & Ha4).
  destruct (cap_properties (λ c, c =? human_idx self) l3 (max_human self))
    as (_ & Hhsub & _ & _).
  destruct (cap_properties (λ c, negb (c =? human_idx self)) l3 (max_object self))
    as (_ & Hosub & _ & _).
  set (h_idx := if max_human self <? _ then _ else _) in *.
  set (o_idx := if max_object self <? _ then _ else _) in *.
  apply gather_app in Ha4 as (ah & ao & -> & Hah & Hao).
  pose proof Hl as (lh & lo & -> & Hlh & Hlo)%gather_app.
  exists d, ah, ao, lh, lo. split_and!; try done.
  - intros i Hi. apply (gather_subset _ _ _ Ha2), (gather_subset _ _ _ Ha3).
    apply elem_of_app in Hi as [Hi|Hi];
      [exact (gather_subset _ _ _ Hah _ Hi) | exact (gather_subset _ _ _ Hao _ Hi)].
  - by rewrite (gather_length _ _ _ Hlh).
  - by rewrite (gather_length _ _ _ Hlo).
  - rewrite <-(gather_gather _ _ _ _ _ Hl3 Hah) in Hlh.
    eapply Forall_impl;
      [exact (gather_nonzero1 (λ c, c =? human_idx self) l3 h_idx lh Hhsub Hlh) |].
    intros c Hc. by apply Nat.eqb_eq.
  - rewrite <-(gather_gather _ _ _ _ _ Hl3 Hao) in Hlo.
    eapply Forall_impl;
      [exact (gather_nonzero1 (λ c, negb (c =? human_idx self)) l3 o_idx lo Hosub Hlo) |].
    intros c Hc. apply Nat.eqb_neq. by apply negb_true_iff.
Qed.

(** X1. Whatever non-maximum suppression and argsort answer, an output of the
    loop body of [preprocess] is read from the detections of the image (with
    ground truth appended when asked for) at one list of indices: the k-th
    output box, label and score are the box, label and score of one and the
    same detection. *)
Theorem preprocess_output_is_aligned (self : InteractionHead R) append_gt targets b_idx
    detection out :
  preprocess_image self append_gt targets b_idx detection = Ok out →
  ∃ d active,
    append_ground_truth self append_gt targets b_idx detection = Ok d ∧
    length (boxes out) = length active ∧
    length (labels out) = length active ∧
    length (scores out) = length active ∧
    ∀ k i, active !! k = Some i →
      ∃ b c s,
        boxes d !! i = Some b ∧ labels d !! i = Some c ∧ scores d !! i = Some s ∧
        boxes out !! k = Some b ∧ labels out !! k = Some c ∧ scores out !! k = Some s.
Proof.
  intros (d & ah & ao & lh & lo & Hd & _ & Hb & Hl & Hs & _)%preprocess_image_inv.
  exists d, (ah ++ ao). split_and!; [done | by eapply gather_length ..|].
  intros k i Hk.
  destruct (gather_lookup _ _ _ _ _ Hb Hk) as (b & ? & ?).
  destruct (gather_lookup _ _ _ _ _ Hl Hk) as (c & ? & ?).
  destruct (gather_lookup _ _ _ _ _ Hs Hk) as (s & ? & ?).
  by exists b, c, s.
Qed.

(** X2. Every score in an output of the loop body of [preprocess] passes the
    comparison [score >= box_score_thresh]. *)
Theorem preprocess_output_above_threshold (self : InteractionHead R) append_gt targets b_idx
    detection out :
  preprocess_image self append_gt targets b_idx detection = Ok out →
  Forall (λ s, s_geb s (box_score_thresh self) = true) (scores out).
Proof.
  intros (d & ah & ao & lh & lo & Hd & Hsub & _ & _ & Hs & _)%preprocess_image_inv.
  apply Forall_forall. intros s Hin.
  destruct (gather_elem_of _ _ _ _ Hs Hin) as (i & Hi & His).
  apply Hsub in Hi. unfold remove_low_scoring in Hi.
  apply elem_of_nonzero1 in Hi as (s' & Hs' & Hge). congruence.
Qed.

End PreprocessFurther.

(** ** Preprocessing and the checks of [GraphHead.forward] *)

Section ChecksFurther.
Context {R F : Type} `{Scalar R} `{Torch R}.

Lemma count_humans_app (gh : GraphHead R F) l1 l2 :
  count_humans gh (l1 ++ l2) = count_humans gh l1 + count_humans gh l2.
Proof. unfold count_humans. apply sum_list_with_app. Qed.

Lemma count_humans_all (gh : GraphHead R F) l :
  Forall (λ c, c = gh_human_idx gh) l → count_humans gh l = length l.
Proof.
  unfold count_humans. induction 1 as [|c l -> _ IH]; simpl; [done |].
  by rewrite Nat.eqb_refl, IH.
Qed.

Lemma count_humans_none (gh : GraphHead R F) l :
  Forall (λ c, c ≠ gh_human_idx gh) l → count_humans gh l = 0.
Proof.
  unfold count_humans. induction 1 as [|c l Hc _ IH]; simpl; [done |].
  apply Nat.eqb_neq in Hc. by rewrite Hc, IH.
Qed.

(** X3. The labels that the loop body of [preprocess] returns pass the
    ordering test of [GraphHead.forward] (line 546) for a graph head with the
    same human index: the first n_h labels, n_h being the number of human
    labels, are all human.  Hence the [ValueError] of line 547 is not raised
    on preprocessed detections. *)
Theorem preprocess_output_passes_ordering_check (self : InteractionHead R)
    (gh : GraphHead R F) append_gt targets b_idx detection out :
  preprocess_image self append_gt targets b_idx detection = Ok out →
  gh_human_idx gh = human_idx self →
  forallb (λ c, c =? gh_human_idx gh)
    (take (count_humans gh (labels out)) (labels out)) = true.
Proof.
  intros (d & ah & ao & lh & lo & _ & _ & _ & _ & _ & -> & _ & _ & Hh & Ho)%preprocess_image_inv
    Hidx.
  rewrite <-Hidx in Hh, Ho.
  rewrite count_humans_app, count_humans_all, count_humans_none, Nat.add_0_r by done.
  rewrite take_app_length. apply forallb_forall. intros c Hc%list_elem_of_In.
  eapply Forall_forall in Hh; [|done]. by apply Nat.eqb_eq.
Qed.

(** X4. The defensive test of line 559 never fires: an image that is not
    skipped has at least one pair, so the [ValueError] of line 561 is not
    raised. *)
Theorem kept_pairs_not_empty (gh : GraphHead R F) (coords : list (box R)) (labels : list nat) :
  skip_image gh coords labels = false →
  (length (keep_pairs (count_humans gh labels) (length coords)) =? 0) = false ∧
  (0, 1) ∈ keep_pairs (count_humans gh labels) (length coords).
Proof.
  unfold skip_image. intros [Hh%Nat.eqb_neq Hn%Nat.leb_gt]%orb_false_iff.
  assert ((0, 1) ∈ keep_pairs (count_humans gh labels) (length coords)) as Hin.
  { apply elem_of_keep_pairs. lia. }
  split; [|done]. apply Nat.eqb_neq.
  destruct (keep_pairs _ _); [by apply elem_of_nil in Hin | done].
Qed.

End ChecksFurther.

(** ** Prior scores: shapes and failures *)

Section PriorFurther.
Context {R F : Type} `{Scalar R} `{Torch R}.
Implicit Types (self : GraphHead R F) (t : tensor2 R).

Lemma put2_shape t i j v t' :
  put2 t i j v = Ok t' → shape2 t' = shape2 t.
Proof.
  unfold put2. destruct (_ && _); [|done]. intros [= <-].
  unfold shape2. simpl. by rewrite length_alter.
Qed.

Lemma put2_total t i j v :
  i < length (t_rows t) → j < t_cols t → ∃ t', put2 t i j v = Ok t'.
Proof.
  intros Hi%Nat.ltb_lt Hj%Nat.ltb_lt. unfold put2. rewrite Hi, Hj. eauto.
Qed.

(** An indexed assignment at cells inside the tensor succeeds and keeps the
    shape. *)
Lemma index_put2_total t xy vs :
  wf_tensor2 t →
  Forall (λ p, p.1 < length (t_rows t) ∧ p.2 < t_cols t) xy →
  ∃ t', index_put2 t xy vs = Ok t' ∧ wf_tensor2 t' ∧ shape2 t' = shape2 t.
Proof.
  intros Hwf Hxy. revert t vs Hwf Hxy.
  induction xy as [|[i j] xy IH]; intros t vs Hwf Hxy.
  - exists t. by destruct vs.
  - destruct vs as [|v vs]; [by exists t |].
    apply Forall_cons in Hxy as [[Hi Hj] Hxy]. simpl in Hi, Hj.
    destruct (put2_total t i j v Hi Hj) as [t1 Hput].
    destruct (put2_Ok _ _ _ _ _ Hwf Hput) as [Hwf1 _].
    pose proof (put2_shape _ _ _ _ _ Hput) as Hshape. injection Hshape as Hrows Hcols.
    destruct (IH t1 vs Hwf1) as (t' & Ht' & Hwf' & Hs').
    { by rewrite Hrows, Hcols. }
    exists t'. rewrite index_put2_cons. simpl. rewrite Hput. simpl.
    split_and!; [done | done |].
    rewrite Hs'. unfold shape2. by rewrite Hrows, Hcols.
Qed.

Lemma mapM_total {A B} (f : A → result B) (l : list A) :
  Forall (λ a, ∃ b, f a = Ok b) l → ∃ k, mapM f l = Ok k.
Proof.
  induction 1 as [|a l [b Hb] _ [k Hk]]; [by exists [] |].
  exists (b :: k). apply mapM_Ok. constructor; [done | by apply mapM_Ok].
Qed.

(** X5. [compute_prior_scores] succeeds when its indices are valid: [x] and
    [y] list as many detections of [scores] and [object_class], every object
    class has an entry in the class mapping, and the mapped interaction
    classes are below [num_cls].  Both priors then have one row per pair and
    [num_cls] columns. *)
Theorem compute_prior_scores_total self (x y : list nat) (scores : list R)
    (object_class : list nat) :
  length x = length y →
  Forall (λ i, i < length scores) x →
  Forall (λ j, j < length scores ∧ j < length object_class) y →
  Forall (λ c, ∃ tar, object_class_to_target_class self !! c = Some tar ∧
                      Forall (λ cls, cls < num_cls self) tar) object_class →
  ∃ prior_h prior_o,
    compute_prior_scores self x y scores object_class = Ok (prior_h, prior_o) ∧
    shape2 prior_h = (length x, num_cls self) ∧ wf_tensor2 prior_h ∧
    shape2 prior_o = (length x, num_cls self) ∧ wf_tensor2 prior_o.
Proof.
  intros Hlen Hx Hy Hmap. unfold compute_prior_scores.
  destruct (gather_total scores x Hx) as [sx Hsx].
  destruct (gather_total scores y) as [sy Hsy].
  { eapply Forall_impl; [done |]. by intros ? [? _]. }
  destruct (gather_total object_class y) as [oc Hoc].
  { eapply Forall_impl; [done |]. by intros ? [_ ?]. }
  destruct (mapM_total (index (object_class_to_target_class self)) oc) as [tcs Htcs].
  { eapply Forall_impl; [exact (gather_Forall _ _ _ _ Hmap Hoc) |].
    intros c (tar & Htar & _). exists tar. by apply index_Ok. }
  rewrite Hsx, Hsy, Hoc. simpl. rewrite Htcs. simpl.
  rewrite zip_pair_idx.
  set (pair_idx := concat (imap (λ i (tar : list nat), replicate (length tar) i) tcs)).
  set (writes := concat (imap (λ i (tar : list nat), (λ c, (i, c)) <$> tar) tcs)).
  assert (length tcs = length x) as Ltcs.
  { apply mapM_Ok, Forall2_length in Htcs.
    by rewrite <-Htcs, (gather_length _ _ _ Hoc), Hlen. }
  assert (Forall (λ p, p.1 < length x ∧ p.2 < num_cls self) writes) as Hw.
  { apply Forall_forall. intros [k cls] (k' & tar & Hk & Hin)%elem_of_concat_imap.
    apply list_elem_of_fmap in Hin as (c' & [= -> ->] & Hc'). simpl. split.
    - rewrite <-Ltcs. by eapply lookup_lt_Some.
    - apply mapM_Ok in Htcs.
      destruct (Forall2_lookup_r _ _ _ _ _ Htcs Hk) as (c & Hc & Hidx%index_Ok).
      assert (c ∈ object_class) as Hcin.
      { eapply gather_subset; [done |]. apply list_elem_of_lookup. eauto. }
      eapply Forall_forall in Hmap as (tar' & Htar' & Hbound); [|done].
      rewrite Hidx in Htar'. injection Htar' as <-.
      eapply Forall_forall in Hbound; done. }
  assert (Forall (λ i, i < length x) pair_idx) as Hp.
  { apply Forall_forall. intros k (k' & tar & Hk & Hin)%elem_of_concat_imap.
    apply elem_of_replicate in Hin as [-> _]. rewrite <-Ltcs. by eapply lookup_lt_Some. }
  destruct (gather_total (pow2 <$> sx) pair_idx) as [vh Hvh].
  { by rewrite length_fmap, (gather_length _ _ _ Hsx). }
  destruct (gather_total (pow2 <$> sy) pair_idx) as [vo Hvo].
  { by rewrite length_fmap, (gather_length _ _ _ Hsy), <-Hlen. }
  assert (shape2 (zeros2 (length x) (num_cls self) : tensor2 R)
          = (length x, num_cls self)) as Hz.
  { unfold shape2. simpl. by rewrite length_replicate. }
  destruct (index_put2_total (zeros2 (length x) (num_cls self)) writes vh)
    as (ph & Hph & Hwfh & Hsh); [apply wf_zeros2 | |].
  { simpl. by rewrite length_replicate. }
  destruct (index_put2_total (zeros2 (length x) (num_cls self)) writes vo)
    as (po & Hpo & Hwfo & Hso); [apply wf_zeros2 | |].
  { simpl. by rewrite length_replicate. }
  exists ph, po. fold pair_idx writes. rewrite Hvh. simpl. rewrite Hph. simpl.
  rewrite Hvo. simpl. rewrite Hpo. simpl.
  split_and!; [done | by rewrite Hsh | done | by rewrite Hso | done].
Qed.

Lemma mapM_index_raise {A} (m : list A) (l : list nat) :
  Exists (λ c, m !! c = None) l → mapM (index m) l = Raise IndexError.
Proof.
  induction 1 as [c l Hc|c l _ IH];
    change (mapM (index m) (c :: l))
      with (index m c ≫= λ a, mapM (index m) l ≫= λ k, mret (a :: k)).
  - assert (index m c = Raise IndexError) as -> by (unfold index; by rewrite Hc). done.
  - rewrite IH. unfold index. by destruct (m !! c).
Qed.

(** X6. [compute_prior_scores] raises [IndexError] when the class of the
    object of some pair has no entry in the class mapping (the indices into
    [scores] and [object_class] being valid). *)
Theorem compute_prior_scores_unmapped_class self (x y : list nat) (scores : list R)
    (object_class : list nat) (k j c : nat) :
  Forall (λ i, i < length scores) x →
  Forall (λ j, j < length scores ∧ j < length object_class) y →
  y !! k = Some j →
  object_class !! j = Some c →
  object_class_to_target_class self !! c = None →
  compute_prior_scores self x y scores object_class = Raise IndexError.
Proof.
  intros Hx Hy Hk Hj Hc. unfold compute_prior_scores.
  destruct (gather_total scores x Hx) as [sx Hsx].
  destruct (gather_total scores y) as [sy Hsy].
  { eapply Forall_impl; [done |]. by intros ? [? _]. }
  destruct (gather_total object_class y) as [oc Hoc].
  { eapply Forall_impl; [done |]. by intros ? [_ ?]. }
  rewrite Hsx, Hsy, Hoc. simpl. rewrite mapM_index_raise; [done |].
  destruct (gather_lookup _ _ _ _ _ Hoc Hk) as (c' & Hc' & Hjc).
  apply Exists_exists. exists c. split; [|done].
  apply list_elem_of_lookup. exists k. congruence.
Qed.

End PriorFurther.

(** ** Ground-truth association *)

Section AssociateFurther.
Context {R F : Type} `{Scalar R} `{Torch R}.
Implicit Types (self : GraphHead R F) (t : tensor2 R).

Lemma index_put2_shape t xy vs t' :
  index_put2 t xy vs = Ok t' → shape2 t' = shape2 t.
Proof.
  revert t vs. induction xy as [|p xy IH]; intros t vs.
  - by intros [= <-].
  - destruct vs as [|v vs]; [by intros [= <-] |]. rewrite index_put2_cons.
    intros (t1 & Hput & Hrest)%bind_Ok.
    by rewrite (IH _ _ Hrest), (put2_shape _ _ _ _ _ Hput).
Qed.

Lemma expand_same_length {A} (n : nat) (l : list A) : length l = n → expand n l = l.
Proof. destruct l as [|a [|b l]]; simpl; try done. by intros <-. Qed.

(** Without broadcasting: the IoU matrices of as many pairs and as many
    ground-truth pairs have one shape, and their minimum is taken entry by
    entry. *)
Lemma minimum_box_iou (a a' b b' : list (box R)) :
  length a' = length a → length b' = length b →
  minimum (box_iou2 a b) (box_iou2 a' b')
  = Ok (T2 (length b) (zip_with (zip_with s_min) (box_iou a b) (box_iou a' b'))).
Proof.
  intros Ha Hb.
  assert (∀ x y : list (box R), length (box_iou x y) = length x) as Hrows.
  { intros x y. unfold box_iou. by rewrite length_fmap. }
  assert (∀ (x y : list (box R)) n, length y = n → expand n <$> box_iou x y = box_iou x y)
    as Hcols.
  { intros x y n Hn. unfold box_iou. rewrite <-list_fmap_compose.
    apply list_fmap_ext. intros i c _. simpl. apply expand_same_length.
    by rewrite length_fmap. }
  unfold minimum, box_iou2, broadcast_size. simpl.
  rewrite !Hrows, Ha, Hb, !Nat.eqb_refl. simpl.
  rewrite !expand_same_length by (by rewrite Hrows).
  by rewrite !Hcols.
Qed.

(** X7. For as many object boxes as human boxes, and a target with as many
    object boxes as human boxes, the labels that
    [associate_with_ground_truth] returns have one row per pair and
    [num_cls] columns; the entry of pair [k] and class [cls] is one when the
    pair matches some ground-truth pair of that class, and zero otherwise. *)
Theorem associate_with_ground_truth_labels self (boxes_h boxes_o : list (box R))
    (target : Target R) t :
  length boxes_o = length boxes_h →
  length (tg_boxes_o target) = length (tg_boxes_h target) →
  associate_with_ground_truth self boxes_h boxes_o target = Ok t →
  shape2 t = (length boxes_h, num_cls self) ∧
  ∀ k cls, k < length boxes_h → cls < num_cls self →
    (ground_truth_match self boxes_h boxes_o target k cls → at2 t k cls = Ok s_one) ∧
    (¬ ground_truth_match self boxes_h boxes_o target k cls → at2 t k cls = Ok s_zero).
Proof.
  intros Lb Lg. unfold associate_with_ground_truth. cbv zeta.
  rewrite minimum_box_iou by done. simpl.
  set (xy := nonzero2 _ _). intros (tl & Htl & Hput)%bind_Ok.
  split.
  { rewrite (index_put2_shape _ _ _ _ Hput). unfold shape2. simpl.
    by rewrite length_replicate. }
  assert (∀ k g, (k, g) ∈ xy ↔
            ∃ bh bo gh go,
              boxes_h !! k = Some bh ∧ boxes_o !! k = Some bo ∧
              tg_boxes_h target !! g = Some gh ∧ tg_boxes_o target !! g = Some go ∧
              s_geb (s_min (iou bh gh) (iou bo go)) (fg_iou_thresh self) = true) as Hxy.
  { intros k g. unfold xy. rewrite elem_of_nonzero2. unfold box_iou. split.
    - intros (row & v & Hrow & Hv & Hge).
      apply lookup_zip_with_Some in Hrow as (r1 & r2 & -> & Hr1 & Hr2).
      apply list_lookup_fmap_Some in Hr1 as (bh & -> & Hbh).
      apply list_lookup_fmap_Some in Hr2 as (bo & -> & Hbo).
      apply lookup_zip_with_Some in Hv as (v1 & v2 & -> & Hv1 & Hv2).
      apply list_lookup_fmap_Some in Hv1 as (gh & -> & Hgh).
      apply list_lookup_fmap_Some in Hv2 as (go & -> & Hgo).
      by exists bh, bo, gh, go.
    - intros (bh & bo & gh & go & Hbh & Hbo & Hgh & Hgo & Hge).
      eexists _, _. split_and!; [| | exact Hge].
      + apply lookup_zip_with_Some. eexists _, _. split; [done |].
        rewrite !list_lookup_fmap, Hbh, Hbo. done.
      + apply lookup_zip_with_Some. eexists _, _. split; [done |].
        rewrite !list_lookup_fmap, Hgh, Hgo. done. }
  assert (∀ k cls, (k, cls) ∈ zip xy.*1 tl ↔
            ground_truth_match self boxes_h boxes_o target k cls) as Hw.
  { intros k cls. unfold ground_truth_match. split.
    - intros (m & Hm)%list_elem_of_lookup.
      apply lookup_zip_with_Some in Hm as (k' & cls' & [= <- <-] & Hk & Hcls).
      apply list_lookup_fmap_Some in Hk as ([k' g] & -> & Hp). simpl.
      assert (xy.*2 !! m = Some g) as Hg by (by rewrite list_lookup_fmap, Hp).
      destruct (gather_lookup _ _ _ _ _ Htl Hg) as (c & Hc & Hgc).
      assert ((k', g) ∈ xy) as Hin by (apply list_elem_of_lookup; eauto).
      apply Hxy in Hin as (bh & bo & gh & go & ? & ? & ? & ? & ?).
      exists g, bh, bo, gh, go. split_and!; try done. congruence.
    - intros (g & bh & bo & gh & go & Hbh & Hbo & Hgh & Hgo & Hl & Hge).
      assert ((k, g) ∈ xy) as (m & Hm)%list_elem_of_lookup.
      { apply Hxy. by exists bh, bo, gh, go. }
      assert (xy.*2 !! m = Some g) as Hg by (by rewrite list_lookup_fmap, Hm).
      destruct (gather_lookup _ _ _ _ _ Htl Hg) as (c & Hc & Hgc).
      apply list_elem_of_lookup. exists m. apply lookup_zip_with_Some.
      exists k, cls. split_and!; [done | by rewrite list_lookup_fmap, Hm | congruence]. }
  assert (length (replicate (length xy) (s_one : R)) = length (zip xy.*1 tl)) as Hlen.
  { rewrite length_replicate, length_zip_with, length_fmap,
      (gather_length _ _ _ Htl), length_fmap. lia. }
  assert (∀ m (p : nat * nat) (v : R),
            zip xy.*1 tl !! m = Some p → replicate (length xy) s_one !! m = Some v →
            v = s_one) as Hvals.
  { by intros m p v _ [-> _]%lookup_replicate. }
  pose proof (index_put2_at _ _ _ (λ _, s_one) _ (wf_zeros2 _ _) Hlen Hvals Hput) as Hat.
  intros k cls Hk Hcls. rewrite Hat.
  split; intros Hm.
  - by rewrite decide_True by (by apply Hw).
  - rewrite decide_False by (by rewrite Hw). by apply at2_zeros2.
Qed.

End AssociateFurther.

(** ** The lists of [GraphHead.forward] *)

Section ListsFurther.
Context {R F : Type} `{Scalar R} `{Torch R}.
Implicit Types (self : GraphHead R F) (st : LoopState R).

(** With targets, every image adds one entry to the labels list; for an
    image that is not skipped it is the association of its pairs with the
    ground truth of the image. *)
Lemma forward_image_labels self features image_shapes box_features ts b_idx
    coords labels scores st st' :
  forward_image self features image_shapes box_features (Some ts) b_idx
    coords labels scores st = Ok st' →
  ∃ l, all_labels (outputs st') = all_labels (outputs st) ++ [l] ∧
       if skip_image self coords labels then l = zeros2 0 (num_cls self)
       else ∃ bh bo target,
              gather coords (keep_pairs (count_humans self labels) (length coords)).*1 = Ok bh ∧
              gather coords (keep_pairs (count_humans self labels) (length coords)).*2 = Ok bo ∧
              ts !! b_idx = Some target ∧
              associate_with_ground_truth self bh bo target = Ok l.
Proof.
  unfold forward_image. destruct (skip_image self coords labels).
  { intros [= <-]. by eexists. }
  destruct (negb _); [done |]. destruct (length _ =? 0); [done |].
  intros ([[h_enc enc] grid] & _ & Hrest)%bind_Ok.
  apply bind_Ok in Hrest as (new_labels & Hnew & Hrest).
  apply bind_Ok in Hrest as (feats & _ & Hrest).
  apply bind_Ok in Hrest as (bh & _ & Hrest).
  apply bind_Ok in Hrest as (bo & _ & Hrest).
  apply bind_Ok in Hrest as (oc & _ & Hrest).
  apply bind_Ok in Hrest as (prior & _ & [= <-]). simpl.
  apply bind_Ok in Hnew as (bh' & Hbh & Hnew).
  apply bind_Ok in Hnew as (bo' & Hbo & Hnew).
  apply bind_Ok in Hnew as (target & Ht%index_Ok & Hnew).
  apply bind_Ok in Hnew as (l & Hl & [= <-]).
  exists l. split; [done |]. by exists bh', bo', target.
Qed.

Lemma forward_loop_lengths self features image_shapes box_features targets b_idx images st st' :
  forward_loop self features image_shapes box_features targets b_idx images st = Ok st' →
  length (all_box_pair_features (outputs st'))
    = length (all_box_pair_features (outputs st)) + length images ∧
  length (all_boxes_h (outputs st')) = length (all_boxes_h (outputs st)) + length images ∧
  length (all_boxes_o (outputs st')) = length (all_boxes_o (outputs st)) + length images ∧
  length (all_object_class (outputs st'))
    = length (all_object_class (outputs st)) + length images ∧
  length (all_prior (outputs st')) = length (all_prior (outputs st)) + length images ∧
  (is_Some targets →
   length (all_labels (outputs st')) = length (all_labels (outputs st)) + length images).
Proof.
  revert b_idx st. induction images as [|[[coords labels] scores] images IH]; intros b_idx st.
  - intros [= <-]. simpl. split_and!; auto with lia.
  - rewrite forward_loop_cons. intros (st1 & H1 & Hrest)%bind_Ok.
    destruct (IH _ _ Hrest) as (Ef & Ebh & Ebo & Eoc & Ep & El).
    pose proof H1 as (f & bh & bo & oc & l & p & Ho)%forward_image_appends.
    rewrite Ef, Ebh, Ebo, Eoc, Ep, Ho. simpl. rewrite !length_app. simpl.
    split_and!; try lia.
    intros [ts ->]. rewrite El by done.
    apply forward_image_labels in H1 as (l' & -> & _). rewrite length_app. simpl. lia.
Qed.

(** X8. The lists of pair features, human boxes, object boxes, object classes
    and priors that [GraphHead.forward] returns have one entry per image of
    the batch, skipped or not; with targets, so has the list of labels. *)
Theorem GraphHead_forward_lengths self features image_shapes box_features
    box_coords box_labels box_scores targets out :
  GraphHead_forward self features image_shapes box_features
    box_coords box_labels box_scores targets = Ok out →
  let batch := length (zip (zip box_coords box_labels) box_scores) in
  length (all_box_pair_features out) = batch ∧
  length (all_boxes_h out) = batch ∧
  length (all_boxes_o out) = batch ∧
  length (all_object_class out) = batch ∧
  length (all_prior out) = batch ∧
  (is_Some targets → length (all_labels out) = batch).
Proof.
  unfold GraphHead_forward. destruct (_ && _); [done |]. cbv zeta.
  intros (st & Hloop & [= <-])%bind_Ok.
  by apply forward_loop_lengths in Hloop.
Qed.

Lemma forward_loop_app self features image_shapes box_features targets b_idx
    images1 images2 st :
  forward_loop self features image_shapes box_features targets b_idx (images1 ++ images2) st
  = forward_loop self features image_shapes box_features targets b_idx images1 st
    ≫= forward_loop self features image_shapes box_features targets
         (b_idx + length images1) images2.
Proof.
  revert b_idx st. induction images1 as [|[[c l] s] images1 IH]; intros b_idx st.
  - simpl. by rewrite Nat.add_0_r.
  - rewrite <-app_comm_cons, !forward_loop_cons.
    destruct (forward_image _ _ _ _ _ _ _ _ _ _) as [st1|e]; simpl; [|done].
    rewrite IH. by replace (S b_idx + length images1) with (b_idx + S (length images1)) by lia.
Qed.

(** X9. The offset at which an image reads its node encodings is the number
    of detections of the images before it that were not skipped.  It is the
    number of detections of all the images before it when every skipped one
    among them has no detection. *)
Theorem node_encodings_offset self features image_shapes box_features targets
    (before after : list (list (box R) * list nat * list R))
    coords labels scores st' :
  forward_loop self features image_shapes box_features targets 0
    (before ++ (coords, labels, scores) :: after) initial_state = Ok st' →
  ∃ sti sti',
    forward_loop self features image_shapes box_features targets 0 before initial_state
    = Ok sti ∧
    forward_image self features image_shapes box_features targets (length before)
      coords labels scores sti = Ok sti' ∧
    counter sti
    = sum_list_with (λ img, if skip_image self img.1.1 img.1.2 then 0 else length img.1.1)
        before ∧
    (Forall (λ img, skip_image self img.1.1 img.1.2 = true → length img.1.1 = 0) before →
     counter sti = sum_list_with (λ img, length img.1.1) before).
Proof.
  rewrite forward_loop_app. intros (sti & Hbefore & Hrest)%bind_Ok.
  rewrite forward_loop_cons in Hrest. apply bind_Ok in Hrest as (sti' & Himg & _).
  exists sti, sti'. pose proof (forward_loop_counter _ _ _ _ _ _ _ _ _ Hbefore) as Hc.
  simpl in Hc. split_and!; [done | done | done |].
  intros Hall. rewrite Hc. clear -Hall.
  induction Hall as [|img before Himg _ IH]; simpl; [done |]. rewrite IH.
  destruct (skip_image self img.1.1 img.1.2); [by rewrite Himg | done].
Qed.

End ListsFurther.

(** ** [utils.py] *)

Section UtilsFurther.
Context {R : Type} `{Scalar R}.

(** [idx[nonzero(P(values[idx]))]]: the indices of [idx] whose value passes
    the test, in the order of [idx]. *)
Lemma gather_passing {A} (P : A → bool) (values : list A) (idx : list nat) :
  Forall (λ i, i < length values) idx →
  StronglySorted lt idx →
  ∃ s keep,
    gather values idx = Ok s ∧
    gather idx (nonzero1 P s) = Ok keep ∧
    StronglySorted lt keep ∧
    ∀ i, i ∈ keep ↔ i ∈ idx ∧ ∃ v, values !! i = Some v ∧ P v = true.
Proof.
  intros Hrange Hsorted.
  destruct (gather_total values idx Hrange) as [s Hs].
  destruct (gather_total idx (nonzero1 P s)) as [keep Hkeep].
  { rewrite <-(gather_length _ _ _ Hs). apply nonzero1_in_range. }
  exists s, keep. split_and!; [done | done | |].
  - exact (gather_sorted lt idx _ keep Hsorted (nonzero1_from_sorted P 0 s) Hkeep).
  - intros i. split.
    + intros Hi. destruct (gather_elem_of _ _ _ _ Hkeep Hi) as (k & Hk & Hik).
      apply elem_of_nonzero1 in Hk as (v & Hv & HP).
      destruct (gather_lookup _ _ _ _ _ Hs Hik) as (v' & Hv' & Hval).
      split; [apply list_elem_of_lookup; eauto |]. exists v. split; [congruence | done].
    + intros [(k & Hk)%list_elem_of_lookup (v & Hv & HP)].
      destruct (gather_lookup _ _ _ _ _ Hs Hk) as (v' & Hv' & Hval).
      assert (k ∈ nonzero1 P s) as (m & Hm)%list_elem_of_lookup.
      { apply elem_of_nonzero1. exists v. split; [congruence | done]. }
      destruct (gather_lookup _ _ _ _ _ Hkeep Hm) as (i' & Hi' & Hik).
      apply list_elem_of_lookup. exists m. congruence.
Qed.

(** X10. [filter_detections] does not raise on detections with at least as
    many boxes and scores as labels.  Its output lists the humans whose score
    reaches [box_score_thresh_h], then the other detections whose score
    reaches [box_score_thresh_o], each group in the order of the input, and
    every such detection is listed. *)
Theorem filter_detections_humans_first (self : DataFactory R) (detection : Detection R) :
  length (labels detection) ≤ length (scores detection) →
  length (labels detection) ≤ length (boxes detection) →
  ∃ out kh ko,
    filter_detections self detection = Ok out ∧
    gather (boxes detection) (kh ++ ko) = Ok (boxes out) ∧
    gather (labels detection) (kh ++ ko) = Ok (labels out) ∧
    gather (scores detection) (kh ++ ko) = Ok (scores out) ∧
    StronglySorted lt kh ∧ StronglySorted lt ko ∧
    (∀ i, i ∈ kh ↔
          labels detection !! i = Some (df_human_idx self) ∧
          ∃ s, scores detection !! i = Some s ∧
               s_geb s (box_score_thresh_h self) = true) ∧
    (∀ i, i ∈ ko ↔
          (∃ c, labels detection !! i = Some c ∧ c ≠ df_human_idx self) ∧
          ∃ s, scores detection !! i = Some s ∧
               s_geb s (box_score_thresh_o self) = true).
Proof.
  intros Ls Lb. unfold filter_detections. cbv zeta.
  set (ih := nonzero1 (λ c, c =? df_human_idx self) (labels detection)).
  set (io := nonzero1 (λ c, negb (c =? df_human_idx self)) (labels detection)).
  assert (∀ (P : nat → bool), Forall (λ i, i < length (scores detection))
            (nonzero1 P (labels detection))) as Hrange.
  { intros P. eapply Forall_impl; [apply nonzero1_in_range |]. simpl. lia. }
  destruct (gather_passing (λ v, s_geb v (box_score_thresh_h self)) (scores detection) ih
              (Hrange _) (nonzero1_from_sorted _ 0 _)) as (sh & kh & Hsh & Hkh & Sh & Mh).
  destruct (gather_passing (λ v, s_geb v (box_score_thresh_o self)) (scores detection) io
              (Hrange _) (nonzero1_from_sorted _ 0 _)) as (so & ko & Hso & Hko & So & Mo).
  rewrite Hsh. simpl. rewrite Hkh. simpl. rewrite Hso. simpl. rewrite Hko. simpl.
  assert (Forall (λ i, i < length (labels detection)) (kh ++ ko)) as Hk.
  { apply Forall_app. split; apply Forall_forall; intros i Hi.
    - apply Mh in Hi as [Hi _]. eapply Forall_forall in Hi; [|apply nonzero1_in_range]. done.
    - apply Mo in Hi as [Hi _]. eapply Forall_forall in Hi; [|apply nonzero1_in_range]. done. }
  destruct (gather_total (boxes detection) (kh ++ ko)) as [b Hb].
  { eapply Forall_impl; [done |]. simpl. lia. }
  destruct (gather_total (scores detection) (kh ++ ko)) as [s Hs].
  { eapply Forall_impl; [done |]. simpl. lia. }
  destruct (gather_total (labels detection) (kh ++ ko) Hk) as [l Hl].
  rewrite Hb, Hs, Hl. simpl.
  exists (mkDetection b l s), kh, ko. split_and!; try done.
  - intros i. rewrite Mh. unfold ih. rewrite elem_of_nonzero1. split.
    + intros [(c & Hc & ->%Nat.eqb_eq) Hv]. done.
    + intros [Hc Hv]. split; [|done]. exists (df_human_idx self).
      by rewrite Nat.eqb_refl.
  - intros i. rewrite Mo. unfold io. rewrite elem_of_nonzero1. split.
    + intros [(c & Hc & Hne%negb_true_iff%Nat.eqb_neq) Hv]. eauto.
    + intros [(c & Hc & Hne) Hv]. split; [|done]. exists c.
      split; [done |]. by apply negb_true_iff, Nat.eqb_neq.
Qed.

(** X11. [custom_collate] splits a batch into three lists of the length of
    the batch, and zipping them gives the batch back. *)
Theorem custom_collate_zip {I D T} (batch : list (I * D * T)) :
  let '(images, detections, targets) := custom_collate batch in
  length images = length batch ∧
  length detections = length batch ∧
  length targets = length batch ∧
  zip (zip images detections) targets = batch.
Proof.
  unfold custom_collate.
  assert (∀ (acc : list I * list D * list T) (done_ : list (I * D * T)),
    (let '(images, detections, targets) := acc in
     length images = length done_ ∧ length detections = length done_ ∧
     length targets = length done_ ∧ zip (zip images detections) targets = done_) →
    let '(images, detections, targets) :=
      fold_left (λ (acc : list I * list D * list T) (x : I * D * T),
                   let '(images, detections, targets) := acc in
                   let '(im, det, tar) := x in
                   (images ++ [im], detections ++ [det], targets ++ [tar]))
                batch acc in
    length images = length (done_ ++ batch) ∧
    length detections = length (done_ ++ batch) ∧
    length targets = length (done_ ++ batch) ∧
    zip (zip images detections) targets = done_ ++ batch) as Hgen.
  { induction batch as [|[[im det] tar] batch IH]; intros [[images detections] targets] done_.
    - simpl. by rewrite app_nil_r.
    - intros (Li & Ld & Lt & Hz). simpl.
      specialize (IH (images ++ [im], detections ++ [det], targets ++ [tar])
                     (done_ ++ [(im, det, tar)])).
      rewrite <-app_assoc in IH. apply IH.
      rewrite !length_app. simpl. split_and!; [lia | lia | lia |].
      rewrite !zip_with_app by (rewrite ?length_zip_with; lia). by rewrite Hz. }
  apply (Hgen ([], [], []) []). done.
Qed.

End UtilsFurther.

(** ** Fusion units: construction and shapes *)

Section FusionFurther.
Context {R : Type} `{Scalar R}.

Lemma Forall_zip_with {A B C} (P : A → Prop) (Q : B → Prop) (S : C → Prop)
    (f : A → B → C) (l : list A) (k : list B) :
  (∀ a b, P a → Q b → S (f a b)) →
  Forall P l → Forall Q k → Forall S (zip_with f l k).
Proof.
  intros Hf Hl. revert k. induction Hl as [|a l Ha _ IH]; intros k Hk; [constructor |].
  destruct Hk as [|b k Hb Hk]; simpl; constructor; auto.
Qed.

Lemma length_linear (fc : Linear R) i o x : linear_shape fc i o → length (linear fc x) = o.
Proof. intros (Hw & _ & Hb). unfold linear. rewrite length_zip_with. lia. Qed.

Lemma linear_rows_shape (fc : Linear R) i o n k rows :
  linear_shape fc i o → rows_shape n k rows → rows_shape n o (linear_rows fc rows).
Proof.
  intros Hfc [Hn _]. unfold linear_rows. split; [by rewrite length_fmap |].
  apply Forall_fmap, Forall_forall. intros x _. by eapply length_linear.
Qed.

Lemma relu_rows_shape n k (rows : list (list R)) :
  rows_shape n k rows → rows_shape n k (relu_rows rows).
Proof.
  intros [Hn Hk]. unfold relu_rows. split; [by rewrite length_fmap |].
  apply Forall_fmap. eapply Forall_impl; [done |]. intros x Hx. simpl.
  unfold vrelu. by rewrite length_fmap.
Qed.

Lemma zip_with_rows_shape (f : R → R → R) n k (a b : list (list R)) :
  rows_shape n k a → rows_shape n k b → rows_shape n k (zip_with (zip_with f) a b).
Proof.
  intros [Ha Hka] [Hb Hkb]. split; [rewrite length_zip_with; lia |].
  eapply Forall_zip_with; [|done | done]. simpl. intros x y Hx Hy.
  rewrite length_zip_with. lia.
Qed.

Lemma zip_with_grid_shape (f : R → R → R) n1 n2 k (a b : list (list (list R))) :
  grid_shape n1 n2 k a → grid_shape n1 n2 k b →
  grid_shape n1 n2 k (zip_with (zip_with (zip_with f)) a b).
Proof.
  intros [Ha Hka] [Hb Hkb]. split; [rewrite length_zip_with; lia |].
  eapply Forall_zip_with; [|done | done]. apply zip_with_rows_shape.
Qed.

Lemma linear_grid_shape (fc : Linear R) i o n1 n2 k g :
  linear_shape fc i o → grid_shape n1 n2 k g → grid_shape n1 n2 o (linear_grid fc g).
Proof.
  intros Hfc [Hn Hg]. unfold linear_grid. split; [by rewrite length_fmap |].
  apply Forall_fmap. eapply Forall_impl; [done |]. intros rows Hrows.
  by eapply linear_rows_shape.
Qed.

Lemma relu_grid_shape n1 n2 k (g : list (list (list R))) :
  grid_shape n1 n2 k g → grid_shape n1 n2 k (relu_grid g).
Proof.
  intros [Hn Hg]. unfold relu_grid. split; [by rewrite length_fmap |].
  apply Forall_fmap. eapply Forall_impl; [done |]. intros rows Hrows.
  by apply relu_rows_shape.
Qed.

Lemma replicate_grid_shape n1 n2 k (rows : list (list R)) :
  rows_shape n2 k rows → grid_shape n1 n2 k (replicate n1 rows).
Proof.
  intros Hrows. split; [by rewrite length_replicate |].
  apply Forall_forall. by intros x [-> _]%elem_of_replicate.
Qed.

(** [permute] exchanges the first two dimensions. *)
Lemma permute_grid_shape n1 n2 k (g : list (list (list R))) :
  grid_shape n1 n2 k g → grid_shape n2 n1 k (permute n2 g).
Proof.
  intros [Hn Hg]. unfold permute. split; [by rewrite length_fmap, length_seq |].
  apply Forall_fmap, Forall_forall. intros j [_ Hj]%elem_of_seq. simpl in *.
  split; [by rewrite length_fmap |].
  apply Forall_fmap. eapply Forall_impl; [done |]. intros rows [Hlen Hrows]. simpl.
  destruct (lookup_lt_is_Some_2 rows j) as [v Hv]; [lia |]. rewrite Hv. simpl.
  eapply Forall_forall in Hrows; [done |]. apply list_elem_of_lookup. eauto.
Qed.

Lemma fold_left_shape {A} (P : A → Prop) (add : A → A → A) (ts : list A) (t : A) :
  (∀ x y, P x → P y → P (add x y)) → P t → Forall P ts → P (fold_left add ts t).
Proof.
  intros Hadd Ht Hts. revert t Ht. induction Hts as [|x ts Hx _ IH]; intros t Ht; simpl; auto.
Qed.

Lemma sum_stack_shape {A} (P : A → Prop) (add : A → A → A) (ts : list A) :
  (∀ x y, P x → P y → P (add x y)) → ts ≠ [] → Forall P ts →
  ∃ out, sum_stack add ts = Ok out ∧ P out.
Proof.
  intros Hadd Hne Hts. destruct Hts as [|t ts Ht Hts]; [done |].
  eexists. split; [done |]. by apply fold_left_shape.
Qed.

(** The branches of a unit that the constructor returns. *)
Lemma AttentionHead_init_branches (int_quotient : nat → nat → nat)
    (new_linear : nat → nat → nat → Linear R) a s r c head :
  (∀ k i o, linear_shape (new_linear k i o) i o) →
  AttentionHead_init int_quotient new_linear a s r c = inr head →
  branches head ≠ [] ∧
  Forall (λ fc, linear_shape fc.1.1 a (int_quotient r c) ∧
                linear_shape fc.1.2 s (int_quotient r c) ∧
                linear_shape fc.2 (int_quotient r c) r) (branches head).
Proof.
  intros Hnew. unfold AttentionHead_init.
  destruct (c =? 0) eqn:Hc; [done |]. apply Nat.eqb_neq in Hc.
  cbv zeta. destruct (negb _); [done |]. intros [= <-]. unfold branches. simpl. split.
  - intros Hnil%(f_equal length).
    rewrite !length_zip_with, !length_fmap, !length_seq in Hnil. simpl in Hnil. lia.
  - eapply Forall_zip_with with (P := λ p, linear_shape p.1 a (int_quotient r c) ∧
                                          linear_shape p.2 s (int_quotient r c))
                                (Q := λ fc, linear_shape fc (int_quotient r c) r).
    + by intros [f1 f2] f3 [? ?] ?.
    + eapply Forall_zip_with with (P := λ fc, linear_shape fc a (int_quotient r c))
                                  (Q := λ fc, linear_shape fc s (int_quotient r c));
        [done | |];
        apply Forall_fmap, Forall_forall; intros k _; apply Hnew.
    + apply Forall_fmap, Forall_forall. intros k _. apply Hnew.
Qed.

(** X12. Let [int(representation_size / cardinality)] be the quotient of
    the integer division, as it is when the floating-point division is exact
    (sizes below 2^52).  Then [AttentionHead.__init__] raises
    [ZeroDivisionError] for a cardinality of zero and fails its assertion
    exactly when the cardinality does not divide the representation size;
    otherwise it returns a unit with [cardinality] layers in each of [fc_1],
    [fc_2] and [fc_3]. *)
Theorem AttentionHead_init_divisibility (int_quotient : nat → nat → nat)
    (new_linear : nat → nat → nat → Linear R)
    (appearance_size spatial_size representation_size cardinality : nat) :
  (cardinality ≠ 0 →
   int_quotient representation_size cardinality = representation_size / cardinality) →
  match AttentionHead_init int_quotient new_linear appearance_size spatial_size
          representation_size cardinality with
  | inl ZeroDivisionError => cardinality = 0
  | inl SizeAssertionError =>
      cardinality ≠ 0 ∧ ¬ (cardinality | representation_size)
  | inr head =>
      cardinality ≠ 0 ∧ (cardinality | representation_size) ∧
      length (fc_1 head) = cardinality ∧
      length (fc_2 head) = cardinality ∧
      length (fc_3 head) = cardinality
  end.
Proof.
  intros Hexact. unfold AttentionHead_init.
  destruct (cardinality =? 0) eqn:Hc; [by apply Nat.eqb_eq |]. apply Nat.eqb_neq in Hc.
  cbv zeta. rewrite (Hexact Hc).
  destruct (_ * _ =? _) eqn:Hdiv; simpl.
  - apply Nat.eqb_eq in Hdiv. split_and!; [done | | | |];
      [|by rewrite length_fmap, length_seq ..].
    exists (representation_size / cardinality). done.
  - apply Nat.eqb_neq in Hdiv. split; [done |]. intros [z ->]. apply Hdiv.
    by rewrite Nat.div_mul.
Qed.

(** X13. A unit that the constructor returns maps [n] appearance vectors and
    [n] spatial vectors of the sizes it was built for to [n] vectors of
    [representation_size] features: [forward] does not raise, whatever the
    weights are. *)
Theorem AttentionHead_forward_shape (int_quotient : nat → nat → nat)
    (new_linear : nat → nat → nat → Linear R)
    (appearance_size spatial_size representation_size cardinality : nat)
    (head : AttentionHead R) (appearance spatial : list (list R)) (n : nat) :
  (∀ k i o, linear_shape (new_linear k i o) i o) →
  AttentionHead_init int_quotient new_linear appearance_size spatial_size
    representation_size cardinality
  = inr head →
  rows_shape n appearance_size appearance →
  rows_shape n spatial_size spatial →
  ∃ out, AttentionHead_forward head appearance spatial = Ok out ∧
         rows_shape n representation_size out.
Proof.
  intros Hnew Hinit Ha Hs.
  destruct (AttentionHead_init_branches _ _ _ _ _ _ _ Hnew Hinit) as [Hne Hshape].
  unfold AttentionHead_forward.
  set (branch := λ fc : Linear R * Linear R * Linear R, _).
  assert (Forall (λ fc, ∃ t, branch fc = Ok t ∧ rows_shape n representation_size t)
            (branches head)) as Hbranch.
  { eapply Forall_impl; [done |]. intros [[f1 f2] f3] (H1 & H2 & H3). simpl in *.
    pose proof (linear_rows_shape _ _ _ _ _ _ H1 Ha) as S1.
    pose proof (linear_rows_shape _ _ _ _ _ _ H2 Hs) as S2.
    unfold mul_rows. destruct S1 as [L1 ?], S2 as [L2 ?].
    rewrite L1, L2, Nat.eqb_refl. simpl. eexists. split; [done |].
    eapply linear_rows_shape; [done |]. apply relu_rows_shape.
    by apply zip_with_rows_shape. }
  destruct (mapM_total branch (branches head)) as [ts Hts].
  { eapply Forall_impl; [done |]. intros fc (t & ? & _). eauto. }
  rewrite Hts. simpl.
  destruct (sum_stack_shape (rows_shape n representation_size) (zip_with vadd) ts)
    as (t & Ht & St).
  - intros x y. apply zip_with_rows_shape.
  - apply mapM_Ok, Forall2_length in Hts. destruct ts; [|done].
    by destruct (branches head).
  - apply mapM_Ok in Hts. apply Forall_forall. intros t (k & Hk)%list_elem_of_lookup.
    destruct (Forall2_lookup_r _ _ _ _ _ Hts Hk) as (fc & Hfc & Hb).
    eapply Forall_lookup_1 in Hbranch as (t' & Ht' & St'); [|done]. congruence.
  - rewrite Ht. simpl. eexists. split; [done |]. by apply relu_rows_shape.
Qed.

(** The grids that the branches of a broadcast unit compute have one shape,
    and so has their sum. *)
Lemma sum_stack_grids {A} (f : A → list (list (list R))) (l : list A) n1 n2 k :
  l ≠ [] →
  Forall (λ a, grid_shape n1 n2 k (f a)) l →
  ∃ out, sum_stack add_grid (f <$> l) = Ok out ∧ grid_shape n1 n2 k out.
Proof.
  intros Hne Hl. apply sum_stack_shape.
  - intros x y. apply zip_with_grid_shape.
  - by destruct l.
  - by apply Forall_fmap.
Qed.

(** X14. A broadcast unit for human nodes, built by the two constructors,
    takes the appearance of the [n_h] humans and an [n_h] by [n] grid of
    spatial vectors.  It fails its assertion when the appearance has another
    number of rows, and otherwise returns an [n] by [n_h] grid of vectors of
    [representation_size] features. *)
Theorem forward_human_nodes_shape (int_quotient : nat → nat → nat)
    (new_linear : nat → nat → nat → Linear R)
    (appearance_size spatial_size representation_size cardinality : nat)
    (head : AttentionHead R) (unit : MessageAttentionHead R)
    (appearance : list (list R)) (spatial : tensor3 R) (n_h n : nat) :
  (∀ k i o, linear_shape (new_linear k i o) i o) →
  AttentionHead_init int_quotient new_linear appearance_size spatial_size
    representation_size cardinality
  = inr head →
  MessageAttentionHead_init head "human" = Ok unit →
  grid_shape n_h n spatial_size (t3_cells spatial) →
  t3_dim1 spatial = n →
  (length appearance ≠ n_h →
   MessageAttentionHead_forward unit appearance spatial = Raise AssertionError) ∧
  (rows_shape n_h appearance_size appearance →
   ∃ out, MessageAttentionHead_forward unit appearance spatial = Ok out ∧
          grid_shape n n_h representation_size out).
Proof.
  intros Hnew Hinit [= <-] Hs Hn.
  destruct (AttentionHead_init_branches _ _ _ _ _ _ _ Hnew Hinit) as [Hne Hshape].
  unfold MessageAttentionHead_forward, MessageAttentionHead_forward_human_nodes. simpl.
  rewrite Hn, (proj1 Hs). split.
  - intros Hlen%Nat.eqb_neq. by rewrite Hlen.
  - intros Ha. rewrite (proj1 Ha), Nat.eqb_refl. simpl.
    apply sum_stack_grids; [done |].
    eapply Forall_impl; [done |]. intros [[f1 f2] f3] (H1 & H2 & H3). simpl in *.
    eapply linear_grid_shape; [done |]. apply relu_grid_shape.
    apply zip_with_grid_shape.
    + apply replicate_grid_shape. by eapply linear_rows_shape.
    + apply permute_grid_shape. by eapply linear_grid_shape.
Qed.

(** X15. A broadcast unit for object nodes takes the appearance of the [n]
    detections and an [n_h] by [n] grid of spatial vectors.  It fails its
    assertion when the appearance has another number of rows, and otherwise
    returns an [n_h] by [n] grid of vectors of [representation_size]
    features. *)
Theorem forward_object_nodes_shape (int_quotient : nat → nat → nat)
    (new_linear : nat → nat → nat → Linear R)
    (appearance_size spatial_size representation_size cardinality : nat)
    (head : AttentionHead R) (unit : MessageAttentionHead R)
    (appearance : list (list R)) (spatial : tensor3 R) (n_h n : nat) :
  (∀ k i o, linear_shape (new_linear k i o) i o) →
  AttentionHead_init int_quotient new_linear appearance_size spatial_size
    representation_size cardinality
  = inr head →
  MessageAttentionHead_init head "object" = Ok unit →
  grid_shape n_h n spatial_size (t3_cells spatial) →
  t3_dim1 spatial = n →
  (length appearance ≠ n →
   MessageAttentionHead_forward unit appearance spatial = Raise AssertionError) ∧
  (rows_shape n appearance_size appearance →
   ∃ out, MessageAttentionHead_forward unit appearance spatial = Ok out ∧
          grid_shape n_h n representation_size out).
Proof.
  intros Hnew Hinit [= <-] Hs Hn.
  destruct (AttentionHead_init_branches _ _ _ _ _ _ _ Hnew Hinit) as [Hne Hshape].
  unfold MessageAttentionHead_forward, MessageAttentionHead_forward_object_nodes. simpl.
  rewrite Hn, (proj1 Hs). split.
  - intros Hlen%Nat.eqb_neq. by rewrite Hlen.
  - intros Ha. rewrite (proj1 Ha), Nat.eqb_refl. simpl.
    apply sum_stack_grids; [done |].
    eapply Forall_impl; [done |]. intros [[f1 f2] f3] (H1 & H2 & H3). simpl in *.
    eapply linear_grid_shape; [done |]. apply relu_grid_shape.
    apply zip_with_grid_shape.
    + apply replicate_grid_shape. by eapply linear_rows_shape.
    + by eapply linear_grid_shape.
Qed.

End FusionFurther.

(** ** Postprocessing: the other keys of a result *)

Section PostprocessFurther.
Context {R : Type} `{Scalar R} `{Torch R}.
Implicit Types (t w s l : tensor2 R) (r : Result R).

(** A chunk of a split has as many rows as its size says. *)
Lemma length_chunk {A} (sizes : list nat) (rows : list A) b k chunk :
  sum_list sizes ≤ length rows →
  sizes !! b = Some k →
  chunks sizes rows !! b = Some chunk →
  length chunk = k.
Proof.
  revert rows b. induction sizes as [|n sizes IH]; intros rows b Hsum; [done |].
  simpl in Hsum. destruct b as [|b]; simpl.
  - intros [= <-] [= <-]. rewrite length_take. lia.
  - apply IH. rewrite length_drop. lia.
Qed.

Lemma split_rows t sizes ts b k chunk :
  split t sizes = Ok ts → sizes !! b = Some k → ts !! b = Some chunk →
  length (t_rows chunk) = k.
Proof.
  unfold split. destruct (_ =? _) eqn:Hsum; [|done]. apply Nat.eqb_eq in Hsum.
  intros [= <-] Hk. rewrite list_lookup_fmap.
  destruct (chunks _ _ !! b) as [rows|] eqn:Hb; [|done]. intros [= <-]. simpl.
  eapply length_chunk; [|done | done]. lia.
Qed.

(** The image that a result of [postprocess] is computed from. *)
Lemma postprocess_lookup (logits_p logits_s : tensor2 R)
    (prior : list (tensor2 R * tensor2 R)) (boxes_h boxes_o : list (list (box R)))
    (object_class : list (list nat)) (labels : list (tensor2 R))
    (results : list (Result R)) b r :
  postprocess logits_p logits_s prior boxes_h boxes_o object_class labels = Ok results →
  results !! b = Some r →
  ∃ ws ss w s p bh bo o lab,
    split (sigmoid2 logits_s) (length <$> boxes_h) = Ok ws ∧
    split (sigmoid2 logits_p) (length <$> boxes_h) = Ok ss ∧
    ws !! b = Some w ∧ ss !! b = Some s ∧ prior !! b = Some p ∧
    boxes_h !! b = Some bh ∧ boxes_o !! b = Some bo ∧ object_class !! b = Some o ∧
    default_labels labels (length <$> boxes_h) !! b = Some lab ∧
    length (t_rows w) = length bh ∧ length (t_rows s) = length bh ∧
    postprocess_image w s p bh bo o lab = Ok r.
Proof.
  unfold postprocess. cbv zeta.
  intros (ws & Hws & Hrest)%bind_Ok.
  apply bind_Ok in Hrest as (ss & Hss & Hres). apply mapM_Ok in Hres. intros Hr.
  destruct (Forall2_lookup_r _ _ _ _ _ Hres Hr) as ([[[[[[w s] p] bh] bo] o] l] & Hz & Himg).
  apply lookup_zip_with_Some in Hz as (z5 & ? & [= <- <-] & Hz & Hl).
  apply lookup_zip_with_Some in Hz as (z4 & ? & [= <- <-] & Hz & Ho).
  apply lookup_zip_with_Some in Hz as (z3 & ? & [= <- <-] & Hz & Hbo).
  apply lookup_zip_with_Some in Hz as (z2 & ? & [= <- <-] & Hz & Hbh).
  apply lookup_zip_with_Some in Hz as (z1 & ? & [= <- <-] & Hz & Hp).
  apply lookup_zip_with_Some in Hz as (? & ? & [= <- <-] & Hw & Hs).
  assert ((length <$> boxes_h) !! b = Some (length bh)) as Hk
    by (by rewrite list_lookup_fmap, Hbh).
  exists ws, ss, w, s, p, bh, bo, o, l. split_and!; try done.
  - exact (split_rows _ _ _ _ _ _ Hws Hk Hw).
  - exact (split_rows _ _ _ _ _ _ Hss Hk Hs).
Qed.

Lemma postprocess_image_fields w s (p : tensor2 R * tensor2 R) b_h b_o o lab r :
  postprocess_image w s p b_h b_o o lab = Ok r →
  ∃ sxy ox ar weights,
    index2 s (nonzero2 s_nonzero (t_rows p.1)) = Ok sxy ∧
    gather o (nonzero2 s_nonzero (t_rows p.1)).*1 = Ok ox ∧
    broadcast_indices (seq 0 (length (t_rows w))) o = Ok ar ∧
    index2 w ar = Ok weights ∧
    r_boxes_h r = b_h ∧ r_boxes_o r = b_o ∧ r_object r = o ∧
    r_index r = (nonzero2 s_nonzero (t_rows p.1)).*1 ∧
    r_prediction r = (nonzero2 s_nonzero (t_rows p.1)).*2 ∧
    r_weights r = weights ∧
    match lab with
    | None => r_labels r = None ∧ r_binary_labels r = None
    | Some l =>
        ∃ lxy, index2 l (nonzero2 s_nonzero (t_rows p.1)) = Ok lxy ∧
               r_labels r = Some lxy ∧ r_binary_labels r = Some (sum_clamp l)
    end.
Proof.
  unfold postprocess_image. cbv zeta. set (xy := nonzero2 _ _).
  intros (sxy & Hs & Hrest)%bind_Ok.
  apply bind_Ok in Hrest as (ph & Hph & Hrest).
  apply bind_Ok in Hrest as (po & Hpo & Hrest).
  apply bind_Ok in Hrest as (ox & Hox & Hrest).
  apply bind_Ok in Hrest as (wxo & Hw & Hrest).
  apply bind_Ok in Hrest as (ar & Har & Hrest).
  apply bind_Ok in Hrest as (weights & Hweights & Hrest).
  exists sxy, ox, ar, weights. destruct lab as [l|].
  - apply bind_Ok in Hrest as (lxy & Hlxy & [= <-]). simpl.
    split_and!; try done. by exists lxy.
  - injection Hrest as <-. simpl. split_and!; done.
Qed.

(** X16. A result of [postprocess] carries the human boxes, the object
    boxes and the object classes of its image unchanged, and every entry of
    its [index] is a valid position in [boxes_h] and in [object]: reading the
    human box and the object class of a prediction never goes out of
    range. *)
Theorem postprocess_index_in_range (logits_p logits_s : tensor2 R)
    (prior : list (tensor2 R * tensor2 R)) (boxes_h boxes_o : list (list (box R)))
    (object_class : list (list nat)) (labels : list (tensor2 R))
    (results : list (Result R)) (b : nat) (r : Result R) :
  postprocess logits_p logits_s prior boxes_h boxes_o object_class labels = Ok results →
  results !! b = Some r →
  boxes_h !! b = Some (r_boxes_h r) ∧
  boxes_o !! b = Some (r_boxes_o r) ∧
  object_class !! b = Some (r_object r) ∧
  Forall (λ x, x < length (r_boxes_h r) ∧ x < length (r_object r)) (r_index r).
Proof.
  intros Hpost Hr.
  destruct (postprocess_lookup _ _ _ _ _ _ _ _ _ _ Hpost Hr)
    as (ws & ss & w & s & p & bh & bo & o & l & _ & _ & _ & _ & _ & Hbh & Hbo & Ho & _
        & _ & Ls & Himg).
  destruct (postprocess_image_fields _ _ _ _ _ _ _ _ Himg)
    as (sxy & ox & ar & weights & Hs & Hox & _ & _ & -> & -> & -> & -> & _).
  split_and!; [done | done | done |].
  apply Forall_forall. intros x (k & Hk)%list_elem_of_lookup.
  apply list_lookup_fmap_Some in Hk as ([x' y] & -> & Hk). simpl. split.
  - destruct (index2_lookup _ _ _ _ _ _ Hs Hk) as (v & _ & (row & Hrow & _)%at2_Ok).
    rewrite <-Ls. by eapply lookup_lt_Some.
  - assert ((nonzero2 s_nonzero (t_rows p.1)).*1 !! k = Some x') as Hx
      by (by rewrite list_lookup_fmap, Hk).
    destruct (gather_lookup _ _ _ _ _ Hox Hx) as (c & _ & Hc). by eapply lookup_lt_Some.
Qed.

(** X17. When an image has as many object classes as pairs, the [weights]
    of its result hold one entry per pair: the sigmoid of the suppressor
    logit of the pair at the object class of the pair. *)
Theorem postprocess_weights (logits_p logits_s : tensor2 R)
    (prior : list (tensor2 R * tensor2 R)) (boxes_h boxes_o : list (list (box R)))
    (object_class : list (list nat)) (labels : list (tensor2 R))
    (results : list (Result R)) (b : nat) (r : Result R) :
  postprocess logits_p logits_s prior boxes_h boxes_o object_class labels = Ok results →
  results !! b = Some r →
  length (r_object r) = length (r_boxes_h r) →
  length (r_weights r) = length (r_boxes_h r) ∧
  ∀ i c, r_object r !! i = Some c →
    ∃ ls, at2 logits_s (sum_list (take b (length <$> boxes_h)) + i) c = Ok ls ∧
          r_weights r !! i = Some (s_sigmoid ls).
Proof.
  intros Hpost Hr.
  destruct (postprocess_lookup _ _ _ _ _ _ _ _ _ _ Hpost Hr)
    as (ws & ss & w & s & p & bh & bo & o & l & Hws & _ & Hw & _ & _ & _ & _ & _ & _
        & Lw & _ & Himg).
  destruct (postprocess_image_fields _ _ _ _ _ _ _ _ Himg)
    as (sxy & ox & ar & weights & _ & _ & Har & Hweights & -> & _ & -> & _ & _ & -> & _).
  intros Hlen. unfold broadcast_indices in Har.
  rewrite length_seq, Lw, <-Hlen, Nat.eqb_refl in Har. injection Har as <-.
  pose proof (index2_length _ _ _ Hweights) as Lweights.
  rewrite length_zip_with, length_seq in Lweights. split; [lia |].
  intros i c Hc.
  assert (zip (seq 0 (length o)) o !! i = Some (i, c)) as Hi.
  { apply lookup_zip_with_Some. exists i, c. split_and!; [done | | done].
    apply lookup_seq. split; [done |]. apply lookup_lt_Some in Hc. lia. }
  destruct (index2_lookup _ _ _ _ _ _ Hweights Hi) as (v & Hv & Hat).
  destruct (at2_sigmoid2 _ _ _ _ (split_lookup _ _ _ _ _ _ _ _ Hws Hw Hat)) as (ls & Hls & ->).
  eauto.
Qed.

(** X18. Without labels (an empty list) no result of [postprocess] has the
    keys [labels] and [binary_labels].  With labels, the result of an image
    has both: [labels] holds the label of each retained (index, prediction)
    entry, and [binary_labels] holds for each pair the sum of its labels
    clamped to one. *)
Theorem postprocess_labels (logits_p logits_s : tensor2 R)
    (prior : list (tensor2 R * tensor2 R)) (boxes_h boxes_o : list (list (box R)))
    (object_class : list (list nat)) (labels : list (tensor2 R))
    (results : list (Result R)) (b : nat) (r : Result R) :
  postprocess logits_p logits_s prior boxes_h boxes_o object_class labels = Ok results →
  results !! b = Some r →
  match labels with
  | [] => r_labels r = None ∧ r_binary_labels r = None
  | _ =>
      ∃ l lxy,
        labels !! b = Some l ∧
        r_labels r = Some lxy ∧
        length lxy = length (r_index r) ∧
        (∀ k x y, r_index r !! k = Some x → r_prediction r !! k = Some y →
                  ∃ v, at2 l x y = Ok v ∧ lxy !! k = Some v) ∧
        r_binary_labels r
        = Some ((λ row, s_min (fold_left s_add row s_zero) s_one) <$> t_rows l)
  end.
Proof.
  intros Hpost Hr.
  destruct (postprocess_lookup _ _ _ _ _ _ _ _ _ _ Hpost Hr)
    as (ws & ss & w & s & p & bh & bo & o & lab & _ & _ & _ & _ & _ & _ & _ & _ & Hlab
        & _ & _ & Himg).
  destruct (postprocess_image_fields _ _ _ _ _ _ _ _ Himg)
    as (sxy & ox & ar & weights & _ & _ & _ & _ & _ & _ & _ & Hi & Hp & _ & Hl).
  unfold default_labels in Hlab. destruct labels as [|l0 labels].
  - simpl in Hlab. apply lookup_replicate in Hlab as [-> _]. done.
  - cbn [length Nat.eqb] in Hlab. apply list_lookup_fmap_Some in Hlab as (l & -> & Hlb).
    destruct Hl as (lxy & Hlxy & Hrl & Hrb).
    exists l, lxy. split_and!; [done | done | | | done].
    + by rewrite (index2_length _ _ _ Hlxy), Hi, length_fmap.
    + intros k x y Hx Hy.
      assert (nonzero2 s_nonzero (t_rows p.1) !! k = Some (x, y)) as Hk.
      { rewrite Hi, list_lookup_fmap in Hx. rewrite Hp, list_lookup_fmap in Hy.
        destruct (nonzero2 _ _ !! k) as [[x' y']|]; [|done]. simpl in *. congruence. }
      destruct (index2_lookup _ _ _ _ _ _ Hlxy Hk) as (v & ? & ?). eauto.
Qed.

Lemma mapM_getitem_raise {A B} (key : Result R → option B) (val : Result R → A) results :
  Exists (λ r, key r = None) results →
  mapM (λ r, l ← getitem (key r); Ok (val r, l)) results = Raise KeyError.
Proof.
  induction 1 as [r results Hr|r results _ IH];
    change (mapM ?f (r :: results)) with (f r ≫= λ a, mapM f results ≫= λ k, mret (a :: k)).
  - cbv beta. by rewrite Hr.
  - cbv beta. rewrite IH. by destruct (key r).
Qed.

(** X19. The results that [postprocess] returns without labels cannot be
    given to the loss functions: on a batch with at least one image both
    raise [KeyError]. *)
Theorem losses_need_labels (self : InteractionHead R) (env : DistEnv)
    (logits_p logits_s : tensor2 R)
    (prior : list (tensor2 R * tensor2 R)) (boxes_h boxes_o : list (list (box R)))
    (object_class : list (list nat)) (results : list (Result R)) :
  postprocess logits_p logits_s prior boxes_h boxes_o object_class [] = Ok results →
  results ≠ [] →
  compute_interaction_classification_loss self env results = Raise KeyError ∧
  compute_interactiveness_loss self env results = Raise KeyError.
Proof.
  intros Hpost Hne. destruct results as [|r results]; [done |].
  destruct (postprocess_lookup _ _ _ _ _ _ _ _ 0 r Hpost eq_refl)
    as (ws & ss & w & s & p & bh & bo & o & lab & _ & _ & _ & _ & _ & _ & _ & _ & Hlab
        & _ & _ & Himg).
  destruct (postprocess_image_fields _ _ _ _ _ _ _ _ Himg)
    as (sxy & ox & ar & weights & _ & _ & _ & _ & _ & _ & _ & _ & _ & _ & Hl).
  unfold default_labels in Hlab. simpl in Hlab. apply lookup_replicate in Hlab as [-> _].
  destruct Hl as [Hl Hb].
  unfold compute_interaction_classification_loss, compute_interactiveness_loss.
  rewrite !mapM_getitem_raise; [done | by left | by left].
Qed.

End PostprocessFurther.

(** ** [GraphHead.forward]: the per-image outputs agree *)

Section AlignedFurther.
Context {R F : Type} `{Scalar R} `{Torch R}.
Implicit Types (self : GraphHead R F) (st : LoopState R) (o : GraphOut R).

Lemma compute_prior_scores_shape self x y scores object_class prior_h prior_o :
  compute_prior_scores self x y scores object_class = Ok (prior_h, prior_o) →
  shape2 prior_h = (length x, num_cls self) ∧ shape2 prior_o = (length x, num_cls self).
Proof.
  unfold compute_prior_scores. cbv zeta.
  intros (sx & _ & Hrest)%bind_Ok.
  apply bind_Ok in Hrest as (sy & _ & Hrest).
  apply bind_Ok in Hrest as (oc & _ & Hrest).
  apply bind_Ok in Hrest as (tcs & _ & Hrest).
  apply bind_Ok in Hrest as (vh & _ & Hrest).
  apply bind_Ok in Hrest as (ph & Hph & Hrest).
  apply bind_Ok in Hrest as (vo & _ & Hrest).
  apply bind_Ok in Hrest as (po & Hpo & [= <- <-]).
  rewrite (index_put2_shape _ _ _ _ Hph), (index_put2_shape _ _ _ _ Hpo).
  unfold shape2. simpl. by rewrite length_replicate.
Qed.

Lemma associate_with_ground_truth_shape self boxes_h boxes_o target t :
  associate_with_ground_truth self boxes_h boxes_o target = Ok t →
  shape2 t = (length boxes_h, num_cls self).
Proof.
  unfold associate_with_ground_truth. cbv zeta. intros (m & _ & Hrest)%bind_Ok.
  apply bind_Ok in Hrest as (tl & _ & Hput).
  rewrite (index_put2_shape _ _ _ _ Hput). unfold shape2. simpl.
  by rewrite length_replicate.
Qed.

Lemma forward_image_rows_per_pair self features image_shapes box_features targets b_idx
    coords labels scores st st' :
  forward_image self features image_shapes box_features targets b_idx coords labels scores st
  = Ok st' →
  rows_per_pair self (bool_decide (is_Some targets)) (outputs st) →
  rows_per_pair self (bool_decide (is_Some targets)) (outputs st').
Proof.
  intros Hfwd (Hbo & Hoc & Hp & Hl).
  destruct (skip_image self coords labels) eqn:Hskip.
  - rewrite forward_image_skipped in Hfwd by done. injection Hfwd as <-.
    unfold rows_per_pair. simpl. split_and!.
    + apply Forall2_app; [done | by constructor].
    + apply Forall2_app; [done | by constructor].
    + apply Forall2_app; [done |]. constructor; [|done]. simpl.
      unfold shape2. simpl. done.
    + intros Ht. apply Forall2_app; [by apply Hl |]. by constructor.
  - pose proof Hfwd as Hfwd'.
    eapply forward_image_processed in Hfwd
      as (feats & bh & bo & oc & [ph po] & nl & Hbh & Hbo' & Hoc' & Hprior & Hnl & ->);
      [|done].
    pose proof (gather_length _ _ _ Hbh) as Lbh.
    pose proof (gather_length _ _ _ Hbo') as Lbo.
    pose proof (gather_length _ _ _ Hoc') as Loc.
    rewrite length_fmap in Lbh, Lbo, Loc.
    apply compute_prior_scores_shape in Hprior as [Sh So]. rewrite length_fmap in Sh, So.
    unfold rows_per_pair. simpl. split_and!.
    + apply Forall2_app; [done |]. constructor; [lia | done].
    + apply Forall2_app; [done |]. constructor; [lia | done].
    + apply Forall2_app; [done |]. constructor; [|done]. simpl. by rewrite Lbh.
    + intros Ht. destruct targets as [ts|]; [|done].
      apply forward_image_labels in Hfwd' as (l & Hl' & Hcase). simpl in Hl'.
      apply app_inv_head in Hl' as ->. rewrite Hskip in Hcase.
      destruct Hcase as (bh' & bo' & target & Hbh' & _ & _ & Hassoc).
      apply associate_with_ground_truth_shape in Hassoc.
      apply Forall2_app; [by apply Hl |]. constructor; [|done].
      rewrite Hassoc, (gather_length _ _ _ Hbh'), length_fmap. by rewrite Lbh.
Qed.

Lemma forward_loop_rows_per_pair self features image_shapes box_features targets b_idx
    images st st' :
  forward_loop self features image_shapes box_features targets b_idx images st = Ok st' →
  rows_per_pair self (bool_decide (is_Some targets)) (outputs st) →
  rows_per_pair self (bool_decide (is_Some targets)) (outputs st').
Proof.
  revert b_idx st. induction images as [|[[coords labels] scores] images IH]; intros b_idx st.
  - by intros [= <-].
  - rewrite forward_loop_cons. intros (st1 & H1 & Hrest)%bind_Ok Hst.
    eapply IH; [done |]. by eapply forward_image_rows_per_pair.
Qed.

Lemma GraphHead_forward_loop self features image_shapes box_features
    box_coords box_labels box_scores targets out :
  GraphHead_forward self features image_shapes box_features
    box_coords box_labels box_scores targets = Ok out →
  ∃ st,
    forward_loop self features image_shapes (box_head self box_features) targets 0
      (zip (zip box_coords box_labels) box_scores) initial_state = Ok st ∧
    out = outputs st.
Proof.
  unfold GraphHead_forward. destruct (_ && _); [done |]. cbv zeta.
  intros (st & Hloop & [= <-])%bind_Ok. eauto.
Qed.

Lemma GraphHead_forward_rows_per_pair self features image_shapes box_features
    box_coords box_labels box_scores targets out :
  GraphHead_forward self features image_shapes box_features
    box_coords box_labels box_scores targets = Ok out →
  rows_per_pair self (bool_decide (is_Some targets)) out.
Proof.
  intros (st & Hloop & ->)%GraphHead_forward_loop.
  eapply forward_loop_rows_per_pair; [done |].
  unfold rows_per_pair. simpl. split_and!; by constructor.
Qed.

(** X20. For every image of the batch, skipped or not, the outputs of
    [GraphHead.forward] agree on the number of pairs: as many object boxes and
    object classes as human boxes, and one row of [num_cls] entries per pair
    in the two priors and, with targets, in the labels. *)
Theorem GraphHead_forward_one_row_per_pair self features image_shapes box_features
    box_coords box_labels box_scores targets out (i : nat) (bh : list (box R)) :
  GraphHead_forward self features image_shapes box_features
    box_coords box_labels box_scores targets = Ok out →
  all_boxes_h out !! i = Some bh →
  ∃ bo oc prior_h prior_o,
    all_boxes_o out !! i = Some bo ∧ length bo = length bh ∧
    all_object_class out !! i = Some oc ∧ length oc = length bh ∧
    all_prior out !! i = Some (prior_h, prior_o) ∧
    shape2 prior_h = (length bh, num_cls self) ∧
    shape2 prior_o = (length bh, num_cls self) ∧
    (is_Some targets →
     ∃ l, all_labels out !! i = Some l ∧ shape2 l = (length bh, num_cls self)).
Proof.
  intros (Hbo & Hoc & Hp & Hl)%GraphHead_forward_rows_per_pair Hbh.
  destruct (Forall2_lookup_l _ _ _ _ _ Hbo Hbh) as (bo & ? & ?).
  destruct (Forall2_lookup_l _ _ _ _ _ Hoc Hbh) as (oc & ? & ?).
  destruct (Forall2_lookup_l _ _ _ _ _ Hp Hbh) as ([ph po] & ? & ? & ?).
  exists bo, oc, ph, po. split_and!; try done.
  intros Ht. rewrite bool_decide_eq_true in Hl.
  destruct (Forall2_lookup_l _ _ _ _ _ (Hl Ht) Hbh) as (l & ? & ?). eauto.
Qed.

End AlignedFurther.

(** ** [InteractionHead.preprocess] and [InteractionHead.forward] on a batch *)

Section ForwardFurther.
Context {R F : Type} `{Scalar R} `{Torch R}.

Lemma bind_Raise {A B} (m : result A) (f : A → result B) e :
  m ≫= f = Raise e ↔ m = Raise e ∨ ∃ a, m = Ok a ∧ f a = Raise e.
Proof.
  destruct m; simpl; split; [eauto | | intros [= ->]; eauto |].
  - by intros [? | (? & [= ->] & ?)].
  - intros [? | (? & ? & ?)]; congruence.
Qed.

Lemma mapM_cons {A B} (f : A → result B) a l :
  mapM f (a :: l) = f a ≫= λ b, mapM f l ≫= λ k, Ok (b :: k).
Proof. done. Qed.

Lemma mapM_Raise {A B} (f : A → result B) l e :
  mapM f l = Raise e → ∃ a, a ∈ l ∧ f a = Raise e.
Proof.
  induction l as [|a l IH]; [done |]. rewrite mapM_cons.
  intros [Ha | (b & _ & [Hl | (k & _ & ?)]%bind_Raise)]%bind_Raise; [| | done].
  - exists a. split; [left | done].
  - destruct (IH Hl) as (a' & ? & ?). exists a'. split; [by right | done].
Qed.

(** The first exception wins; when only one exception is possible, an
    element that raises it decides the result. *)
Lemma mapM_raises {A B} (f : A → result B) l e :
  Forall (λ a, ∀ e', f a = Raise e' → e' = e) l →
  Exists (λ a, f a = Raise e) l →
  mapM f l = Raise e.
Proof.
  intros Hall Hex. destruct (mapM f l) as [k|e'] eqn:Hm.
  - apply mapM_Ok in Hm. apply Exists_exists in Hex as (a & (i & Hi)%list_elem_of_lookup & Ha).
    destruct (Forall2_lookup_l _ _ _ _ _ Hm Hi) as (b & _ & Hb). congruence.
  - apply mapM_Raise in Hm as (a & Hin & Ha).
    eapply Forall_forall in Hall; [|done]. by rewrite (Hall _ Ha).
Qed.

Lemma gather_Raise {A} (l : list A) idx e : gather l idx = Raise e → e = IndexError.
Proof.
  intros (i & _ & Hi)%mapM_Raise. unfold index in Hi. destruct (l !! i); congruence.
Qed.

(** With a list of targets, the loop body of [preprocess] raises nothing
    but [IndexError]. *)
Lemma preprocess_image_Raise (self : InteractionHead R) append_gt ts b_idx detection e :
  preprocess_image self append_gt (Some ts) b_idx detection = Raise e → e = IndexError.
Proof.
  unfold preprocess_image, append_ground_truth, suppress, sort_by_score, keep_fixed_number,
    subscript.
  intros Hr.
  repeat match goal with
         | Hx : _ ≫= _ = Raise _ |- _ => apply bind_Raise in Hx as [Hx | (? & _ & Hx)]
         | Hx : gather _ _ = Raise _ |- _ => by apply gather_Raise in Hx
         | Hx : (if ?c then _ else _) = Raise _ |- _ => destruct c
         | Hx : index _ _ = Raise _ |- _ =>
             unfold index in Hx; destruct (_ !! _); congruence
         | Hx : Ok _ = Raise _ |- _ => discriminate Hx
         end.
Qed.

Lemma preprocess_length (self : InteractionHead R) detections targets append_gt out :
  preprocess self detections targets append_gt = Ok out → length out = length detections.
Proof.
  unfold preprocess. cbv zeta. intros Hm%mapM_Ok%Forall2_length.
  rewrite length_zip_with, length_seq in Hm. lia.
Qed.

(** X21. [preprocess] cannot append ground truth that it is not given.  When
    ground truth is to be appended ([append_gt], or the training flag in its
    absence), a batch with at least one image raises [TypeError] without
    targets, and [IndexError] with fewer targets than images. *)
Theorem preprocess_missing_targets (self : InteractionHead R)
    (detections : list (Detection R)) (append_gt : option bool) :
  default (training self) append_gt = true →
  (detections ≠ [] → preprocess self detections None append_gt = Raise TypeError) ∧
  (∀ ts, length ts < length detections →
         preprocess self detections (Some ts) append_gt = Raise IndexError).
Proof.
  intros Hgt. unfold preprocess. cbv zeta. rewrite Hgt. split.
  - destruct detections as [|d detections]; [done |]. intros _. done.
  - intros ts Hlen. apply mapM_raises.
    + apply Forall_forall. intros [b d] _ e. apply preprocess_image_Raise.
    + destruct (lookup_lt_is_Some_2 detections (length ts) Hlen) as [d Hd].
      apply Exists_exists. exists (length ts, d). split.
      * apply list_elem_of_lookup. exists (length ts). apply lookup_zip_with_Some.
        exists (length ts), d. split_and!; [done | | done].
        apply lookup_seq. split; [done | lia].
      * simpl. unfold preprocess_image, append_ground_truth, subscript, index.
        by rewrite lookup_ge_None_2.
Qed.

Lemma postprocess_length (logits_p logits_s : tensor2 R)
    (prior : list (tensor2 R * tensor2 R)) (boxes_h boxes_o : list (list (box R)))
    (object_class : list (list nat)) (labels : list (tensor2 R))
    (results : list (Result R)) :
  postprocess logits_p logits_s prior boxes_h boxes_o object_class labels = Ok results →
  length results
  = Nat.min (Nat.min (Nat.min (Nat.min (length boxes_h) (length prior)) (length boxes_o))
               (length object_class))
      (length (default_labels labels (length <$> boxes_h))).
Proof.
  unfold postprocess. cbv zeta.
  intros (ws & Hws & Hrest)%bind_Ok.
  apply bind_Ok in Hrest as (ss & Hss & Hres). apply mapM_Ok in Hres.
  rewrite <-(Forall2_length _ _ _ Hres), !length_zip_with.
  rewrite (length_split _ _ _ Hws), (length_split _ _ _ Hss), length_fmap. lia.
Qed.

Lemma index2_Raise (t : tensor2 R) xy e : index2 t xy = Raise e → e = IndexError.
Proof.
  intros ([x y] & _ & Hat)%mapM_Raise. unfold at2, index in Hat. simpl in Hat.
  destruct (t_rows t !! x) as [row|]; simpl in Hat; [|congruence].
  destruct (row !! y); congruence.
Qed.

Lemma broadcast_indices_Raise a b e : broadcast_indices a b = Raise e → e = IndexError.
Proof.
  unfold broadcast_indices. destruct (_ =? _); [done |].
  destruct a as [|? [|? ?]], b as [|? [|? ?]]; congruence.
Qed.

(** The loop body of [postprocess] raises nothing but [IndexError]. *)
Lemma postprocess_image_Raise (w s : tensor2 R) (p : tensor2 R * tensor2 R) b_h b_o o lab e :
  postprocess_image w s p b_h b_o o lab = Raise e → e = IndexError.
Proof.
  unfold postprocess_image. cbv zeta. intros Hr.
  repeat match goal with
         | Hx : _ ≫= _ = Raise _ |- _ => apply bind_Raise in Hx as [Hx | (? & _ & Hx)]
         | Hx : gather _ _ = Raise _ |- _ => by apply gather_Raise in Hx
         | Hx : index2 _ _ = Raise _ |- _ => by apply index2_Raise in Hx
         | Hx : broadcast_indices _ _ = Raise _ |- _ => by apply broadcast_indices_Raise in Hx
         | Hx : match ?l with Some _ => _ | None => _ end = Raise _ |- _ => destruct l
         | Hx : Ok _ = Raise _ |- _ => discriminate Hx
         end.
Qed.

(** X26. [postprocess] raises [IndexError] when the labels of some image
    have no row although the image has a non-zero human prior (the logits
    having one row per pair of the batch).  This is what the labels list of a
    batch without targets leads to, when the list holds an entry of zero rows
    at the position of an image that was not skipped. *)
Theorem labels_without_rows_raise (logits_p logits_s : tensor2 R)
    (prior : list (tensor2 R * tensor2 R)) (boxes_h boxes_o : list (list (box R)))
    (object_class : list (list nat)) (labels : list (tensor2 R))
    (b : nat) (p : tensor2 R * tensor2 R) (l : tensor2 R) (x y : nat) (v : R) :
  sum_list (length <$> boxes_h) = length (t_rows logits_s) →
  sum_list (length <$> boxes_h) = length (t_rows logits_p) →
  b < length boxes_h → b < length boxes_o → b < length object_class →
  prior !! b = Some p →
  labels !! b = Some l →
  t_rows l = [] →
  at2 p.1 x y = Ok v → s_nonzero v = true →
  postprocess logits_p logits_s prior boxes_h boxes_o object_class labels
  = Raise IndexError.
Proof.
  intros Hs Hp Lbh Lbo Loc Hprior Hl Hrows Hat Hnz. unfold postprocess. cbv zeta.
  assert (∀ t, sum_list (length <$> boxes_h) = length (t_rows t) →
            split (sigmoid2 t) (length <$> boxes_h)
            = Ok (T2 (t_cols t) <$> chunks (length <$> boxes_h) (t_rows (sigmoid2 t))))
    as Hsplit.
  { intros t Ht. unfold split. simpl. by rewrite length_fmap, Ht, Nat.eqb_refl. }
  rewrite (Hsplit _ Hs), (Hsplit _ Hp). clear Hsplit.
  set (ws := T2 (t_cols logits_s) <$> chunks (length <$> boxes_h) (t_rows (sigmoid2 logits_s))).
  set (ss := T2 (t_cols logits_p) <$> chunks (length <$> boxes_h) (t_rows (sigmoid2 logits_p))).
  change (mapM (λ a : tensor2 R * tensor2 R * (tensor2 R * tensor2 R) * list (box R)
                      * list (box R) * list nat * option (tensor2 R),
                  let '(w, s, p, b_h, b_o, o, l) := a in
                  postprocess_image w s p b_h b_o o l)
            (zip (zip (zip (zip (zip (zip ws ss) prior) boxes_h) boxes_o) object_class)
                 (default_labels labels (length <$> boxes_h)))
          = Raise IndexError).
  assert (default_labels labels (length <$> boxes_h) = Some <$> labels) as ->.
  { unfold default_labels. by destruct labels. }
  apply mapM_raises.
  { apply Forall_forall. intros [[[[[[w s] p'] bh] bo] o] lab] _ e.
    apply postprocess_image_Raise. }
  destruct (lookup_lt_is_Some_2 _ _ Lbh) as [bh Hbh].
  destruct (lookup_lt_is_Some_2 _ _ Lbo) as [bo Hbo].
  destruct (lookup_lt_is_Some_2 _ _ Loc) as [o Ho].
  destruct (lookup_lt_is_Some_2 ws b) as [w Hw].
  { unfold ws. by rewrite length_fmap, length_chunks, length_fmap. }
  destruct (lookup_lt_is_Some_2 ss b) as [s Hss].
  { unfold ss. by rewrite length_fmap, length_chunks, length_fmap. }
  apply Exists_exists. exists (w, s, p, bh, bo, o, Some l). split.
  - apply list_elem_of_lookup. exists b.
    repeat (apply lookup_zip_with_Some; eexists _, _; split; [reflexivity |];
            split; [| first [done | by rewrite list_lookup_fmap, Hl]]).
    done.
  - destruct (postprocess_image w s p bh bo o (Some l)) as [r|e] eqn:Himg.
    + exfalso.
      destruct (postprocess_image_fields _ _ _ _ _ _ _ _ Himg)
        as (sxy & ox & ar & weights & _ & _ & _ & _ & _ & _ & _ & _ & _ & _ & lxy & Hlxy & _).
      assert ((x, y) ∈ nonzero2 s_nonzero (t_rows p.1)) as (k & Hk)%list_elem_of_lookup.
      { apply elem_of_nonzero2. apply at2_Ok in Hat as (row & ? & ?). eauto. }
      destruct (index2_lookup _ _ _ _ _ _ Hlxy Hk) as (v' & _ & (row & Hrow & _)%at2_Ok).
      by rewrite Hrows in Hrow.
    + by rewrite (postprocess_image_Raise _ _ _ _ _ _ _ _ Himg).
Qed.

(** What a successful run of [InteractionHead.forward] went through. *)
Lemma InteractionHead_forward_Ok (self : InteractionHead R) (m : Modules R F)
    (env : DistEnv) (features : F) (detections : list (Detection R))
    (image_shapes : list (nat * nat)) (targets : option (list (Target R))) results loss :
  InteractionHead_forward self m env features detections image_shapes targets
  = Ok (results, loss) →
  ∃ ds st feats,
    (training self = true → is_Some targets) ∧
    preprocess self detections targets None = Ok ds ∧
    forward_loop (box_pair_head m) features image_shapes
      (box_head (box_pair_head m)
         (box_roi_pool m features (boxes <$> ds) image_shapes))
      targets 0 (zip (zip (boxes <$> ds) (labels <$> ds)) (scores <$> ds)) initial_state
    = Ok st ∧
    length (zip (zip (boxes <$> ds) (labels <$> ds)) (scores <$> ds)) = length detections ∧
    cat_rows (all_box_pair_features (outputs st)) = Ok feats ∧
    postprocess (box_pair_predictor m feats) (box_pair_suppressor m feats)
      (all_prior (outputs st)) (all_boxes_h (outputs st)) (all_boxes_o (outputs st))
      (all_object_class (outputs st)) (all_labels (outputs st)) = Ok results ∧
    (is_Some loss ↔ training self = true).
Proof.
  unfold InteractionHead_forward.
  destruct (training self && _) eqn:Hcheck; [done |]. cbv zeta.
  intros (ds & Hds & Hrest)%bind_Ok.
  apply bind_Ok in Hrest as (out & Hout & Hrest).
  apply bind_Ok in Hrest as (feats & Hfeats & Hrest).
  apply bind_Ok in Hrest as (res & Hres & Hrest).
  apply GraphHead_forward_loop in Hout as (st & Hloop & ->).
  exists ds, st, feats.
  assert (training self = true → is_Some targets) as Ht.
  { intros Htr. rewrite Htr in Hcheck. simpl in Hcheck.
    apply negb_false_iff, bool_decide_eq_true in Hcheck. done. }
  assert (length (zip (zip (boxes <$> ds) (labels <$> ds)) (scores <$> ds))
          = length detections) as Hlen.
  { rewrite !length_zip_with, !length_fmap, (preprocess_length _ _ _ _ _ Hds). lia. }
  destruct (training self).
  - apply bind_Ok in Hrest as (hoi & _ & Hrest).
    apply bind_Ok in Hrest as (inter & _ & [= <- <-]).
    split_and!; done.
  - injection Hrest as <- <-. split_and!; try done.
    all: try (split; [by intros [? ?] | done]).
Qed.

(** X22. An empty batch never gives a result: [InteractionHead.forward]
    raises [AssertionError] when targets are missing in training mode (its
    own, or the graph head's), and otherwise (the pooling module having
    returned) [RuntimeError], from the concatenation of an empty list of pair
    features. *)
Theorem forward_empty_batch (self : InteractionHead R) (m : Modules R F)
    (env : DistEnv) (features : F) (image_shapes : list (nat * nat))
    (targets : option (list (Target R))) :
  InteractionHead_forward self m env features [] image_shapes targets
  = Raise (if (training self || gh_training (box_pair_head m))
              && negb (bool_decide (is_Some targets))
           then AssertionError else RuntimeError).
Proof.
  unfold InteractionHead_forward, GraphHead_forward.
  destruct (training self), (gh_training (box_pair_head m)),
    (bool_decide (is_Some targets)); done.
Qed.

(** X23. With targets, [InteractionHead.forward] returns one result per
    image of the batch, each with the keys [labels] and [binary_labels], and
    the loss dict is appended exactly in training mode. *)
Theorem forward_with_targets (self : InteractionHead R) (m : Modules R F)
    (env : DistEnv) (features : F) (detections : list (Detection R))
    (image_shapes : list (nat * nat)) (ts : list (Target R))
    (results : list (Result R)) (loss : option (R * R)) :
  InteractionHead_forward self m env features detections image_shapes (Some ts)
  = Ok (results, loss) →
  length results = length detections ∧
  Forall (λ r, is_Some (r_labels r) ∧ is_Some (r_binary_labels r)) results ∧
  (is_Some loss ↔ training self = true).
Proof.
  intros (ds & st & feats & _ & Hds & Hloop & Hlen & Hfeats & Hpost & Hloss)%InteractionHead_forward_Ok.
  destruct (forward_loop_lengths _ _ _ _ _ _ _ _ _ Hloop) as (Lf & Lbh & Lbo & Loc & Lp & Ll).
  specialize (Ll ltac:(by eexists)). simpl in Lf, Lbh, Lbo, Loc, Lp, Ll.
  rewrite Hlen in Lf, Lbh, Lbo, Loc, Lp, Ll.
  assert (length detections ≠ 0) as Hne.
  { intros H0'. rewrite H0' in Lf. by destruct (all_box_pair_features (outputs st)). }
  assert (default_labels (all_labels (outputs st)) (length <$> all_boxes_h (outputs st))
          = Some <$> all_labels (outputs st)) as Hdef.
  { unfold default_labels. rewrite Ll. by destruct (length detections). }
  split_and!; [| | done].
  - rewrite (postprocess_length _ _ _ _ _ _ _ _ Hpost), Hdef, length_fmap. lia.
  - apply Forall_forall. intros r (b & Hr)%list_elem_of_lookup.
    destruct (postprocess_lookup _ _ _ _ _ _ _ _ _ _ Hpost Hr)
      as (ws & ss & w & s & p & bh & bo & o & lab & _ & _ & _ & _ & _ & _ & _ & _ & Hlab
          & _ & _ & Himg).
    rewrite Hdef in Hlab. apply list_lookup_fmap_Some in Hlab as (l & -> & _).
    destruct (postprocess_image_fields _ _ _ _ _ _ _ _ Himg)
      as (sxy & ox & ar & weights & _ & _ & _ & _ & _ & _ & _ & _ & _ & _ & lxy & _ & -> & ->).
    split; by eexists.
Qed.

(** X24. Without targets, on a batch of which the graph head skips no image
    (every preprocessed image has a human and at least two detections), a
    successful [InteractionHead.forward] returns no loss dict and one result
    per image, none of which has the keys [labels] and [binary_labels]. *)
Theorem forward_inference_results (self : InteractionHead R) (m : Modules R F)
    (env : DistEnv) (features : F) (detections ds : list (Detection R))
    (image_shapes : list (nat * nat))
    (results : list (Result R)) (loss : option (R * R)) :
  InteractionHead_forward self m env features detections image_shapes None
  = Ok (results, loss) →
  preprocess self detections None None = Ok ds →
  skipped_images (box_pair_head m)
    (zip (zip (boxes <$> ds) (labels <$> ds)) (scores <$> ds)) = [] →
  loss = None ∧
  length results = length detections ∧
  Forall (λ r, r_labels r = None ∧ r_binary_labels r = None) results.
Proof.
  intros (ds' & st & feats & Htr & Hds & Hloop & Hlen & Hfeats & Hpost & Hloss)%InteractionHead_forward_Ok
    Hds' Hskip.
  rewrite Hds' in Hds. injection Hds as <-.
  assert (loss = None) as Hnone.
  { destruct loss as [l|]; [|done]. destruct Hloss as [Hloss _].
    destruct (Htr (Hloss ltac:(by eexists))) as [? [=]]. }
  destruct (forward_loop_lengths _ _ _ _ _ _ _ _ _ Hloop) as (Lf & Lbh & Lbo & Loc & Lp & _).
  simpl in Lf, Lbh, Lbo, Loc, Lp. rewrite Hlen in Lf, Lbh, Lbo, Loc, Lp.
  pose proof (forward_loop_labels _ _ _ _ _ _ _ _ Hloop) as Hl. simpl in Hl.
  rewrite Hskip in Hl. simpl in Hl.
  assert (default_labels (all_labels (outputs st)) (length <$> all_boxes_h (outputs st))
          = replicate (length detections) None) as Hdef.
  { unfold default_labels. by rewrite Hl, length_fmap, Lbh. }
  split_and!; [done | |].
  - rewrite (postprocess_length _ _ _ _ _ _ _ _ Hpost), Hdef, length_replicate. lia.
  - apply Forall_forall. intros r (b & Hr)%list_elem_of_lookup.
    destruct (postprocess_lookup _ _ _ _ _ _ _ _ _ _ Hpost Hr)
      as (ws & ss & w & s & p & bh & bo & o & lab & _ & _ & _ & _ & _ & _ & _ & _ & Hlab
          & _ & _ & Himg).
    rewrite Hdef in Hlab. apply lookup_replicate in Hlab as [-> _].
    destruct (postprocess_image_fields _ _ _ _ _ _ _ _ Himg)
      as (sxy & ox & ar & weights & _ & _ & _ & _ & _ & _ & _ & _ & _ & _ & Hnl).
    exact Hnl.
Qed.

(** X25. In every result of [InteractionHead.forward] the human boxes, the
    object boxes and the object classes list the same pairs, every entry of
    [index] is a position in these lists, and [prediction] and [scores] have
    one entry per entry of [index]: the reads [boxes_h[index]],
    [boxes_o[index]] and [object[index]] that [test] of [utils.py] performs
    stay in range. *)
Theorem forward_results_in_range (self : InteractionHead R) (m : Modules R F)
    (env : DistEnv) (features : F) (detections : list (Detection R))
    (image_shapes : list (nat * nat)) (targets : option (list (Target R)))
    (results : list (Result R)) (loss : option (R * R)) :
  InteractionHead_forward self m env features detections image_shapes targets
  = Ok (results, loss) →
  Forall (λ r,
            length (r_boxes_o r) = length (r_boxes_h r) ∧
            length (r_object r) = length (r_boxes_h r) ∧
            Forall (λ x, x < length (r_boxes_h r)) (r_index r) ∧
            length (r_prediction r) = length (r_index r) ∧
            length (r_scores r) = length (r_index r)) results.
Proof.
  intros (ds & st & feats & _ & Hds & Hloop & Hlen & Hfeats & Hpost & _)%InteractionHead_forward_Ok.
  assert (rows_per_pair (box_pair_head m) (bool_decide (is_Some targets)) (outputs st))
    as (Hbo & Hoc & _).
  { eapply forward_loop_rows_per_pair; [done |].
    unfold rows_per_pair. simpl. split_and!; by constructor. }
  apply Forall_forall. intros r (b & Hr)%list_elem_of_lookup.
  destruct (postprocess_lookup _ _ _ _ _ _ _ _ _ _ Hpost Hr)
    as (ws & ss & w & s & p & bh & bo & o & lab & _ & _ & _ & _ & _ & Hbh & Hbo' & Ho & _
        & _ & Ls & Himg).
  destruct (postprocess_image_fields _ _ _ _ _ _ _ _ Himg)
    as (sxy & ox & ar & weights & Hs & _ & _ & _ & Ebh & Ebo & Eo & Ei & Ep & _).
  destruct (postprocess_image_Ok _ _ _ _ _ _ _ _ Himg) as (_ & _ & Lsc & _).
  rewrite Ebh, Ebo, Eo, Ei, Ep, Lsc, !length_fmap.
  destruct (Forall2_lookup_l _ _ _ _ _ Hbo Hbh) as (bo' & Hbo'' & Lbo).
  destruct (Forall2_lookup_l _ _ _ _ _ Hoc Hbh) as (oc' & Hoc' & Loc).
  split_and!; [congruence | congruence | | done | done].
  apply Forall_forall. intros x (k & Hk)%list_elem_of_lookup.
  apply list_lookup_fmap_Some in Hk as ([x' y] & -> & Hk). simpl.
  destruct (index2_lookup _ _ _ _ _ _ Hs Hk) as (v & _ & (row & Hrow & _)%at2_Ok).
  rewrite <-Ls. by eapply lookup_lt_Some.
Qed.

End ForwardFurther.

(** ** [GraphHead.forward]: detections that are not ordered *)

Section OrderFurther.
Context {R F : Type} `{Scalar R} `{Torch R}.
Implicit Types (self : GraphHead R F) (st : LoopState R).

Lemma count_humans_zero self labels :
  count_humans self labels = 0 → Forall (λ c, c ≠ gh_human_idx self) labels.
Proof.
  unfold count_humans. induction labels as [|c labels IH]; simpl; [done |].
  destruct (c =? gh_human_idx self) eqn:Hc; simpl; [lia |].
  intros Hz. constructor; [by apply Nat.eqb_neq | auto].
Qed.

(** When an object precedes a human, the first [n_h] labels are not all
    human. *)
Lemma object_before_human self labels i j c :
  labels !! i = Some c → c ≠ gh_human_idx self →
  labels !! j = Some (gh_human_idx self) → i < j →
  forallb (λ c, c =? gh_human_idx self) (take (count_humans self labels) labels) = false.
Proof.
  intros Hi Hc Hj Hij. apply not_true_is_false. intros Hall.
  assert (Forall (λ c, c = gh_human_idx self) (take (count_humans self labels) labels))
    as Htake.
  { apply Forall_forall. intros c' Hc'%list_elem_of_In.
    rewrite forallb_forall in Hall. by apply Nat.eqb_eq, Hall. }
  pose proof (count_humans_le self labels) as Hle.
  assert (count_humans self (drop (count_humans self labels) labels) = 0) as Hdrop.
  { pose proof (count_humans_app self (take (count_humans self labels) labels)
                  (drop (count_humans self labels) labels)) as Happ.
    rewrite take_drop, (count_humans_all _ _ Htake), length_take in Happ. lia. }
  destruct (decide (i < count_humans self labels)) as [Hlt|Hge].
  - assert (take (count_humans self labels) labels !! i = Some c) as Hti
      by (by rewrite lookup_take_lt).
    by pose proof (Forall_lookup_1 _ _ _ _ Htake Hti).
  - apply count_humans_zero in Hdrop.
    assert (drop (count_humans self labels) labels !! (j - count_humans self labels)
            = Some (gh_human_idx self)) as Hdj.
    { rewrite lookup_drop. by replace (_ + _) with j by lia. }
    by pose proof (Forall_lookup_1 _ _ _ _ Hdrop Hdj).
Qed.

(** X27. An image in which some object precedes some human (with as many
    labels as boxes) makes the loop of [GraphHead.forward] raise the
    [ValueError] of line 547, when no image before it has raised. *)
Theorem unordered_detections_raise self features image_shapes box_features targets
    (before after : list (list (box R) * list nat * list R))
    coords labels scores sti (i j c : nat) :
  forward_loop self features image_shapes box_features targets 0 before initial_state
  = Ok sti →
  length coords = length labels →
  labels !! i = Some c → c ≠ gh_human_idx self →
  labels !! j = Some (gh_human_idx self) → i < j →
  forward_loop self features image_shapes box_features targets 0
    (before ++ (coords, labels, scores) :: after) initial_state
  = Raise (ValueError "Human detections are not permuted to the top").
Proof.
  intros Hbefore Hlen Hi Hc Hj Hij.
  rewrite forward_loop_app, Hbefore.
  change (Ok sti ≫= ?f) with (f sti). rewrite forward_loop_cons.
  unfold forward_image.
  assert (skip_image self coords labels = false) as ->.
  { unfold skip_image. apply orb_false_iff. split.
    - apply Nat.eqb_neq. intros Hz%count_humans_zero.
      by pose proof (Forall_lookup_1 _ _ _ _ Hz Hj).
    - apply Nat.leb_gt. apply lookup_lt_Some in Hj. lia. }
  by rewrite (object_before_human _ _ _ _ _ Hi Hc Hj Hij).
Qed.

End OrderFurther.

(** ** The further properties on example inputs *)

Section FurtherExamples.
Import Float64 Examples.
Local Open Scope float_scope.

Lemma preprocess_output_is_aligned_witness :
  ∃ out d (active : list nat),
    preprocess_image inference_head false None 0 three_detections = Ok out ∧
    append_ground_truth inference_head false None 0 three_detections = Ok d ∧
    length (boxes out) = length active ∧
    length (labels out) = length active ∧
    length (scores out) = length active.
Proof.
  eassert (preprocess_image inference_head false None 0 three_detections = Ok _) as Hout
    by (vm_compute; reflexivity).
  destruct (preprocess_output_is_aligned _ _ _ _ _ _ Hout)
    as (d & active & Hd & Lb & Ll & Ls & _).
  eexists _, d, active. split; [exact Hout |]. split; [exact Hd |].
  split; [exact Lb |]. split; [exact Ll | exact Ls].
Defined.

Lemma preprocess_output_above_threshold_witness :
  ∃ out,
    preprocess_image inference_head false None 0 three_detections = Ok out ∧
    Forall (λ s, s_geb s (box_score_thresh inference_head) = true) (scores out).
Proof.
  eassert (preprocess_image inference_head false None 0 three_detections = Ok _) as Hout
    by (vm_compute; reflexivity).
  eexists. split; [exact Hout |].
  exact (preprocess_output_above_threshold _ _ _ _ _ _ Hout).
Defined.

Lemma preprocess_output_passes_ordering_check_witness :
  ∃ out,
    preprocess_image inference_head false None 0 three_detections = Ok out ∧
    forallb (λ c, c =? gh_human_idx graph_head)%nat
      (take (count_humans graph_head (labels out)) (labels out)) = true.
Proof.
  eassert (preprocess_image inference_head false None 0 three_detections = Ok _) as Hout
    by (vm_compute; reflexivity).
  eexists. split; [exact Hout |].
  exact (preprocess_output_passes_ordering_check inference_head graph_head _ _ _ _ _
           Hout eq_refl).
Defined.

Lemma kept_pairs_not_empty_witness :
  skip_image graph_head human_and_object.1.1 human_and_object.1.2 = false ∧
  (0, 1)%nat ∈ keep_pairs (count_humans graph_head human_and_object.1.2)
                 (length human_and_object.1.1).
Proof.
  split; [reflexivity |].
  exact (proj2 (kept_pairs_not_empty graph_head human_and_object.1.1 human_and_object.1.2
                  eq_refl)).
Defined.

Lemma compute_prior_scores_total_witness :
  ∃ prior_h prior_o,
    compute_prior_scores graph_head [0%nat] [1%nat] human_and_object.2 human_and_object.1.2
    = Ok (prior_h, prior_o) ∧
    shape2 prior_h = (1%nat, 3%nat) ∧ shape2 prior_o = (1%nat, 3%nat).
Proof.
  destruct (compute_prior_scores_total graph_head [0%nat] [1%nat] human_and_object.2
              human_and_object.1.2)
    as (prior_h & prior_o & Hp & Sh & _ & So & _).
  - reflexivity.
  - repeat constructor.
  - repeat constructor.
  - repeat constructor.
    + exists [0%nat; 2%nat]. split; [reflexivity |]. repeat constructor.
    + exists [1%nat]. split; [reflexivity |]. repeat constructor.
  - exists prior_h, prior_o. split; [exact Hp |]. split; [exact Sh | exact So].
Defined.

Lemma compute_prior_scores_unmapped_class_witness :
  object_class_to_target_class graph_head !! 2%nat = None ∧
  compute_prior_scores graph_head [0%nat] [1%nat] [0.5; 0.25] [0%nat; 2%nat]
  = Raise IndexError.
Proof.
  split; [reflexivity |].
  apply (compute_prior_scores_unmapped_class graph_head [0%nat] [1%nat] [0.5; 0.25]
           [0%nat; 2%nat] 0%nat 1%nat 2%nat).
  - repeat constructor.
  - repeat constructor.
  - reflexivity.
  - reflexivity.
  - reflexivity.
Defined.

Lemma associate_with_ground_truth_labels_witness :
  ∃ t,
    associate_with_ground_truth graph_head [(0, 0, 1, 1)] [(0, 0, 2, 2)] one_interaction = Ok t ∧
    shape2 t = (1%nat, 3%nat) ∧
    at2 t 0 1 = Ok 1.
Proof.
  eassert (associate_with_ground_truth graph_head [(0, 0, 1, 1)] [(0, 0, 2, 2)]
             one_interaction = Ok _) as Ht by (vm_compute; reflexivity).
  destruct (associate_with_ground_truth_labels graph_head [(0, 0, 1, 1)] [(0, 0, 2, 2)]
              one_interaction _ eq_refl eq_refl Ht)
    as [Hshape Hat].
  eexists. split; [exact Ht |]. split; [exact Hshape |].
  apply (Hat 0%nat 1%nat); [repeat constructor | repeat constructor |].
  exists 0%nat, (0, 0, 1, 1), (0, 0, 2, 2), (0, 0, 1, 1), (0, 0, 2, 2).
  repeat (split; [reflexivity |]). vm_compute. reflexivity.
Defined.

(** A target with two human boxes and one object box: the minimum of the two
    IoU matrices is broadcast along the ground-truth pairs, and the pair is
    given the class of the second ground-truth label.  With three object
    boxes the shapes cannot be broadcast. *)
Lemma associate_with_ground_truth_broadcasts :
  associate_with_ground_truth graph_head [(0, 0, 1, 1)] [(0, 0, 2, 2)]
    (mkTarget [(5, 5, 6, 6); (0, 0, 1, 1)] [(0, 0, 2, 2)] [1%nat] [1%nat; 2%nat])
  = Ok (T2 3 [[0; 0; 1]]) ∧
  associate_with_ground_truth graph_head [(0, 0, 1, 1)] [(0, 0, 2, 2)]
    (mkTarget [(5, 5, 6, 6); (0, 0, 1, 1)] [(0, 0, 2, 2); (0, 0, 2, 2); (0, 0, 2, 2)]
       [1%nat] [1%nat; 2%nat])
  = Raise RuntimeError.
Proof. split; vm_compute; reflexivity. Qed.

Lemma GraphHead_forward_lengths_witness :
  ∃ out,
    GraphHead_forward graph_head () [] three_rows
      [one_object.1.1; human_and_object.1.1]
      [one_object.1.2; human_and_object.1.2]
      [one_object.2; human_and_object.2] None = Ok out ∧
    length (all_box_pair_features out) = 2%nat ∧
    length (all_prior out) = 2%nat.
Proof.
  eassert (GraphHead_forward graph_head () [] three_rows
             [one_object.1.1; human_and_object.1.1]
             [one_object.1.2; human_and_object.1.2]
             [one_object.2; human_and_object.2] None = Ok _) as Hout
    by (vm_compute; reflexivity).
  destruct (GraphHead_forward_lengths _ _ _ _ _ _ _ _ _ Hout) as (Lf & _ & _ & _ & Lp & _).
  eexists. split; [exact Hout |]. split; [exact Lf | exact Lp].
Defined.

Lemma node_encodings_offset_witness :
  ∃ sti,
    forward_loop graph_head () [] three_rows None 0 [one_object] initial_state = Ok sti ∧
    counter sti = 0%nat.
Proof.
  eassert (forward_loop graph_head () [] three_rows None 0
             ([one_object] ++ (human_and_object.1.1, human_and_object.1.2, human_and_object.2)
                :: []) initial_state = Ok _) as Hloop
    by (vm_compute; reflexivity).
  destruct (node_encodings_offset _ _ _ _ _ _ _ _ _ _ _ Hloop)
    as (sti & sti' & Hbefore & _ & Hcounter & _).
  exists sti. split; [exact Hbefore | exact Hcounter].
Defined.

Lemma filter_detections_humans_first_witness :
  ∃ out,
    filter_detections data_factory three_detections = Ok out ∧
    gather (labels three_detections) [1%nat; 0%nat] = Ok (labels out).
Proof.
  destruct (filter_detections_humans_first data_factory three_detections)
    as (out & kh & ko & Hout & _ & Hl & _).
  - simpl. lia.
  - simpl. lia.
  - exists out. split; [exact Hout |].
    revert Hout Hl. vm_compute. intros [= <-] Hl. reflexivity.
Defined.

Lemma constant_linear_shape k i o : linear_shape (constant_linear k i o) i o.
Proof.
  unfold linear_shape, constant_linear. simpl. rewrite !length_replicate.
  split_and!; [done | | done].
  apply Forall_forall. intros row [-> _]%elem_of_replicate. by rewrite length_replicate.
Qed.

Lemma AttentionHead_init_divisibility_witness :
  int_true_div 4 2 = (4 / 2)%nat ∧
  int_true_div 5 2 = (5 / 2)%nat ∧
  (∃ head, AttentionHead_init int_true_div constant_linear 2 3 4 2 = inr head ∧
           length (fc_1 head) = 2%nat) ∧
  AttentionHead_init int_true_div constant_linear 2 3 5 2 = inl SizeAssertionError ∧
  ¬ (2 | 5)%nat.
Proof.
  split; [vm_compute; reflexivity |]. split; [vm_compute; reflexivity |]. split.
  - pose proof (AttentionHead_init_divisibility int_true_div constant_linear 2 3 4 2
                  ltac:(intros _; vm_compute; reflexivity)) as Hm.
    eassert (AttentionHead_init int_true_div constant_linear 2 3 4 2 = inr _) as Hinit
      by (vm_compute; reflexivity).
    rewrite Hinit in Hm. destruct Hm as (_ & _ & L1 & _).
    eexists. split; [exact Hinit | exact L1].
  - pose proof (AttentionHead_init_divisibility int_true_div constant_linear 2 3 5 2
                  ltac:(intros _; vm_compute; reflexivity)) as Hm.
    assert (AttentionHead_init int_true_div constant_linear 2 3 5 2
            = inl SizeAssertionError) as Hinit by (vm_compute; reflexivity).
    rewrite Hinit in Hm. destruct Hm as [_ Hnd].
    split; [exact Hinit | exact Hnd].
Defined.

Lemma AttentionHead_forward_shape_witness :
  ∃ head out,
    AttentionHead_init int_true_div constant_linear 2 3 4 2 = inr head ∧
    AttentionHead_forward head [[1; 1]] [[1; 1; 1]] = Ok out ∧
    rows_shape 1 4 out.
Proof.
  eassert (AttentionHead_init int_true_div constant_linear 2 3 4 2 = inr _) as Hinit
    by (vm_compute; reflexivity).
  destruct (AttentionHead_forward_shape int_true_div constant_linear 2 3 4 2 _
              [[1; 1]] [[1; 1; 1]] 1
              constant_linear_shape Hinit)
    as (out & Hout & Hshape).
  - split; [reflexivity | repeat constructor].
  - split; [reflexivity | repeat constructor].
  - eexists _, out. split; [exact Hinit |]. split; [exact Hout | exact Hshape].
Defined.

Lemma forward_human_nodes_shape_witness :
  ∃ head unit out,
    AttentionHead_init int_true_div constant_linear 2 3 4 2 = inr head ∧
    MessageAttentionHead_init head "human" = Ok unit ∧
    MessageAttentionHead_forward unit [] (T3 2 [[[1; 1; 1]; [1; 1; 1]]])
    = Raise AssertionError ∧
    MessageAttentionHead_forward unit [[1; 1]] (T3 2 [[[1; 1; 1]; [1; 1; 1]]]) = Ok out ∧
    grid_shape 2 1 4 out.
Proof.
  eassert (AttentionHead_init int_true_div constant_linear 2 3 4 2 = inr _) as Hinit
    by (vm_compute; reflexivity).
  eassert (MessageAttentionHead_init _ "human" = Ok _) as Hunit by reflexivity.
  destruct (forward_human_nodes_shape int_true_div constant_linear 2 3 4 2 _ _ [[1; 1]]
              (T3 2 [[[1; 1; 1]; [1; 1; 1]]]) 1 2 constant_linear_shape Hinit Hunit)
    as [_ Hshape].
  - split; [reflexivity | repeat constructor].
  - reflexivity.
  - destruct Hshape as (out & Hout & Hshape); [split; [reflexivity | repeat constructor] |].
    eexists _, _, out. split; [exact Hinit |]. split; [exact Hunit |].
    split; [reflexivity |]. split; [exact Hout | exact Hshape].
Defined.

Lemma forward_object_nodes_shape_witness :
  ∃ head unit out,
    AttentionHead_init int_true_div constant_linear 2 3 4 2 = inr head ∧
    MessageAttentionHead_init head "object" = Ok unit ∧
    MessageAttentionHead_forward unit [[1; 1]] (T3 2 [[[1; 1; 1]; [1; 1; 1]]])
    = Raise AssertionError ∧
    MessageAttentionHead_forward unit [[1; 1]; [1; 1]] (T3 2 [[[1; 1; 1]; [1; 1; 1]]])
    = Ok out ∧
    grid_shape 1 2 4 out.
Proof.
  eassert (AttentionHead_init int_true_div constant_linear 2 3 4 2 = inr _) as Hinit
    by (vm_compute; reflexivity).
  eassert (MessageAttentionHead_init _ "object" = Ok _) as Hunit by reflexivity.
  destruct (forward_object_nodes_shape int_true_div constant_linear 2 3 4 2 _ _
              [[1; 1]; [1; 1]]
              (T3 2 [[[1; 1; 1]; [1; 1; 1]]]) 1 2 constant_linear_shape Hinit Hunit)
    as [_ Hshape].
  - split; [reflexivity | repeat constructor].
  - reflexivity.
  - destruct Hshape as (out & Hout & Hshape); [split; [reflexivity | repeat constructor] |].
    eexists _, _, out. split; [exact Hinit |]. split; [exact Hunit |].
    split; [reflexivity |]. split; [exact Hout | exact Hshape].
Defined.

Lemma postprocess_index_in_range_witness :
  ∃ results r,
    postprocess (T2 3 [[0; 1; -1]]) (T2 2 [[0; 3]])
      [(T2 3 [[0; 0.25; 0]], T2 3 [[0; 0.0625; 0]])]
      [[(0, 0, 1, 1)]] [[(0, 0, 2, 2)]] [[1%nat]] [] = Ok results ∧
    results !! 0%nat = Some r ∧
    r_index r = [0%nat] ∧
    Forall (λ x, x < length (r_boxes_h r) ∧ x < length (r_object r))%nat (r_index r).
Proof.
  eassert (postprocess (T2 3 [[0; 1; -1]]) (T2 2 [[0; 3]])
             [(T2 3 [[0; 0.25; 0]], T2 3 [[0; 0.0625; 0]])]
             [[(0, 0, 1, 1)]] [[(0, 0, 2, 2)]] [[1%nat]] [] = Ok _) as Hpost
    by (vm_compute; reflexivity).
  destruct (postprocess_index_in_range _ _ _ _ _ _ _ _ 0%nat _ Hpost eq_refl)
    as (_ & _ & _ & Hrange).
  eexists _, _. split; [exact Hpost |]. split; [reflexivity |].
  split; [reflexivity | exact Hrange].
Defined.

Lemma postprocess_weights_witness :
  ∃ results r,
    postprocess (T2 3 [[0; 1; -1]]) (T2 2 [[0; 3]])
      [(T2 3 [[0; 0.25; 0]], T2 3 [[0; 0.0625; 0]])]
      [[(0, 0, 1, 1)]] [[(0, 0, 2, 2)]] [[1%nat]] [] = Ok results ∧
    results !! 0%nat = Some r ∧
    r_weights r = [algebraic_sigmoid 3] ∧
    length (r_weights r) = length (r_boxes_h r).
Proof.
  eassert (postprocess (T2 3 [[0; 1; -1]]) (T2 2 [[0; 3]])
             [(T2 3 [[0; 0.25; 0]], T2 3 [[0; 0.0625; 0]])]
             [[(0, 0, 1, 1)]] [[(0, 0, 2, 2)]] [[1%nat]] [] = Ok _) as Hpost
    by (vm_compute; reflexivity).
  destruct (postprocess_weights _ _ _ _ _ _ _ _ 0%nat _ Hpost eq_refl eq_refl)
    as [Hlen _].
  eexists _, _. split; [exact Hpost |]. split; [reflexivity |].
  split; [vm_compute; reflexivity | exact Hlen].
Defined.

Lemma postprocess_labels_witness :
  ∃ results r,
    postprocess (T2 3 [[0; 1; -1]]) (T2 2 [[0; 3]])
      [(T2 3 [[0; 0.25; 0]], T2 3 [[0; 0.0625; 0]])]
      [[(0, 0, 1, 1)]] [[(0, 0, 2, 2)]] [[1%nat]] [T2 3 [[0; 1; 0]]] = Ok results ∧
    results !! 0%nat = Some r ∧
    r_labels r = Some [1] ∧
    r_binary_labels r = Some [fmin (0 + 0 + 1 + 0) 1].
Proof.
  eassert (postprocess (T2 3 [[0; 1; -1]]) (T2 2 [[0; 3]])
             [(T2 3 [[0; 0.25; 0]], T2 3 [[0; 0.0625; 0]])]
             [[(0, 0, 1, 1)]] [[(0, 0, 2, 2)]] [[1%nat]] [T2 3 [[0; 1; 0]]] = Ok _) as Hpost
    by (vm_compute; reflexivity).
  destruct (postprocess_labels _ _ _ _ _ _ _ _ 0%nat _ Hpost eq_refl)
    as (l & lxy & Hl & Hlxy & _ & _ & Hbinary).
  injection Hl as <-.
  eexists _, _. split; [exact Hpost |]. split; [reflexivity |].
  split; [reflexivity | exact Hbinary].
Defined.

Lemma losses_need_labels_witness :
  ∃ results,
    postprocess (T2 3 [[0; 1; -1]]) (T2 2 [[0; 3]])
      [(T2 3 [[0; 0.25; 0]], T2 3 [[0; 0.0625; 0]])]
      [[(0, 0, 1, 1)]] [[(0, 0, 2, 2)]] [[1%nat]] [] = Ok results ∧
    compute_interaction_classification_loss interaction_head (collective [1%nat] 0) results
    = Raise KeyError ∧
    compute_interactiveness_loss interaction_head (collective [1%nat] 0) results
    = Raise KeyError.
Proof.
  eassert (postprocess (T2 3 [[0; 1; -1]]) (T2 2 [[0; 3]])
             [(T2 3 [[0; 0.25; 0]], T2 3 [[0; 0.0625; 0]])]
             [[(0, 0, 1, 1)]] [[(0, 0, 2, 2)]] [[1%nat]] [] = Ok _) as Hpost
    by (vm_compute; reflexivity).
  eexists. split; [exact Hpost |].
  apply (losses_need_labels interaction_head (collective [1%nat] 0) _ _ _ _ _ _ _ Hpost).
  discriminate.
Defined.

Lemma GraphHead_forward_one_row_per_pair_witness :
  ∃ out bh prior_h prior_o,
    GraphHead_forward graph_head () [] three_rows
      [one_object.1.1; human_and_object.1.1]
      [one_object.1.2; human_and_object.1.2]
      [one_object.2; human_and_object.2] None = Ok out ∧
    all_boxes_h out !! 1%nat = Some bh ∧
    all_prior out !! 1%nat = Some (prior_h, prior_o) ∧
    shape2 prior_h = (length bh, 3%nat).
Proof.
  eassert (GraphHead_forward graph_head () [] three_rows
             [one_object.1.1; human_and_object.1.1]
             [one_object.1.2; human_and_object.1.2]
             [one_object.2; human_and_object.2] None = Ok _) as Hout
    by (vm_compute; reflexivity).
  destruct (GraphHead_forward_one_row_per_pair _ _ _ _ _ _ _ _ _ 1%nat _ Hout eq_refl)
    as (bo & oc & prior_h & prior_o & _ & _ & _ & _ & Hp & Hshape & _).
  eexists _, _, prior_h, prior_o. split; [exact Hout |]. split; [reflexivity |].
  split; [exact Hp | exact Hshape].
Defined.

Lemma preprocess_missing_targets_witness :
  preprocess interaction_head [three_detections] None None = Raise TypeError ∧
  preprocess interaction_head [three_detections] (Some []) None = Raise IndexError.
Proof.
  destruct (preprocess_missing_targets interaction_head [three_detections] None eq_refl)
    as [Hnone Hshort].
  split; [apply Hnone; discriminate | apply Hshort; simpl; lia].
Defined.

Lemma forward_with_targets_witness :
  ∃ results loss,
    InteractionHead_forward interaction_head modules (collective [1%nat] 0) ()
      [three_detections] [] (Some [one_interaction]) = Ok (results, loss) ∧
    length results = 1%nat ∧
    is_Some loss.
Proof.
  eassert (InteractionHead_forward interaction_head modules (collective [1%nat] 0) ()
             [three_detections] [] (Some [one_interaction]) = Ok (_, _)) as Hfwd
    by (vm_compute; reflexivity).
  destruct (forward_with_targets _ _ _ _ _ _ _ _ _ Hfwd) as (Hlen & _ & Hloss).
  eexists _, _. split; [exact Hfwd |]. split; [exact Hlen |]. apply Hloss. reflexivity.
Defined.

Lemma forward_inference_results_witness :
  ∃ results loss,
    InteractionHead_forward inference_head modules (collective [1%nat] 0) ()
      [three_detections] [] None = Ok (results, loss) ∧
    loss = None ∧
    length results = 1%nat ∧
    Forall (λ r, r_labels r = None ∧ r_binary_labels r = None) results.
Proof.
  eassert (InteractionHead_forward inference_head modules (collective [1%nat] 0) ()
             [three_detections] [] None = Ok (_, _)) as Hfwd
    by (vm_compute; reflexivity).
  eassert (preprocess inference_head [three_detections] None None = Ok _) as Hds
    by (vm_compute; reflexivity).
  destruct (forward_inference_results _ _ _ _ _ _ _ _ _ Hfwd Hds eq_refl)
    as (Hloss & Hlen & Hlabels).
  eexists _, _. split; [exact Hfwd |]. split; [exact Hloss |].
  split; [exact Hlen | exact Hlabels].
Defined.

Lemma forward_results_in_range_witness :
  ∃ results loss,
    InteractionHead_forward inference_head modules (collective [1%nat] 0) ()
      [three_detections] [] None = Ok (results, loss) ∧
    Forall (λ r, length (r_boxes_o r) = length (r_boxes_h r) ∧
                 Forall (λ x, x < length (r_boxes_h r))%nat (r_index r)) results.
Proof.
  eassert (InteractionHead_forward inference_head modules (collective [1%nat] 0) ()
             [three_detections] [] None = Ok (_, _)) as Hfwd
    by (vm_compute; reflexivity).
  pose proof (forward_results_in_range _ _ _ _ _ _ _ _ _ Hfwd) as Hall.
  eexists _, _. split; [exact Hfwd |].
  eapply Forall_impl; [exact Hall |]. intros r (Hbo & _ & Hidx & _). split; assumption.
Defined.

Lemma labels_without_rows_raise_witness :
  postprocess (T2 3 [[0; 1; -1]]) (T2 2 [[0; 3]])
    [(T2 3 [[0; 0.25; 0]], T2 3 [[0; 0.0625; 0]])]
    [[(0, 0, 1, 1)]] [[(0, 0, 2, 2)]] [[1%nat]] [zeros2 0 3] = Raise IndexError.
Proof.
  apply (labels_without_rows_raise _ _ _ _ _ _ _ 0%nat
           (T2 3 [[0; 0.25; 0]], T2 3 [[0; 0.0625; 0]]) (zeros2 0 3) 0%nat 1%nat 0.25).
  - reflexivity.
  - reflexivity.
  - simpl. lia.
  - simpl. lia.
  - simpl. lia.
  - reflexivity.
  - reflexivity.
  - reflexivity.
  - reflexivity.
  - reflexivity.
Defined.

Lemma unordered_detections_raise_witness :
  forward_loop graph_head () [] three_rows None 0
    ([one_object] ++ ([(0, 0, 2, 2); (0, 0, 1, 1)], [1%nat; 0%nat], [0.25; 0.5]) :: [])
    initial_state
  = Raise (ValueError "Human detections are not permuted to the top").
Proof.
  eassert (forward_loop graph_head () [] three_rows None 0 [one_object] initial_state
           = Ok _) as Hbefore by (vm_compute; reflexivity).
  apply (unordered_detections_raise graph_head () [] three_rows None [one_object] []
           [(0, 0, 2, 2); (0, 0, 1, 1)] [1%nat; 0%nat] [0.25; 0.5] _ 0%nat 1%nat 1%nat
           Hbefore).
  - reflexivity.
  - reflexivity.
  - discriminate.
  - reflexivity.
  - lia.
Defined.

End FurtherExamples.
